(** * Faculty-roster extraction: the row classifier, the field-inference
    engine, the experience normalizer and the per-institution assembler
    of [extraction.py], embedded as Rocq functions and verified.

  Python [str] values are modelled as [string]s whose characters are
  the code points U+0000 .. U+00FF; character classes ([str.isspace],
  [\d], [\w], [str.lower]) are the ones Python uses on that range.
  Python [int]s are [Z]. *)

From Stdlib Require Import Bool Arith ZArith NArith List Lia.
From Stdlib Require Import Strings.Ascii Strings.String.
From Stdlib Require Import Numbers.DecimalString DecimalPos.
From Stdlib Require Import Sorting.Permutation Sorting.Sorted.
From Stdlib Require Import QArith.
Import ListNotations.

Open Scope bool_scope.
Open Scope string_scope.
Open Scope Z_scope.

(* ================================================================== *)
(** * Characters *)

Module Char.

Definition code (c : ascii) : N := N_of_ascii c.

Definition between (lo hi : N) (c : ascii) : bool :=
  ((lo <=? code c) && (code c <=? hi))%N.

(** [\d] and the characters [int()] reads: 0-9. *)
Definition is_digit (c : ascii) : bool := between 48 57 c.

(** [[a-z]], [[A-Z]], [[a-zA-Z]]. *)
Definition is_lower_az (c : ascii) : bool := between 97 122 c.
Definition is_upper_az (c : ascii) : bool := between 65 90 c.
Definition is_alpha (c : ascii) : bool := is_lower_az c || is_upper_az c.

(** [str.isspace] and [\s]: TAB, LF, VT, FF, CR, FS, GS, RS, US, SPACE,
    NEL (U+0085) and NBSP (U+00A0). *)
Definition is_space (c : ascii) : bool :=
  between 9 13 c || between 28 32 c || (code c =? 133)%N || (code c =? 160)%N.

(** [\w]: alphanumeric code points and the underscore. *)
Definition is_word (c : ascii) : bool :=
  is_digit c || is_alpha c || (code c =? 95)%N
  || (code c =? 170)%N || (code c =? 181)%N || (code c =? 186)%N
  || between 178 179 c || (code c =? 185)%N || between 188 190 c
  || between 192 214 c || between 216 246 c || between 248 255 c.

(** One character of [str.lower]. *)
Definition lower (c : ascii) : ascii :=
  if is_upper_az c || between 192 214 c || between 216 222 c
  then ascii_of_N (code c + 32) else c.

(** One character of [str.upper], for the letters whose capital is again
    below U+0100 (the capitals of U+00B5, U+00DF and U+00FF are not; none
    of them is "M" or "F", the only values [upper()] is compared with). *)
Definition upper (c : ascii) : ascii :=
  if is_lower_az c || between 224 246 c || between 248 254 c
  then ascii_of_N (code c - 32) else c.

Definition digit_value (c : ascii) : Z := Z.of_N (code c) - 48.

End Char.

(* ================================================================== *)
(** * Strings: the [str] methods the program calls *)

Module Str.

Definition is_empty (s : string) : bool :=
  match s with "" => true | _ => false end.

Fixpoint map (f : ascii -> ascii) (s : string) : string :=
  match s with
  | "" => ""
  | String c r => String (f c) (map f r)
  end.

Fixpoint forallb (p : ascii -> bool) (s : string) : bool :=
  match s with
  | "" => true
  | String c r => p c && forallb p r
  end.

Fixpoint existsb (p : ascii -> bool) (s : string) : bool :=
  match s with
  | "" => false
  | String c r => p c || existsb p r
  end.

(** [s.lower()], [s.upper()]. *)
Definition lower (s : string) : string := map Char.lower s.
Definition upper (s : string) : string := map Char.upper s.

(** [s.replace(a, b)] for one-character [a] and [b]. *)
Definition replace (a b : ascii) (s : string) : string :=
  map (fun c => if Ascii.eqb c a then b else c) s.

(** [s.lstrip()], [s.rstrip()], [s.strip()]. *)
Fixpoint lstrip (s : string) : string :=
  match s with
  | "" => ""
  | String c r => if Char.is_space c then lstrip r else s
  end.

Fixpoint rstrip (s : string) : string :=
  match s with
  | "" => ""
  | String c r =>
      match rstrip r with
      | "" => if Char.is_space c then "" else String c ""
      | r' => String c r'
      end
  end.

Definition strip (s : string) : string := rstrip (lstrip s).

(** [len(s)] as a Python integer. *)
Definition len (s : string) : Z := Z.of_nat (String.length s).

(** [p] is an initial segment of [s]. *)
Fixpoint starts_with (p s : string) : bool :=
  match p, s with
  | "", _ => true
  | String a p', String b s' => Ascii.eqb a b && starts_with p' s'
  | String _ _, "" => false
  end.

(** [sub in s] on strings. *)
Fixpoint contains (sub s : string) : bool :=
  starts_with sub s ||
  match s with
  | "" => false
  | String _ r => contains sub r
  end.

(** [x in l] for a list (or the values of a dict) of strings. *)
Definition mem (x : string) (l : list string) : bool :=
  List.existsb (String.eqb x) l.

(** [any(term in s for term in terms)]. *)
Definition contains_any (terms : list string) (s : string) : bool :=
  List.existsb (fun t => contains t s) terms.

(** [sep.join(l)]. *)
Fixpoint join (sep : string) (l : list string) : string :=
  match l with
  | [] => ""
  | [x] => x
  | x :: r => x ++ sep ++ join sep r
  end.

(** The text from the first digit of [s] on. *)
Fixpoint from_first_digit (s : string) : string :=
  match s with
  | "" => ""
  | String c r => if Char.is_digit c then s else from_first_digit r
  end.

(** The longest initial segment of [s] made of digits. *)
Fixpoint leading_digits (s : string) : string :=
  match s with
  | "" => ""
  | String c r => if Char.is_digit c then String c (leading_digits r) else ""
  end.

(** What follows the leading digits. *)
Fixpoint after_digits (s : string) : string :=
  match s with
  | "" => ""
  | String c r => if Char.is_digit c then after_digits r else s
  end.

(** The integer a run of digits denotes: what [int(s)] gives when it
    returns ([int_of_str] below adds the length check of [int]). *)
Fixpoint int_acc (acc : Z) (s : string) : Z :=
  match s with
  | "" => acc
  | String c r => int_acc (10 * acc + Char.digit_value c) r
  end.

Definition int (s : string) : Z := int_acc 0 s.

(** The decimal numeral of an integer: what [str(n)] and an f-string give
    when they return ([str_of_int] below adds the length check of [str]). *)
Definition of_int (n : Z) : string := NilZero.string_of_int (Z.to_int n).

End Str.

(* ================================================================== *)
(** * Regular expressions: the [re] patterns of the program

  Only the truth value of [re.search] and [re.match] is used by the
  program for the patterns below, so a pattern is embedded as a regular
  expression over character classes and decided with derivatives.  The
  two searches whose matched text is used ([\d+] in
  [safe_extract_number], [(\d+\.\d+)] in the decimal sub-pattern) are
  the functions [Str.from_first_digit] / [Str.leading_digits] and
  [first_decimal]. *)

Module Re.

Inductive regex : Type :=
| Void : regex
| Eps : regex
| Cls : (ascii -> bool) -> regex
| Seq : regex -> regex -> regex
| Alt : regex -> regex -> regex
| Star : regex -> regex.

Fixpoint nullable (r : regex) : bool :=
  match r with
  | Void => false
  | Eps => true
  | Cls _ => false
  | Seq a b => nullable a && nullable b
  | Alt a b => nullable a || nullable b
  | Star _ => true
  end.

(** Constructors that drop [Void] and [Eps] where they change nothing. *)
Definition seq (a b : regex) : regex :=
  match a, b with
  | Void, _ => Void
  | _, Void => Void
  | Eps, _ => b
  | _, Eps => a
  | _, _ => Seq a b
  end.

Definition alt (a b : regex) : regex :=
  match a, b with
  | Void, _ => b
  | _, Void => a
  | _, _ => Alt a b
  end.

Fixpoint deriv (c : ascii) (r : regex) : regex :=
  match r with
  | Void => Void
  | Eps => Void
  | Cls p => if p c then Eps else Void
  | Seq a b =>
      if nullable a then alt (seq (deriv c a) b) (deriv c b)
      else seq (deriv c a) b
  | Alt a b => alt (deriv c a) (deriv c b)
  | Star a => seq (deriv c a) (Star a)
  end.

(** [re.fullmatch(r, s)] is not [None]. *)
Fixpoint fullmatch (r : regex) (s : string) : bool :=
  match s with
  | "" => nullable r
  | String c t => fullmatch (deriv c r) t
  end.

Definition any : regex := Cls (fun _ => true).

(** [re.search(r, s)] is not [None]: some substring of [s] matches. *)
Definition search (r : regex) (s : string) : bool :=
  fullmatch (Seq (Star any) (Seq r (Star any))) s.

(** [re.match('^' r '$', s)] is not [None]: without [re.MULTILINE], [$]
    matches at the end of [s] and before a line feed that ends [s]. *)
Definition match_to_end (r : regex) (s : string) : bool :=
  fullmatch (Seq r (Alt Eps (Cls (Ascii.eqb "010")))) s.

(** Pattern syntax. *)
Definition chr (c : ascii) : regex := Cls (Ascii.eqb c).
Definition one_of (cs : string) : regex :=
  Cls (fun c => Str.existsb (Ascii.eqb c) cs).
Definition digit : regex := Cls Char.is_digit.        (* \d *)
Definition space : regex := Cls Char.is_space.        (* \s *)
Definition word : regex := Cls Char.is_word.          (* \w *)
Definition opt (r : regex) : regex := Alt r Eps.      (* r? *)
Definition plus (r : regex) : regex := Seq r (Star r). (* r+ *)

Fixpoint times (n : nat) (r : regex) : regex :=       (* r{n} *)
  match n with
  | O => Eps
  | S k => Seq r (times k r)
  end.

Fixpoint upto (n : nat) (r : regex) : regex :=        (* r{0,n} *)
  match n with
  | O => Eps
  | S k => opt (Seq r (upto k r))
  end.

Definition range (m n : nat) (r : regex) : regex :=   (* r{m,n} *)
  Seq (times m r) (upto (n - m) r).

Definition at_least (m : nat) (r : regex) : regex :=  (* r{m,} *)
  Seq (times m r) (Star r).

Fixpoint seqs (rs : list regex) : regex :=
  match rs with
  | [] => Eps
  | [r] => r
  | r :: rest => Seq r (seqs rest)
  end.

(** The words of a pattern. *)
Inductive lang : regex -> string -> Prop :=
| L_eps : lang Eps ""
| L_cls p c : p c = true -> lang (Cls p) (String c "")
| L_seq a b s t : lang a s -> lang b t -> lang (Seq a b) (s ++ t)
| L_alt_l a b s : lang a s -> lang (Alt a b) s
| L_alt_r a b s : lang b s -> lang (Alt a b) s
| L_star_nil a : lang (Star a) ""
| L_star_app a s t : lang a s -> lang (Star a) t -> lang (Star a) (s ++ t).

End Re.

(** The patterns of [extraction.py], by the line that holds them. *)
Module Pattern.
Import Re.

Definition a_digit : regex := digit.                          (* r"\d" *)
Definition digits : regex := plus digit.                      (* r"\d+" *)
Definition two_letters : regex := at_least 2 (Cls Char.is_alpha).   (* r'[a-zA-Z]{2,}' *)
Definition three_letters : regex := at_least 3 (Cls Char.is_alpha). (* r'[a-zA-Z]{3,}' *)
Definition m_or_f : regex := Alt (chr "m") (chr "f").         (* r'^(m|f)$' *)
Definition decimal : regex :=                                 (* r'(\d+\.\d+)' *)
  seqs [plus digit; chr "."; plus digit].
Definition four_digits : regex := times 4 digit.              (* r'\d{4}' *)
Definition degree_abbrev : regex :=                           (* r'[bm]\.[a-z]{2,}' *)
  seqs [one_of "bm"; chr "."; at_least 2 (Cls Char.is_lower_az)].

Definition date_patterns : list regex :=
  [ (* r'\d{1,2}[/-]\d{1,2}[/-]\d{2,4}' *)
    seqs [range 1 2 digit; one_of "/-"; range 1 2 digit; one_of "/-";
          range 2 4 digit];
    (* r'\d{1,2}\s+\w+\s+\d{2,4}' *)
    seqs [range 1 2 digit; plus space; plus word; plus space;
          range 2 4 digit];
    (* r'\w+\s+\d{1,2},?\s+\d{2,4}' *)
    seqs [plus word; plus space; range 1 2 digit; opt (chr ",");
          plus space; range 2 4 digit];
    (* r'\d{2,4}[/-]\d{1,2}[/-]\d{1,2}' *)
    seqs [range 2 4 digit; one_of "/-"; range 1 2 digit; one_of "/-";
          range 1 2 digit];
    (* r'\d{4}-\d{2}' *)
    seqs [times 4 digit; chr "-"; times 2 digit] ].

End Pattern.

(* ================================================================== *)
(** * Python scaffolding: truthiness, [try]/[except], binary64 division *)

(** [bool(n)] for an optional integer: [None] and [0] are false. *)
Definition truthy (n : option Z) : bool :=
match n with
| Some v => negb (v =? 0)
| None => false
end.

(** What a [try] body does: it returns a value or raises. *)
Inductive outcome (A : Type) : Type :=
| Returned : A -> outcome A
| Raised : outcome A.

Arguments Returned {A} _.
Arguments Raised {A}.

(** [try: body  except Exception: return handler]. *)
Definition try_except {A : Type} (body : outcome A) (handler : A) : A :=
match body with
| Returned a => a
| Raised => handler
end.

(** Python converts between [int] and decimal text for at most
    [sys.int_max_str_digits] digits, 4300 unless the interpreter is told
    otherwise, and raises [ValueError] beyond. *)
Definition int_max_str_digits : Z := 4300.

(** [int(run)] for a run of digits: every character of the run counts,
    leading zeros included. *)
Definition int_of_str (run : string) : outcome Z :=
if Str.len run <=? int_max_str_digits then Returned (Str.int run) else Raised.

(** [str(n)]: the digits of [n] count, its sign does not. *)
Definition str_of_int (n : Z) : outcome string :=
if Str.len (Str.of_int (Z.abs n)) <=? int_max_str_digits
then Returned (Str.of_int n) else Raised.

(** Positive binary64 values, as the program meets them in
    [years = months / 12]: a value is [man * 2 ^ exp].  Python rounds the
    quotient of two integers correctly (to nearest, ties to even), and
    prints a float with [.1f] correctly rounded as well. *)
Module Float.

Record t : Type := make { man : Z; exp : Z }.

(** The integer nearest to [a / b] for [b > 0], ties to the even one. *)
Definition round_half_even (a b : Z) : Z :=
let q := a / b in
let r := a mod b in
if 2 * r <? b then q
else if b <? 2 * r then q + 1
else if Z.even q then q else q + 1.

(** [n / d] on Python integers [n >= d > 0]: the quotient rounded to 53
    significant bits, or [None] for [OverflowError] (the rounded quotient
    does not fit below [2 ^ 1024]). *)
Definition truediv (n d : Z) : option t :=
let e := Z.log2 (n / d) - 52 in
let m := if 0 <=? e then round_half_even n (d * 2 ^ e)
         else round_half_even (n * 2 ^ (- e)) d in
if (0 <=? e) && (2 ^ 1024 <=? m * 2 ^ e) then None
else Some (make m e).

(** [x == int(x)]. *)
Definition is_integral (x : t) : bool :=
(0 <=? exp x) || (man x mod 2 ^ (- exp x) =? 0).

(** [int(x)]. *)
Definition to_int (x : t) : Z :=
if 0 <=? exp x then man x * 2 ^ exp x else man x / 2 ^ (- exp x).

(** The number of tenths [f"{x:.1f}"] prints: [10 * x] rounded to the
    nearest integer, ties to even. *)
Definition tenths (x : t) : Z :=
if 0 <=? exp x then 10 * man x * 2 ^ exp x
else round_half_even (10 * man x) (2 ^ (- exp x)).

End Float.

(** [f"{t // 10}.{t % 10}"]: a number of tenths printed with one decimal. *)
Definition one_decimal (t : Z) : string :=
Str.of_int (t / 10) ++ "." ++ Str.of_int (t mod 10).

(** [f"{x:.1f}"]. *)
Definition format_1f (x : Float.t) : string := one_decimal (Float.tenths x).

(* ================================================================== *)
(** * Safe utility functions (extraction.py, lines 65-107) *)

(** [re.sub(r"\s+", " ", s)]: every maximal run of white space becomes one
    space (written when the last character of the run is read). *)
Fixpoint sub_spaces (s : string) : string :=
match s with
| "" => ""
| String c r =>
    if Char.is_space c then
      match r with
      | String d _ => if Char.is_space d then sub_spaces r
                      else String " " (sub_spaces r)
      | "" => " "
      end
    else String c (sub_spaces r)
end.

Definition CR : ascii := "013".
Definition LF : ascii := "010".

(** [safe_normalize_cell(cell)]; [None] is Python's [None]. *)
Definition safe_normalize_cell (cell : option string) : string :=
try_except
  (match cell with
   | None => Returned ""
   | Some text =>
       let s := Str.strip (Str.replace LF " " (Str.replace CR " " text)) in
       Returned (sub_spaces s)
   end)
  "".

(** [safe_extract_number(text)]: the integer of the first run of digits.
    When the run has more than 4300 digits [int] raises and the handler of
    line 82 returns [None]. *)
Definition safe_extract_number (text : string) : option Z :=
try_except
  (if Str.is_empty text then Returned None
   else
     match Str.leading_digits (Str.from_first_digit text) with
     | "" => Returned None
     | run =>
         match int_of_str run with
         | Returned n => Returned (Some n)
         | Raised => Raised
         end
     end)
  None.

(** [convert_months_to_years(months_text)].  The integers the f-strings
    print are below 12, or the whole part of a binary64 value, which has
    at most 309 digits: printing them never meets the limit of [str]. *)
Definition convert_months_to_years (months_text : string) : string :=
try_except
  (if Str.is_empty months_text then Returned ""
   else
     let months := safe_extract_number months_text in
     if negb (truthy months) then Returned months_text
     else
       match months with
       | None => Returned months_text
       | Some months =>
           if months <? 12 then Returned (Str.of_int months ++ " months")
           else
             match Float.truediv months 12 with
             | None => Raised
             | Some years =>
                 if Float.is_integral years
                 then Returned (Str.of_int (Float.to_int years) ++ " years")
                 else Returned (format_1f years ++ " years")
             end
       end)
  (if Str.is_empty months_text then "" else months_text).

(* ================================================================== *)
(** * Row classifier (extraction.py, lines 109-157) *)

Definition exclude_terms : list string :=
[ "total"; "percentage"; "built"; "area"; "laboratory"; "playground";
  "establishment"; "recognition"; "accreditation"; "department wise";
  "category wise"; "grand total"; "sub total"; "overall"; "summary" ].

(** [row[0]], [row[1]] once the length of [row] is known to allow it. *)
Definition cell (i : nat) (row : list string) : string := nth i row "".

(** [sum(1 for cell in row if str(cell).strip())]. *)
Definition non_empty_cells (row : list string) : Z :=
Z.of_nat (List.length (filter (fun c => negb (Str.is_empty (Str.strip c))) row)).

Definition is_potential_faculty_row (row : list string) : bool :=
try_except
  (if (Z.of_nat (List.length row) <? 2) then Returned false else
   let first_cell := Str.strip (cell 0 row) in
   if Str.is_empty first_cell || (Str.len first_cell >? 10) then Returned false else
   if negb (Re.search Pattern.a_digit first_cell) then Returned false else
   let serial_num := safe_extract_number first_cell in
   if negb (truthy serial_num)
      || match serial_num with
         | Some n => (n <? 1) || (n >? 9999)
         | None => true
         end
   then Returned false else
   let second_cell := Str.strip (cell 1 row) in
   if Str.is_empty second_cell || (Str.len second_cell <? 2) then Returned false else
   if negb (Re.search Pattern.two_letters second_cell)
      || (Str.len second_cell >? 100) then Returned false else
   let row_text := Str.lower (Str.join " " (firstn 5 row)) in
   if Str.contains_any exclude_terms row_text then Returned false else
   let non_empty := non_empty_cells row in
   if non_empty <? 3 then Returned false else
   Returned true)
  false.

(* ================================================================== *)
(** * Field inference (extraction.py, lines 245-446) *)

(** The keys of the [record] dict, in insertion order. *)
Inductive column : Type :=
| S_No | Name | Age | Designation | Gender | Qualification
| Experience_in_years | Currently_working | Joining_Date | Leaving_Date
| Association_type | Institution_name.

Definition FINAL_COLUMNS : list column :=
[ S_No; Name; Age; Designation; Gender; Qualification; Experience_in_years;
  Currently_working; Joining_Date; Leaving_Date; Association_type;
  Institution_name ].

Definition column_eqb (a b : column) : bool :=
match a, b with
| S_No, S_No | Name, Name | Age, Age | Designation, Designation
| Gender, Gender | Qualification, Qualification
| Experience_in_years, Experience_in_years
| Currently_working, Currently_working | Joining_Date, Joining_Date
| Leaving_Date, Leaving_Date | Association_type, Association_type
| Institution_name, Institution_name => true
| _, _ => false
end.

(** A record is a dict from the twelve columns to strings. *)
Definition record : Type := column -> string.

(** [record[c] = v]. *)
Definition assign (c : column) (v : string) (r : record) : record :=
fun c' => if column_eqb c c' then v else r c'.

(** [record.values()]. *)
Definition values (r : record) : list string := map r FINAL_COLUMNS.

(** [x in record.values()]. *)
Definition in_values (x : string) (r : record) : bool := Str.mem x (values r).

(** The keys of the [filled_fields] dict. *)
Module Filled.

Inductive key : Type :=
| Age | Gender | Designation | Qualification | Experience | Working
| JoiningDate | LeavingDate | Association.

Definition key_eqb (a b : key) : bool :=
match a, b with
| Age, Age | Gender, Gender | Designation, Designation
| Qualification, Qualification | Experience, Experience
| Working, Working | JoiningDate, JoiningDate
| LeavingDate, LeavingDate | Association, Association => true
| _, _ => false
end.

Definition flags : Type := key -> bool.

Definition none : flags := fun _ => false.

(** [filled_fields[k] = True]. *)
Definition set (k : key) (f : flags) : flags :=
fun k' => if key_eqb k k' then true else f k'.

End Filled.

(** The column a flag guards. *)
Definition column_of (k : Filled.key) : column :=
match k with
| Filled.Age => Age
| Filled.Gender => Gender
| Filled.Designation => Designation
| Filled.Qualification => Qualification
| Filled.Experience => Experience_in_years
| Filled.Working => Currently_working
| Filled.JoiningDate => Joining_Date
| Filled.LeavingDate => Leaving_Date
| Filled.Association => Association_type
end.

(** The local state of [create_enhanced_record_with_years]: the record
    under construction and the flags; [writes] is a ghost log of the
    assignments [record[c] = v] made after the initial dict literal, most
    recent first. *)
Record state : Type := mk_state {
  record_of : record;
  filled_fields : Filled.flags;
  writes : list (column * string)
}.

(** [record[column_of k] = v; filled_fields[k] = True; continue]. *)
Definition fill (k : Filled.key) (v : string) (st : state) : state :=
{| record_of := assign (column_of k) v (record_of st);
   filled_fields := Filled.set k (filled_fields st);
   writes := (column_of k, v) :: writes st |}.

(** [record[c] = v] in the fallback passes, which leave the flags alone. *)
Definition store (c : column) (v : string) (st : state) : state :=
{| record_of := assign c v (record_of st);
   filled_fields := filled_fields st;
   writes := (c, v) :: writes st |}.

Definition designation_keywords : list string :=
[ "professor"; "lecturer"; "assistant"; "associate"; "principal"; "hod";
  "dean"; "director"; "registrar"; "instructor"; "demonstrator"; "tutor";
  "fellow"; "coordinator"; "librarian" ].

Definition experience_indicators : list string :=
[ "month"; "year"; "experience"; "exp"; "service"; "teaching"; "working";
  "employed"; "tenure"; "duration"; "period"; "months"; "years"; "yrs" ].

Definition working_patterns : list string :=
[ "yes"; "no"; "working"; "current"; "permanent"; "temporary";
  "continuing"; "resigned"; "retired"; "active"; "inactive" ].

Definition qual_keywords : list string :=
[ "phd"; "ph.d"; "doctorate"; "mtech"; "m.tech"; "btech"; "b.tech"; "msc";
  "m.sc"; "bsc"; "b.sc"; "mba"; "mca"; "diploma"; "degree"; "engineering";
  "medicine"; "commerce"; "arts"; "science"; "b.e"; "m.e"; "master";
  "bachelor"; "pg"; "ug" ].

(** The text of the leftmost match of [\d+\.\d+] in [s]: at a digit, the
    whole run of digits, a dot and the whole run of digits behind it. *)
Fixpoint first_decimal (s : string) : option string :=
match s with
| "" => None
| String c r =>
    if Char.is_digit c then
      match Str.after_digits s with
      | String "." rest =>
          match Str.leading_digits rest with
          | "" => first_decimal r
          | frac => Some (Str.leading_digits s ++ "." ++ frac)
          end
      | _ => first_decimal r
      end
    else first_decimal r
end.

(** [18 <= n <= 80] and [1 <= n <= 600]. *)
Definition in_age_band (n : Z) : bool := (18 <=? n) && (n <=? 80).
Definition in_months_band (n : Z) : bool := (1 <=? n) && (n <=? 600).

(** [cell_value.lower() in ['nan', 'none', '']] / [... in ['nan', 'none']]. *)
Definition is_nan_none (cell_value : string) : bool :=
Str.mem (Str.lower cell_value) ["nan"; "none"].

Section FieldInference.

(** Python's [float] is not embedded.  For the text [t] of a match of
    [\d+\.\d+], [float_in_range t] stands for [0.1 <= float(t) <= 50] and
    [float_str t] for [str(float(t))], the way the f-string prints it. *)
Variable float_in_range : string -> bool.
Variable float_str : string -> string.

(** One detection block of the scan: [Some st'] when the block assigns and
    [continue]s, [None] when control falls through to the next block. *)
Definition rule : Type := state -> option state.

(** Age detection (lines 280-285); [str(age)] prints a number between 18
    and 80. *)
Definition rule_age (cell_value : string) : rule := fun st =>
if negb (filled_fields st Filled.Age) then
  let age := safe_extract_number cell_value in
  match age with
  | Some a =>
      if truthy age && in_age_band a && (Str.len cell_value <=? 3)
      then Some (fill Filled.Age (Str.of_int a) st)
      else None
  | None => None
  end
else None.

(** Gender detection (lines 288-294). *)
Definition rule_gender (cell_value cell_lower : string) : rule := fun st =>
if negb (filled_fields st Filled.Gender) then
  if Str.mem cell_lower ["m"; "f"; "male"; "female"; "man"; "woman"]
     || Str.mem (Str.upper cell_value) ["M"; "F"]
     || Re.match_to_end Pattern.m_or_f cell_lower
  then Some (fill Filled.Gender
               (if Str.mem (Str.upper cell_value) ["M"; "F"]
                then Str.upper cell_value else cell_value) st)
  else None
else None.

(** Designation detection (lines 297-306). *)
Definition rule_designation (cell_value cell_lower : string) : rule := fun st =>
if negb (filled_fields st Filled.Designation) then
  if Str.contains_any designation_keywords cell_lower
  then Some (fill Filled.Designation cell_value st)
  else None
else None.

(** Experience detection, pattern 2 (lines 326-336): the body of the
    [elif has_number] branch. *)
Definition experience_pure_number (cell_value : string) : rule := fun st =>
let number := safe_extract_number cell_value in
match number with
| Some n =>
    if truthy number && negb (in_age_band n) && in_months_band n
    then Some (fill Filled.Experience (convert_months_to_years cell_value) st)
    else None
| None => None
end.

(** Experience detection, pattern 3 (lines 339-345). *)
Definition experience_decimal (cell_value : string) : rule := fun st =>
match first_decimal cell_value with
| Some text =>
    if float_in_range text
    then Some (fill Filled.Experience (float_str text ++ " years") st)
    else None
| None => None
end.

(** Experience detection (lines 309-345). *)
Definition rule_experience (cell_value cell_lower : string) : rule := fun st =>
if negb (filled_fields st Filled.Experience) then
  let has_number := Re.search Pattern.digits cell_value in
  let has_experience_keyword :=
    Str.contains_any experience_indicators cell_lower in
  if has_experience_keyword && has_number
  then Some (fill Filled.Experience (convert_months_to_years cell_value) st)
  else
    match (if has_number then experience_pure_number cell_value st else None) with
    | Some st' => Some st'
    | None => experience_decimal cell_value st
    end
else None.

(** Working status detection (lines 348-354). *)
Definition rule_working (cell_value cell_lower : string) : rule := fun st =>
if negb (filled_fields st Filled.Working) then
  if Str.contains_any working_patterns cell_lower
  then Some (fill Filled.Working cell_value st)
  else None
else None.

(** Date detection (lines 357-375). *)
Definition rule_date (cell_value : string) : rule := fun st =>
if negb (filled_fields st Filled.JoiningDate)
   || negb (filled_fields st Filled.LeavingDate) then
  let is_date :=
    List.existsb (fun p => Re.search p cell_value) Pattern.date_patterns in
  if is_date || Re.search Pattern.four_digits cell_value then
    if negb (filled_fields st Filled.JoiningDate)
    then Some (fill Filled.JoiningDate cell_value st)
    else if negb (filled_fields st Filled.LeavingDate)
    then Some (fill Filled.LeavingDate cell_value st)
    else None
  else None
else None.

(** Qualification detection (lines 378-394). *)
Definition rule_qualification (cell_value cell_lower : string) : rule := fun st =>
if negb (filled_fields st Filled.Qualification) then
  let has_qual :=
    Str.contains_any qual_keywords cell_lower
    || Re.search Pattern.degree_abbrev cell_lower
    || ((Str.len cell_value >? 2) && (Str.len cell_value <? 50)
        && Re.search Pattern.three_letters cell_value) in
  if has_qual then Some (fill Filled.Qualification cell_value st) else None
else None.

(** Association type (lines 397-404). *)
Definition rule_association (cell_value : string) : rule := fun st =>
if negb (filled_fields st Filled.Association) then
  if (Str.len cell_value >? 1) && (Str.len cell_value <? 100)
     && negb (Re.match_to_end Pattern.digits cell_value)
     && (Str.len cell_value >? 2)
  then
    if negb (in_values cell_value (record_of st))
    then Some (fill Filled.Association cell_value st)
    else None
  else None
else None.

(** The blocks in source order; the first that assigns ends the iteration. *)
Fixpoint first_match (rules : list rule) (st : state) : state :=
match rules with
| [] => st
| r :: rest =>
    match r st with
    | Some st' => st'
    | None => first_match rest st
    end
end.

Definition rules (cell_value cell_lower : string) : list rule :=
[ rule_age cell_value;
  rule_gender cell_value cell_lower;
  rule_designation cell_value cell_lower;
  rule_experience cell_value cell_lower;
  rule_working cell_value cell_lower;
  rule_date cell_value;
  rule_qualification cell_value cell_lower;
  rule_association cell_value ].

(** One iteration of [for i in range(2, max_cols)] on the cell [row[i]]. *)
Definition scan_cell (st : state) (raw : string) : state :=
let cell_value := Str.strip raw in
if Str.is_empty cell_value || Str.mem (Str.lower cell_value) ["nan"; "none"; ""]
then st
else first_match (rules cell_value (Str.lower cell_value)) st.

(** The whole scan (lines 272-404). *)
Definition scan (cells : list string) (st : state) : state :=
fold_left scan_cell cells st.

(** [remaining_cells] (lines 407-412). *)
Definition remaining_cells_of (cells : list string) (r : record) : list string :=
filter
  (fun cell_value =>
     negb (Str.is_empty cell_value)
     && negb (in_values cell_value r)
     && (Str.len cell_value >? 1)
     && negb (is_nan_none cell_value))
  (map Str.strip cells).

(** [l.remove(x)]: drop the first element equal to [x]. *)
Fixpoint remove_first (x : string) (l : list string) : list string :=
match l with
| [] => []
| y :: r => if String.eqb y x then r else y :: remove_first x r
end.

(** The test of the experience fallback loop (lines 417-421). *)
Definition experience_candidate (c : string) : bool :=
Re.search Pattern.digits c
&& (let number := safe_extract_number c in
    match number with
    | Some n => truthy number && in_months_band n && negb (in_age_band n)
    | None => false
    end).

(** A fallback pass: when the column is still empty and cells remain, the
    first remaining cell that passes [test] is stored (through [render])
    and, when [consume] is set, removed from the remaining cells. *)
Definition fallback (c : column) (test : string -> bool)
    (render : string -> string) (consume : bool)
    (p : state * list string) : state * list string :=
let (st, remaining_cells) := p in
if Str.is_empty (record_of st c) && negb (Nat.eqb (List.length remaining_cells) 0)
then
  match find test remaining_cells with
  | Some x =>
      (store c (render x) st,
       if consume then remove_first x remaining_cells else remaining_cells)
  | None => p
  end
else p.

(** The three fallback passes (lines 415-440). *)
Definition fallbacks (cells : list string) (st : state) : state :=
let remaining_cells := remaining_cells_of cells (record_of st) in
let p := (st, remaining_cells) in
let p := fallback Experience_in_years experience_candidate
           convert_months_to_years true p in
let p := fallback Qualification
           (fun c => (Str.len c >? 2) && (Str.len c <? 100))
           (fun c => c) true p in
let p := fallback Association_type (fun c => Str.len c >? 1)
           (fun c => c) false p in
fst p.

(** The dict literal of lines 248-261, once [str(serial_num)] has
    returned the numeral of [serial_num]. *)
Definition initial_record (row : list string) (institution_name : string)
    (serial_num : Z) : record :=
fun c =>
  match c with
  | S_No => Str.of_int serial_num
  | Name => if (Z.of_nat (List.length row) >? 1) then Str.strip (cell 1 row) else ""
  | Institution_name => institution_name
  | _ => ""
  end.

Definition initial_state (row : list string) (institution_name : string)
    (serial_num : Z) : state :=
{| record_of := initial_record row institution_name serial_num;
   filled_fields := Filled.none;
   writes := [] |}.

(** The state when control reaches line 443: scan, then fallbacks. *)
Definition infer (row : list string) (institution_name : string)
    (serial_num : Z) : state :=
let cells := skipn 2 row in
fallbacks cells (scan cells (initial_state row institution_name serial_num)).

(** The body of the [try] block.  [str(serial_num)] in the dict literal
    (line 249) is the one call that can raise: [row] is a list of strings,
    and the helpers called later handle their own exceptions. *)
Definition create_body (row : list string) (institution_name : string)
    (serial_num : Z) : outcome (option record) :=
match str_of_int serial_num with
| Raised => Raised
| Returned _ =>
    let r := record_of (infer row institution_name serial_num) in
    Returned (if Str.is_empty (r Name) then None else Some r)
end.

Definition create_enhanced_record_with_years (row : list string)
    (institution_name : string) (serial_num : Z) : option record :=
try_except (create_body row institution_name serial_num) None.

End FieldInference.

(* ================================================================== *)
(** * Collection of one document's records (extraction.py, lines 199-232) *)

(** The duplicate check of lines 224-229. *)
Definition is_duplicate (records : list record) (new : record) : bool :=
List.existsb
  (fun existing =>
     String.eqb (Str.strip (Str.lower (existing Name)))
                (Str.strip (Str.lower (new Name)))
     && String.eqb (existing S_No) (new S_No))
  records.

(** Lines 222-232: a record is appended unless it is a duplicate. *)
Definition add_record (records : list record) (new : record) : list record :=
if is_duplicate records new then records else records ++ [new].

(** The records kept out of a sequence of constructed records. *)
Definition collect (constructed : list record) : list record :=
fold_left add_record constructed [].

Section Collection.

Variable float_in_range : string -> bool.
Variable float_str : string -> string.

(** Lines 205-232 for one raw row of a table. *)
Definition process_row (institution_name : string) (records : list record)
    (raw_row : list (option string)) : list record :=
match raw_row with
| [] => records
| _ =>
    let norm_row := map safe_normalize_cell raw_row in
    if negb (is_potential_faculty_row norm_row) then records else
    let serial_num := safe_extract_number (cell 0 norm_row) in
    match serial_num with
    | Some n =>
        if negb (truthy serial_num) || (n >? 10000) then records else
        match create_enhanced_record_with_years float_in_range float_str
                norm_row institution_name n with
        | Some new => add_record records new
        | None => records
        end
    | None => records
    end
end.

(** Lines 199-232 for the tables of one page. *)
Definition process_tables (institution_name : string) (records : list record)
    (all_tables : list (list (list (option string)))) : list record :=
fold_left
  (fun records table =>
     if (Z.of_nat (List.length table) <? 2) then records
     else fold_left (process_row institution_name) table records)
  all_tables records.

End Collection.

(* ================================================================== *)
(** * One document (extraction.py, lines 162-243) *)

(** What [page.extract_tables()] returns for one table: its rows, each a
    list of cells that are text or [None]. *)
Definition raw_table : Type := list (list (option string)).

(** A page, as the two calls of [extract_tables] see it: the result of the
    default extraction and the result of the strict one; either call may
    raise. *)
Definition page : Type := (outcome (list raw_table) * outcome (list raw_table))%type.

Section Document.

Variable float_in_range : string -> bool.
Variable float_str : string -> string.

(** Lines 176-236 for one page.  When the default extraction raises, the
    page is skipped (line 234); when the strict one raises, its tables are
    left out (line 193). *)
Definition process_page (institution_name : string) (records : list record)
    (p : page) : list record :=
match fst p with
| Raised => records
| Returned tables =>
    let all_tables :=
      (tables ++ match snd p with
                 | Returned tables2 => tables2
                 | Raised => []
                 end)%list in
    match all_tables with
    | [] => records
    | _ => process_tables float_in_range float_str institution_name records
             all_tables
    end
end.

(** [extract_from_single_pdf(pdf_path)], with [institution_name] for
    [pdf_path.stem] and [pdf] for the pages [pdfplumber.open] gives, or
    [Raised] when the document cannot be opened. *)
Definition extract_from_single_pdf (institution_name : string)
    (pdf : outcome (list page)) : list record * string :=
(match pdf with
 | Returned pages => fold_left (process_page institution_name) pages []
 | Raised => []
 end,
 institution_name).

End Document.

(* ================================================================== *)
(** * The name of the workbook (extraction.py, lines 471-472) *)

(** The characters of the class of line 471: the angle brackets, the
    colon, the double quote (code 34), the slash, the backslash (code 92),
    the bar, the question mark and the asterisk. *)
Definition reserved_characters : list ascii :=
[ "<"; ">"; ":"; "034"; "/"; "092"; "|"; "?"; "*" ]%char.

Definition is_reserved (c : ascii) : bool :=
List.existsb (Ascii.eqb c) reserved_characters.

(** [re.sub(class, '_', institution_name)]: every reserved character
    becomes an underscore. *)
Definition safe_filename (institution_name : string) : string :=
Str.map (fun c => if is_reserved c then "_"%char else c) institution_name.

(** [f"{safe_filename}_Faculty_Data.xlsx"]. *)
Definition excel_filename (institution_name : string) : string :=
safe_filename institution_name ++ "_Faculty_Data.xlsx".


(* ================================================================== *)
(** * Per-institution table (extraction.py, lines 451-482) *)

(** [df.drop_duplicates(subset=["Name"], keep="first")]: a row is kept
    when no earlier row holds the same [Name] string. *)
Fixpoint drop_duplicates_from (seen : list string) (rows : list record)
    : list record :=
match rows with
| [] => []
| r :: rest =>
    if Str.mem (r Name) seen then drop_duplicates_from seen rest
    else r :: drop_duplicates_from (r Name :: seen) rest
end.

Definition drop_duplicates (rows : list record) : list record :=
drop_duplicates_from [] rows.

(** [range(1, len(df) + 1)] inserted as the column "Final Serial". *)
Definition insert_final_serial (rows : list record) : list (Z * record) :=
combine (map Z.of_nat (seq 1 (List.length rows))) rows.

Section Assembler.

(** [pd.to_numeric(..., errors='coerce')] on one "S No" string: the number
    it denotes, or [None] for NaN. *)
Variable to_numeric : string -> option Q.

(** [df.sort_values(["S No Numeric"])] on the rows of the frame, each
    paired with its value in the column "S No Numeric".  The call leaves
    the choice of the sorting procedure to the library
    ([kind='quicksort'], the default): the procedure is a function of the
    frame, but it is no part of this program, so it is a parameter. *)
Variable sort_values : list (Q * record) -> list (Q * record).

(** [df.to_excel(excel_path, index=False, engine='openpyxl')]: whether
    writing the frame to the path returns or raises. *)
Variable to_excel : string -> list (Z * record) -> outcome unit.

(** [os.path.join]. *)
Variable path_join : string -> string -> string.

(** The column "S No Numeric" (line 464). *)
Definition S_No_Numeric (r : record) : Q :=
match to_numeric (r S_No) with
| Some q => q
| None => 999999%Q
end.

(** Lines 458-468: the frame [df] that is handed to [to_excel]. *)
Definition final_frame (records : list record) : list (Z * record) :=
let df := drop_duplicates records in
let df := map (fun r => (S_No_Numeric r, r)) df in
let df := sort_values df in
let df := map snd df in
insert_final_serial df.

(** The body of the [try] block (lines 457-478): the path and the number
    of rows are returned when [to_excel] has written the frame.  On a
    frame of strings the calls before [to_excel] return; [to_excel] raises
    when the workbook cannot be written. *)
Definition save_body (records : list record) (institution_name : string)
    (output_directory : string) : outcome (option (string * Z)) :=
let df := final_frame records in
let excel_path := path_join output_directory (excel_filename institution_name) in
match to_excel excel_path df with
| Raised => Raised
| Returned _ => Returned (Some (excel_path, Z.of_nat (List.length df)))
end.

(** [save_individual_college_excel(records, institution_name,
    output_directory)]: [None] for no records and when the body raises. *)
Definition save_individual_college_excel (records : list record)
    (institution_name : string) (output_directory : string)
    : option (string * Z) :=
match records with
| [] => None
| _ => try_except (save_body records institution_name output_directory) None
end.

End Assembler.

(** [pd.to_numeric] on the strings [str(serial_num)] writes into "S No":
    a run of digits denotes its integer. *)
Definition to_numeric_digits (s : string) : option Q :=
if negb (Str.is_empty s) && Str.forallb Char.is_digit s
then Some (inject_Z (Str.int s)) else None.

(* ================================================================== *)
(** * Vocabulary of the statements *)

(** No white space in front, resp. at the end. *)
Definition no_lead (s : string) : bool :=
match s with
| "" => true
| String c _ => negb (Char.is_space c)
end.

Fixpoint no_trail (s : string) : bool :=
match s with
| "" => true
| String c "" => negb (Char.is_space c)
| String _ r => no_trail r
end.

(** A character that is no white space other than the space itself. *)
Definition plain (c : ascii) : bool := negb (Char.is_space c) || Ascii.eqb c " ".

(** The shape of a normalized cell. *)
Definition normalized (s : string) : Prop :=
no_lead s = true /\ no_trail s = true /\ Str.forallb plain s = true
/\ sub_spaces s = s.

(** [t] occurs in [s]. *)
Definition occurs_in (t s : string) : Prop :=
exists pre post, s = pre ++ t ++ post.

(** [s] holds a digit. *)
Definition has_digit (s : string) : Prop :=
exists pre c post, s = pre ++ String c post /\ Char.is_digit c = true.

(** [s] holds two letters of [a-zA-Z] in a row. *)
Definition has_two_letters (s : string) : Prop :=
exists pre a b post,
  s = pre ++ String a (String b post)
  /\ Char.is_alpha a = true /\ Char.is_alpha b = true.

(** [run] is the first run of digits of [s]: no digit before it, digits
    only in it, and no digit right behind it. *)
Definition first_digit_run (s run : string) : Prop :=
exists pre post,
  s = pre ++ run ++ post
  /\ Str.forallb (fun c => negb (Char.is_digit c)) pre = true
  /\ run <> "" /\ Str.forallb Char.is_digit run = true
  /\ match post with
     | "" => True
     | String c _ => Char.is_digit c = false
     end.

(** The number of cells of [r] that are not the empty string. *)
Definition non_empty_count (r : list string) : nat :=
List.length (filter (fun c => negb (String.eqb c "")) r).

(** What the specification asks of a candidate faculty row. *)
Definition faculty_row (r : list string) : Prop :=
(2 <= List.length r)%nat
/\ (cell 0 r <> ""
    /\ (String.length (cell 0 r) <= 10)%nat
    /\ has_digit (cell 0 r)
    /\ exists run, first_digit_run (cell 0 r) run /\ 1 <= Str.int run <= 9999)
/\ (cell 1 r <> ""
    /\ (2 <= String.length (cell 1 r) <= 100)%nat
    /\ has_two_letters (cell 1 r))
/\ (forall t, In t exclude_terms ->
      ~ occurs_in t (Str.lower (Str.join " " (firstn 5 r))))
/\ (3 <= non_empty_count r)%nat.

(** A value the engine may store: neither empty nor a spelling of "nan"
    or "none". *)
Definition storable (v : string) : Prop := v <> "" /\ is_nan_none v = false.

(** The columns the engine infers: every column but "S No", "Name" and
    "Institution name". *)
Definition inferred (c : column) : Prop := exists k, c = column_of k.

(** The ghost log agrees with the record: no column is logged twice, a
    logged column holds its logged value, and an unlogged column holds
    what the initial dict [r0] gave it. *)
Record log_inv (r0 : record) (st : state) : Prop := {
  log_nodup : NoDup (map fst (writes st));
  log_holds : forall c v, In (c, v) (writes st) ->
                record_of st c = v /\ storable v /\ inferred c;
  log_rest : forall c, ~ In c (map fst (writes st)) -> record_of st c = r0 c
}.

(** During the scan a flag is set exactly when its column is logged. *)
Definition flags_inv (st : state) : Prop :=
forall k, filled_fields st k = true <-> In (column_of k) (map fst (writes st)).

(** [st'] is [st] after one guarded assignment. *)
Definition fires (st st' : state) : Prop :=
exists k v, st' = fill k v st /\ filled_fields st k = false /\ storable v.

(** [row] with every cell from index 2 on whose trimmed, lower-cased text
    is "nan" or "none" replaced by the empty cell. *)
Definition blank_nan_none (row : list string) : list string :=
firstn 2 row
++ map (fun c => if is_nan_none (Str.strip c) then "" else c) (skipn 2 row).

(** The example row of the specification and the record it expects for
    an institution name [I]. *)
Definition jane_row : list string :=
[ "3"; "Jane Smith"; "34"; "Associate Professor"; "F"; "M.Tech"; "48 months";
  "Yes"; "12/2019"; ""; "Regular" ].

Definition jane_record (I : string) : record :=
fun c =>
  match c with
  | S_No => "3"
  | Name => "Jane Smith"
  | Age => "34"
  | Designation => "Associate Professor"
  | Gender => "F"
  | Qualification => "M.Tech"
  | Experience_in_years => "4 years"
  | Currently_working => "Yes"
  | Joining_Date => "12/2019"
  | Leaving_Date => ""
  | Association_type => "Regular"
  | Institution_name => I
  end.

(** A classified row whose first data cell is shaped like a date. *)
Definition date_row : list string := ["1"; "John Doe"; "12/2019"; "Professor"].

(** The canonical experience for [n] months, as the specification words
    it: months below a year, whole years when 12 divides [n], and
    otherwise the years to one decimal place ([10 * n / 12] rounded to the
    nearest number of tenths, ties to even). *)
Definition expected_duration (n : Z) : string :=
if n <? 12 then Str.of_int n ++ " months"
else if n mod 12 =? 0 then Str.of_int (n / 12) ++ " years"
else one_decimal (Float.round_half_even (10 * n) 12) ++ " years".

(** [c * n]: the character [c] written [n] times. *)
Fixpoint replicate (n : nat) (c : ascii) : string :=
match n with
| O => ""
| S k => String c (replicate k c)
end.

(** A text of 4301 digits that reads as 5: 4300 zeros and a 5. *)
Definition padded_five : string := replicate 4300 "0" ++ "5".

(** A collected record. *)
Definition asha : record :=
fun c => match c with S_No => "1" | Name => "Asha Rao" | _ => "" end.



(** What pandas documents of [sort_values] with the default kind: the rows
    come back rearranged in ascending order of the key; nothing is said of
    rows with equal keys. *)
Definition sorts_by_key (sort_values : list (Q * record) -> list (Q * record))
    : Prop :=
forall rows,
  Permutation rows (sort_values rows)
  /\ StronglySorted (fun a b => (fst a <= fst b)%Q) (sort_values rows).

(** A sorting procedure that meets this description: each row is inserted
    behind the rows whose key is not larger. *)
Fixpoint insert_stable (r : Q * record) (sorted : list (Q * record))
    : list (Q * record) :=
match sorted with
| [] => [r]
| x :: rest =>
    if Qle_bool (fst x) (fst r) then x :: insert_stable r rest
    else r :: sorted
end.

Definition stable_sort (rows : list (Q * record)) : list (Q * record) :=
fold_left (fun acc r => insert_stable r acc) rows [].

(** A file system on which every workbook can be written, and the plain
    joining of a directory and a file name. *)
Definition always_written (path : string) (df : list (Z * record))
    : outcome unit := Returned tt.

Definition slash_join (directory name : string) : string :=
directory ++ "/" ++ name.
(* ================================================================== *)
(** * Vocabulary of the further statements *)

(** [s.split()]: the maximal runs of characters that are no white space. *)
Fixpoint split_ws (s : string) : list string :=
match s with
| "" => []
| String c r =>
    if Char.is_space c then split_ws r
    else
      match r with
      | "" => [String c ""]
      | String d _ =>
          if Char.is_space d then String c "" :: split_ws r
          else
            match split_ws r with
            | w :: ws => String c w :: ws
            | [] => [String c ""]
            end
      end
end.

(** [s] does not begin with a digit. *)
Definition no_digit_ahead (s : string) : Prop :=
match s with
| "" => True
| String c _ => Char.is_digit c = false
end.

(** The key of the duplicate check of lines 224-229. *)
Definition record_key (r : record) : string * string :=
(Str.strip (Str.lower (r Name)), r S_No).

(** What the collection loop lets through: the record of a classified
    row of the document [institution_name]. *)
Definition collected_shape (institution_name : string) (r : record) : Prop :=
r Institution_name = institution_name
/\ r Name <> ""
/\ exists n, 1 <= n <= 9999 /\ r S_No = Str.of_int n.

(** A faculty row whose designation names a laboratory. *)
Definition lab_row : list string :=
[ "7"; "Asha Rao"; "34"; "Laboratory Assistant"; "F" ].

(** A document of one page whose only table holds a heading line and the
    example row, found by both extractions. *)
Definition jane_table : raw_table :=
[ [Some "S No"; Some "Name"; Some "Age"]; map Some jane_row ].

Definition jane_pdf : outcome (list page) :=
Returned [ (Returned [jane_table], Returned [jane_table]) ].

Section Absorption.

Variable float_in_range : string -> bool.
Variable float_str : string -> string.
Variable I : string.

(** The row [raw_row] adds nothing to [records]. *)
Definition absorbed (records : list record) (raw_row : list (option string)) : Prop :=
process_row float_in_range float_str I records raw_row = records.

(** The table [t] adds nothing to [records]. *)
Definition table_absorbed (records : list record) (t : raw_table) : Prop :=
(Z.of_nat (List.length t) <? 2) = true
\/ forall raw_row, In raw_row t -> absorbed records raw_row.

End Absorption.

Section Provenance.

Variable float_in_range : string -> bool.
Variable float_str : string -> string.

(** The tests of the Qualification block (lines 380-392), of the
    Association block (lines 398-400) and of the pure-number pattern of
    the Experience block (lines 329-333), which is also the test of the
    Experience fallback (lines 418-421). *)
Definition qualification_test (cv : string) : bool :=
Str.contains_any qual_keywords (Str.lower cv)
|| Re.search Pattern.degree_abbrev (Str.lower cv)
|| ((Str.len cv >? 2) && (Str.len cv <? 50)
    && Re.search Pattern.three_letters cv).

Definition association_test (cv : string) : bool :=
(Str.len cv >? 1) && (Str.len cv <? 100)
&& negb (Re.match_to_end Pattern.digits cv) && (Str.len cv >? 2).

Definition months_like (cv : string) : Prop :=
exists n,
  safe_extract_number cv = Some n /\ n <> 0
  /\ in_age_band n = false /\ in_months_band n = true.

(** The value [v] is one the engine writes into the column [c] on account
    of the trimmed cell [cv]: the test of the detection block of [c], or
    the test of the fallback pass for [c] (lines 415-440), holds of [cv],
    and [v] is the text the block or the pass stores. *)
Definition justified (cv : string) (c : column) (v : string) : Prop :=
match c with
| Age =>
    exists n,
      safe_extract_number cv = Some n /\ 18 <= n <= 80
      /\ (String.length cv <= 3)%nat /\ v = Str.of_int n
| Gender =>
    Str.mem (Str.lower cv) ["m"; "f"; "male"; "female"; "man"; "woman"]
    || Str.mem (Str.upper cv) ["M"; "F"]
    || Re.match_to_end Pattern.m_or_f (Str.lower cv) = true
    /\ v = (if Str.mem (Str.upper cv) ["M"; "F"] then Str.upper cv else cv)
| Designation =>
    Str.contains_any designation_keywords (Str.lower cv) = true /\ v = cv
| Experience_in_years =>
    (Re.search Pattern.digits cv = true
     /\ (Str.contains_any experience_indicators (Str.lower cv) = true
         \/ months_like cv)
     /\ v = convert_months_to_years cv)
    \/ (exists t,
          first_decimal cv = Some t /\ float_in_range t = true
          /\ v = float_str t ++ " years")
| Currently_working =>
    Str.contains_any working_patterns (Str.lower cv) = true /\ v = cv
| Joining_Date | Leaving_Date =>
    List.existsb (fun p => Re.search p cv) Pattern.date_patterns
    || Re.search Pattern.four_digits cv = true
    /\ v = cv
| Qualification =>
    (qualification_test cv = true
     \/ (Str.len cv >? 2) && (Str.len cv <? 100) = true)
    /\ v = cv
| Association_type =>
    (association_test cv = true \/ (Str.len cv >? 1) = true)
    /\ v = cv
| S_No | Name | Institution_name => False
end.

(** Some cell of [cells] justifies the value [v] of the column [c]. *)
Definition from_cells (cells : list string) (c : column) (v : string) : Prop :=
exists raw, In raw cells /\ justified (Str.strip raw) c v.

End Provenance.


(** A classified row with a lower-case gender letter and two years, and
    the record the engine builds from it. *)
Definition dated_row : list string :=
[ "4"; "Ravi Kumar"; "45"; "m"; "Professor"; "2010"; "2015" ].

Definition dated_record : record :=
record_of (infer (fun _ => false) (fun t => t) dated_row "City College" 4).

(** The record built from the example row. *)
Definition jane_built : record :=
record_of (infer (fun _ => false) (fun t => t)
             (map safe_normalize_cell (map Some jane_row)) "City College" 3).

Section RowRecords.

Variable float_in_range : string -> bool.
Variable float_str : string -> string.

(** The record a raw row stands for: the engine's record of a classified
    row, nothing for any other row. *)
Definition row_record (institution_name : string)
    (raw_row : list (option string)) : option record :=
let norm_row := map safe_normalize_cell raw_row in
if is_potential_faculty_row norm_row then
  match safe_extract_number (cell 0 norm_row) with
  | Some n =>
      create_enhanced_record_with_years float_in_range float_str norm_row
        institution_name n
  | None => None
  end
else None.

(** The rows the loops of a document visit, in the order they visit them:
    page by page, the tables of the first extraction before those of the
    second, tables of fewer than two rows left out. *)
Definition visited_rows (pages : list page) : list (list (option string)) :=
flat_map
  (fun p : page =>
     match fst p with
     | Raised => []
     | Returned tables =>
         flat_map
           (fun t : raw_table => if Z.of_nat (List.length t) <? 2 then [] else t)
           (tables ++ match snd p with
                      | Returned tables2 => tables2
                      | Raised => []
                      end)
     end)
  pages.

(** The records of the visited rows, in order. *)
Definition constructed (institution_name : string) (pages : list page)
    : list record :=
flat_map
  (fun raw_row =>
     match row_record institution_name raw_row with
     | Some r => [r]
     | None => []
     end)
  (visited_rows pages).

End RowRecords.

(** The serial number a record carries in "S No". *)
Definition serial_of (r : record) : Z :=
match safe_extract_number (r S_No) with
| Some n => n
| None => 0
end.

(** The test of the Age block on a trimmed cell, and the text it stores. *)
Definition age_like (cv : string) : bool :=
match safe_extract_number cv with
| Some a => in_age_band a && (Str.len cv <=? 3)
| None => false
end.

Definition age_text (cv : string) : string :=
match safe_extract_number cv with
| Some a => Str.of_int a
| None => ""
end.

(** The test of the Gender block on a trimmed cell, and the text it
    stores. *)
Definition gender_like (cv : string) : bool :=
Str.mem (Str.lower cv) ["m"; "f"; "male"; "female"; "man"; "woman"]
|| Str.mem (Str.upper cv) ["M"; "F"]
|| Re.match_to_end Pattern.m_or_f (Str.lower cv).

Definition gender_text (cv : string) : string :=
if Str.mem (Str.upper cv) ["M"; "F"] then Str.upper cv else cv.

(** The first cell of [row], from index 2 on, whose trimmed text passes
    [test]. *)
Definition first_cell (test : string -> bool) (row : list string)
    : option string :=
find test (map Str.strip (skipn 2 row)).

(** The test of the Designation block on a trimmed cell. *)
Definition designation_like (cv : string) : bool :=
Str.contains_any designation_keywords (Str.lower cv).

(** No "Association type" logged in [st] is the serial text, the name or
    the institution name of the dict literal [r0]. *)
Definition association_new (r0 : record) (st : state) : Prop :=
forall v, In (Association_type, v) (writes st) ->
  v <> r0 S_No /\ v <> r0 Name /\ v <> r0 Institution_name.

(** A row in which a designation stands before the name of a department
    that reads like one. *)
Definition designation_row : list string :=
[ "9"; "Meera Nair"; "Associate Professor"; "Dean of Studies"; "F" ].

Definition designation_record : record :=
record_of (infer (fun _ => false) (fun t => t) designation_row "City College" 9).


(* ================================================================== *)
(** * Facts about characters and strings *)

Lemma space_is_space : Char.is_space " " = true.
Proof. reflexivity. Qed.

Lemma append_nil_r (s : string) : s ++ "" = s.
Proof. induction s as [|c s IH]; simpl; [reflexivity | now rewrite IH]. Qed.

Lemma append_assoc (s t u : string) : (s ++ t) ++ u = s ++ (t ++ u).
Proof. induction s as [|c s IH]; simpl; [reflexivity | now rewrite IH]. Qed.

Lemma append_eq_nil (s t : string) : s ++ t = "" -> s = "" /\ t = "".
Proof. destruct s; simpl; [auto | discriminate]. Qed.

Lemma is_empty_true (s : string) : Str.is_empty s = true <-> s = "".
Proof. destruct s; simpl; split; congruence. Qed.

Lemma is_empty_false (s : string) : Str.is_empty s = false <-> s <> "".
Proof. destruct s; simpl; split; congruence. Qed.

(** ** Stripping *)


Lemma lstrip_fixed (s : string) : no_lead s = true -> Str.lstrip s = s.
Proof.
  destruct s as [|c r]; simpl; [reflexivity|].
  now destruct (Char.is_space c).
Qed.

Lemma no_lead_lstrip (s : string) : no_lead (Str.lstrip s) = true.
Proof.
  induction s as [|c r IH]; simpl; [reflexivity|].
  destruct (Char.is_space c) eqn:E; [assumption | simpl; now rewrite E].
Qed.

Lemma rstrip_fixed (s : string) : no_trail s = true -> Str.rstrip s = s.
Proof.
  induction s as [|c r IH]; [reflexivity|].
  intros H. cbn [Str.rstrip]. destruct r as [|d r'].
  - simpl in *. now destruct (Char.is_space c).
  - rewrite IH by exact H. reflexivity.
Qed.

Lemma no_trail_rstrip (s : string) : no_trail (Str.rstrip s) = true.
Proof.
  induction s as [|c r IH]; [reflexivity|].
  cbn [Str.rstrip]. destruct (Str.rstrip r) as [|d r'] eqn:E.
  - destruct (Char.is_space c) eqn:Ec; simpl; [reflexivity | now rewrite Ec].
  - exact IH.
Qed.

Lemma no_lead_rstrip (s : string) : no_lead s = true -> no_lead (Str.rstrip s) = true.
Proof.
  destruct s as [|c r]; [reflexivity|].
  cbn [Str.rstrip no_lead]. intros H. apply negb_true_iff in H.
  destruct (Str.rstrip r); [rewrite H|]; cbn [no_lead]; now rewrite H.
Qed.

Lemma no_lead_strip (s : string) : no_lead (Str.strip s) = true.
Proof. apply no_lead_rstrip, no_lead_lstrip. Qed.

Lemma no_trail_strip (s : string) : no_trail (Str.strip s) = true.
Proof. apply no_trail_rstrip. Qed.

Lemma strip_fixed (s : string) :
  no_lead s = true -> no_trail s = true -> Str.strip s = s.
Proof.
  intros Hl Ht. unfold Str.strip. rewrite (lstrip_fixed s Hl). now apply rstrip_fixed.
Qed.

Lemma strip_strip (s : string) : Str.strip (Str.strip s) = Str.strip s.
Proof. apply strip_fixed; [apply no_lead_strip | apply no_trail_strip]. Qed.

(** ** Collapsing white space *)

Lemma sub_spaces_cons_other (c : ascii) (r : string) :
  Char.is_space c = false -> sub_spaces (String c r) = String c (sub_spaces r).
Proof. intros H. simpl. now rewrite H. Qed.

Lemma sub_spaces_nonempty (s : string) : s <> "" -> sub_spaces s <> "".
Proof.
  induction s as [|c r IH]; [congruence|]. intros _.
  cbn [sub_spaces]. destruct (Char.is_space c); [|discriminate].
  destruct r as [|d r']; [discriminate|].
  destruct (Char.is_space d); [apply IH |]; discriminate.
Qed.

Lemma sub_spaces_idem (s : string) : sub_spaces (sub_spaces s) = sub_spaces s.
Proof.
  induction s as [|c r IH]; [reflexivity|].
  cbn [sub_spaces]. destruct (Char.is_space c) eqn:Ec.
  - destruct r as [|d r']; [reflexivity|].
    destruct (Char.is_space d) eqn:Ed; [exact IH|].
    rewrite (sub_spaces_cons_other d r' Ed) in *.
    cbn [sub_spaces]. rewrite space_is_space, Ed.
    rewrite (sub_spaces_cons_other d _ Ed) in IH. now rewrite IH.
  - rewrite (sub_spaces_cons_other c _ Ec). now rewrite IH.
Qed.


Lemma sub_spaces_plain (s : string) : Str.forallb plain (sub_spaces s) = true.
Proof.
  induction s as [|c r IH]; [reflexivity|].
  cbn [sub_spaces]. destruct (Char.is_space c) eqn:Ec.
  - destruct r as [|d r']; [reflexivity|].
    destruct (Char.is_space d); [exact IH|].
    cbn [Str.forallb]. rewrite IH. reflexivity.
  - cbn [Str.forallb]. rewrite IH. unfold plain. now rewrite Ec.
Qed.

Lemma replace_plain (a : ascii) (s : string) :
  Char.is_space a = true -> a <> " "%char ->
  Str.forallb plain s = true -> Str.replace a " " s = s.
Proof.
  intros Ha Hne. induction s as [|c r IH]; [reflexivity|].
  cbn [Str.forallb]. intros H. apply andb_true_iff in H as [Hc Hr].
  unfold Str.replace in *. cbn [Str.map]. rewrite (IH Hr). f_equal.
  destruct (Ascii.eqb_spec c a) as [->|]; [|reflexivity].
  unfold plain in Hc. rewrite Ha in Hc. simpl in Hc.
  apply Ascii.eqb_eq in Hc. contradiction.
Qed.

Lemma no_lead_sub_spaces (s : string) :
  no_lead s = true -> no_lead (sub_spaces s) = true.
Proof.
  destruct s as [|c r]; [reflexivity|]. cbn [no_lead]. intros H.
  apply negb_true_iff in H. rewrite (sub_spaces_cons_other c r H).
  cbn [no_lead]. now rewrite H.
Qed.

Lemma no_trail_cons (c : ascii) (r : string) :
  r <> "" -> no_trail (String c r) = no_trail r.
Proof. destruct r; [congruence | reflexivity]. Qed.

Lemma no_trail_sub_spaces (s : string) :
  no_trail s = true -> no_trail (sub_spaces s) = true.
Proof.
  induction s as [|c r IH]; [reflexivity|].
  destruct r as [|d r'].
  - cbn. intros H. apply negb_true_iff in H. rewrite H. cbn. now rewrite H.
  - rewrite no_trail_cons by discriminate. intros H. specialize (IH H).
    assert (Hne : sub_spaces (String d r') <> "") by (apply sub_spaces_nonempty; discriminate).
    cbn [sub_spaces] in *. destruct (Char.is_space c).
    + destruct (Char.is_space d); [exact IH|].
      rewrite no_trail_cons; assumption.
    + rewrite no_trail_cons; assumption.
Qed.


Lemma safe_normalize_cell_normalized (x : option string) :
  normalized (safe_normalize_cell x).
Proof.
  destruct x as [text|]; [|repeat split; reflexivity].
  cbn [safe_normalize_cell try_except]. repeat split.
  - apply no_lead_sub_spaces, no_lead_strip.
  - apply no_trail_sub_spaces, no_trail_strip.
  - apply sub_spaces_plain.
  - apply sub_spaces_idem.
Qed.

Lemma normalized_fixed (s : string) :
  normalized s -> safe_normalize_cell (Some s) = s.
Proof.
  intros (Hl & Ht & Hp & Hs). cbn [safe_normalize_cell try_except].
  rewrite (replace_plain CR); [|reflexivity|discriminate|assumption].
  rewrite (replace_plain LF); [|reflexivity|discriminate|assumption].
  rewrite strip_fixed by assumption. exact Hs.
Qed.

Lemma normalized_strip (s : string) : normalized s -> Str.strip s = s.
Proof. intros (Hl & Ht & _). now apply strip_fixed. Qed.

(** C7. The cell normalizer is idempotent: normalizing a normalized cell
    (also the one obtained from [None]) gives it back. *)
Theorem safe_normalize_cell_idempotent (x : option string) :
  safe_normalize_cell (Some (safe_normalize_cell x)) = safe_normalize_cell x.
Proof. apply normalized_fixed, safe_normalize_cell_normalized. Qed.

(* ================================================================== *)
(** * Facts about patterns: matching by derivatives decides the words *)

Section RegexFacts.
Import Re.

Lemma lang_void_inv (s : string) : ~ lang Void s.
Proof. intros H. inversion H. Qed.

Lemma lang_eps_inv (s : string) : lang Eps s -> s = "".
Proof. intros H. now inversion H. Qed.

Lemma lang_cls_inv (p : ascii -> bool) (s : string) :
  lang (Cls p) s -> exists c, s = String c "" /\ p c = true.
Proof. intros H. inversion H; subst. eauto. Qed.

Lemma lang_seq_inv (a b : regex) (s : string) :
  lang (Seq a b) s -> exists s1 s2, s = s1 ++ s2 /\ lang a s1 /\ lang b s2.
Proof. intros H. inversion H; subst. eauto. Qed.

Lemma lang_alt_inv (a b : regex) (s : string) :
  lang (Alt a b) s -> lang a s \/ lang b s.
Proof. intros H. inversion H; subst; auto. Qed.

Lemma lang_star_cons_inv (a : regex) (c : ascii) (s : string) :
  lang (Star a) (String c s) ->
  exists s1 s2, s = s1 ++ s2 /\ lang a (String c s1) /\ lang (Star a) s2.
Proof.
  intros H. remember (Star a) as r eqn:Er. remember (String c s) as w eqn:Ew.
  revert c s Ew. induction H; intros c0 s0 Ew; try discriminate.
  injection Er as ->. destruct s as [|d s'].
  - simpl in Ew. apply IHlang2; [reflexivity | exact Ew].
  - simpl in Ew. injection Ew as Hd Hs. subst d s0. exists s', t. auto.
Qed.

Lemma nullable_lang (r : regex) : nullable r = true <-> lang r "".
Proof.
  induction r as [| |p|a IHa b IHb|a IHa b IHb|a IHa]; simpl.
  - split; [discriminate | intros H; inversion H].
  - split; [constructor | reflexivity].
  - split; [discriminate | intros H; inversion H].
  - rewrite andb_true_iff, IHa, IHb. split.
    + intros [Ha Hb]. change "" with ("" ++ ""). now constructor.
    + intros H. apply lang_seq_inv in H as (s1 & s2 & E & Ha & Hb).
      symmetry in E. apply append_eq_nil in E as [-> ->]. auto.
  - rewrite orb_true_iff, IHa, IHb. split.
    + intros [H|H]; [now apply L_alt_l | now apply L_alt_r].
    + apply lang_alt_inv.
  - split; [constructor | reflexivity].
Qed.

Lemma seq_lang (a b : regex) (s : string) : lang (seq a b) s <-> lang (Seq a b) s.
Proof.
  split.
  - destruct a, b; simpl; intros H; try exact H;
      try (exfalso; exact (lang_void_inv _ H));
      try (change s with ("" ++ s); constructor; [constructor | exact H]);
      try (rewrite <- (append_nil_r s); constructor; [exact H | constructor]).
  - intros H. apply lang_seq_inv in H as (s1 & s2 & -> & Ha & Hb).
    destruct a, b; simpl; try (now constructor);
      try (exfalso; first [exact (lang_void_inv _ Ha) | exact (lang_void_inv _ Hb)]);
      try (apply lang_eps_inv in Ha; subst; exact Hb);
      try (apply lang_eps_inv in Hb; subst; rewrite append_nil_r; exact Ha).
Qed.

Lemma alt_lang (a b : regex) (s : string) : lang (alt a b) s <-> lang (Alt a b) s.
Proof.
  split.
  - destruct a, b; simpl; intros H; try exact H;
      try (now apply L_alt_l); try (now apply L_alt_r).
  - intros H. apply lang_alt_inv in H as [H|H];
      destruct a, b; simpl; try (now apply L_alt_l); try (now apply L_alt_r);
      try exact H; try (exfalso; exact (lang_void_inv _ H)).
Qed.

Lemma deriv_lang (c : ascii) (r : regex) (s : string) :
  lang (deriv c r) s <-> lang r (String c s).
Proof.
  revert s. induction r as [| |p|a IHa b IHb|a IHa b IHb|a IHa]; intros s; simpl.
  - split; intros H; inversion H.
  - split; intros H; inversion H.
  - split.
    + destruct (p c) eqn:E; intros H; [|inversion H].
      apply lang_eps_inv in H. subst. now constructor.
    + intros H. apply lang_cls_inv in H as (c' & E & Hp).
      injection E as -> ->. rewrite Hp. constructor.
  - assert (L : lang (seq (deriv c a) b) s ->  lang (Seq a b) (String c s)).
    { intros H. apply seq_lang, lang_seq_inv in H as (s1 & s2 & -> & H1 & H2).
      apply IHa in H1. change (String c (s1 ++ s2)) with (String c s1 ++ s2).
      now constructor. }
    assert (R : forall s1 s2, String c s = s1 ++ s2 -> s1 <> "" ->
                 lang a s1 -> lang b s2 -> lang (seq (deriv c a) b) s).
    { intros s1 s2 E Hne H1 H2. destruct s1 as [|d s1']; [congruence|].
      simpl in E. injection E as -> ->. apply seq_lang. constructor; [|exact H2].
      now apply IHa. }
    destruct (nullable a) eqn:Na; split.
    + intros H. apply alt_lang, lang_alt_inv in H as [H|H]; [now apply L|].
      apply IHb in H. change (String c s) with ("" ++ String c s).
      constructor; [now apply nullable_lang | exact H].
    + intros H. apply alt_lang. apply lang_seq_inv in H as (s1 & s2 & E & H1 & H2).
      destruct s1 as [|d s1'].
      * simpl in E. subst s2. apply L_alt_r. now apply IHb.
      * apply L_alt_l. eapply R; eauto. discriminate.
    + exact L.
    + intros H. apply lang_seq_inv in H as (s1 & s2 & E & H1 & H2).
      eapply R; eauto. intros ->. apply nullable_lang in H1. congruence.
  - split.
    + intros H. apply alt_lang, lang_alt_inv in H as [H|H];
        [apply L_alt_l, IHa | apply L_alt_r, IHb]; exact H.
    + intros H. apply alt_lang. apply lang_alt_inv in H as [H|H];
        [apply L_alt_l, IHa | apply L_alt_r, IHb]; exact H.
  - split.
    + intros H. apply seq_lang, lang_seq_inv in H as (s1 & s2 & -> & H1 & H2).
      apply IHa in H1. change (String c (s1 ++ s2)) with (String c s1 ++ s2).
      now constructor.
    + intros H. apply lang_star_cons_inv in H as (s1 & s2 & -> & H1 & H2).
      apply seq_lang. constructor; [now apply IHa | exact H2].
Qed.

Lemma fullmatch_lang (r : regex) (s : string) : fullmatch r s = true <-> lang r s.
Proof.
  revert r. induction s as [|c s IH]; intros r; simpl.
  - apply nullable_lang.
  - rewrite IH. apply deriv_lang.
Qed.

Lemma lang_star_any (s : string) : lang (Star any) s.
Proof.
  induction s as [|c s IH]; [constructor|].
  change (String c s) with (String c "" ++ s). constructor; [|exact IH].
  now constructor.
Qed.

(** [re.search] finds a pattern exactly when a substring is a word of it. *)
Lemma search_lang (r : regex) (s : string) :
  search r s = true <->
  exists pre m post, s = pre ++ m ++ post /\ lang r m.
Proof.
  unfold search. rewrite fullmatch_lang. split.
  - intros H. apply lang_seq_inv in H as (pre & t & -> & _ & H).
    apply lang_seq_inv in H as (m & post & -> & H & _). eauto.
  - intros (pre & m & post & -> & H).
    constructor; [apply lang_star_any|]. constructor; [exact H | apply lang_star_any].
Qed.

Lemma lang_star_all (p : ascii -> bool) (s : string) :
  Str.forallb p s = true -> lang (Star (Cls p)) s.
Proof.
  induction s as [|c s IH]; simpl; [constructor|]. intros H.
  apply andb_true_iff in H as [H1 H2].
  change (String c s) with (String c "" ++ s).
  constructor; [now constructor | now apply IH].
Qed.

Lemma lang_star_cls_inv (p : ascii -> bool) (s : string) :
  lang (Star (Cls p)) s -> Str.forallb p s = true.
Proof.
  induction s as [|c s IH]; [reflexivity|]. intros H.
  apply lang_star_cons_inv in H as (s1 & s2 & -> & H1 & H2).
  apply lang_cls_inv in H1 as (c' & E & Hp). injection E as Hc Hs. subst c' s1.
  simpl. rewrite Hp. apply IH. exact H2.
Qed.

End RegexFacts.

(* ================================================================== *)
(** * Substrings, digit runs and the numbers read from them *)


Lemma starts_with_spec (p s : string) :
  Str.starts_with p s = true <-> exists post, s = p ++ post.
Proof.
  revert s. induction p as [|a p IH]; intros s; simpl.
  - split; [intros _; now exists s | reflexivity].
  - destruct s as [|b s].
    + split; [discriminate | intros [post E]; discriminate].
    + rewrite andb_true_iff, IH. split.
      * intros [E [post ->]]. apply Ascii.eqb_eq in E as ->. now exists post.
      * intros [post E]. injection E as -> ->. split; [apply Ascii.eqb_refl | now exists post].
Qed.

Lemma contains_spec (t s : string) :
  Str.contains t s = true <-> occurs_in t s.
Proof.
  unfold occurs_in. induction s as [|c s IH]; simpl.
  - rewrite orb_false_r, starts_with_spec. split.
    + intros [post E]. now exists "", post.
    + intros (pre & post & E). destruct pre; simpl in E; [now exists post | discriminate].
  - rewrite orb_true_iff, starts_with_spec, IH. split.
    + intros [[post E] | (pre & post & E)].
      * now exists "", post.
      * exists (String c pre), post. simpl. now rewrite E.
    + intros (pre & post & E). destruct pre as [|d pre]; simpl in E.
      * left. now exists post.
      * right. injection E as -> ->. now exists pre, post.
Qed.

Lemma contains_any_false (terms : list string) (s : string) :
  Str.contains_any terms s = false <->
  forall t, In t terms -> ~ occurs_in t s.
Proof.
  unfold Str.contains_any. induction terms as [|t0 ts IH]; simpl.
  - split; [intros _ t [] | reflexivity].
  - rewrite orb_false_iff, IH. split.
    + intros [H0 Hs] t [<-|Ht] Ho; [|now apply (Hs t)].
      apply contains_spec in Ho. congruence.
    + intros H. split; [|intros t Ht; apply H; now right].
      destruct (Str.contains t0 s) eqn:E; [|reflexivity].
      exfalso. apply (H t0); [now left | now apply contains_spec].
Qed.

Lemma search_a_digit (s : string) :
  Re.search Pattern.a_digit s = true <-> has_digit s.
Proof.
  rewrite search_lang. unfold has_digit. split.
  - intros (pre & m & post & -> & H). apply lang_cls_inv in H as (c & -> & Hc).
    now exists pre, c, post.
  - intros (pre & c & post & -> & Hc). exists pre, (String c ""), post.
    split; [reflexivity | now constructor].
Qed.

Lemma search_two_letters (s : string) :
  Re.search Pattern.two_letters s = true <-> has_two_letters s.
Proof.
  rewrite search_lang. unfold has_two_letters, Pattern.two_letters, Re.at_least.
  cbn [Re.times]. split.
  - intros (pre & m & post & -> & H).
    apply lang_seq_inv in H as (m1 & m2 & -> & H1 & _).
    apply lang_seq_inv in H1 as (x & y & -> & Hx & Hy).
    apply lang_seq_inv in Hy as (y1 & y2 & -> & Hy & He).
    apply lang_cls_inv in Hx as (a & -> & Ha).
    apply lang_cls_inv in Hy as (b & -> & Hb).
    apply lang_eps_inv in He as ->.
    exists pre, a, b, (m2 ++ post). simpl. auto.
  - intros (pre & a & b & post & -> & Ha & Hb).
    exists pre, (String a (String b "")), post. split; [reflexivity|].
    change (String a (String b "")) with ((String a "" ++ (String b "" ++ "")) ++ "").
    constructor; [|constructor].
    constructor; [now constructor|]. constructor; [now constructor | constructor].
Qed.

Lemma leading_after_digits (s : string) :
  s = Str.leading_digits s ++ Str.after_digits s.
Proof.
  induction s as [|c s IH]; simpl; [reflexivity|].
  destruct (Char.is_digit c); simpl; [now rewrite <- IH | reflexivity].
Qed.

Lemma leading_digits_all (s : string) :
  Str.forallb Char.is_digit (Str.leading_digits s) = true.
Proof.
  induction s as [|c s IH]; simpl; [reflexivity|].
  destruct (Char.is_digit c) eqn:E; simpl; [now rewrite E | reflexivity].
Qed.

Lemma after_digits_head (s : string) :
  match Str.after_digits s with
  | "" => True
  | String c _ => Char.is_digit c = false
  end.
Proof.
  induction s as [|c s IH]; simpl; [exact I|].
  destruct (Char.is_digit c) eqn:E; [exact IH | exact E].
Qed.

Lemma leading_digits_app (run post : string) :
  Str.forallb Char.is_digit run = true ->
  match post with "" => True | String c _ => Char.is_digit c = false end ->
  Str.leading_digits (run ++ post) = run.
Proof.
  intros Hr Hp. induction run as [|c run IH]; simpl in *.
  - destruct post as [|d post]; simpl; [reflexivity | now rewrite Hp].
  - apply andb_true_iff in Hr as [Hc Hr]. rewrite Hc. now rewrite IH.
Qed.

Lemma from_first_digit_app (pre rest : string) :
  Str.forallb (fun c => negb (Char.is_digit c)) pre = true ->
  Str.from_first_digit (pre ++ rest) = Str.from_first_digit rest.
Proof.
  induction pre as [|c pre IH]; simpl; [reflexivity|]. intros H.
  apply andb_true_iff in H as [Hc Hp]. apply negb_true_iff in Hc.
  rewrite Hc. now apply IH.
Qed.

Lemma from_first_digit_split (s : string) :
  exists pre,
    s = pre ++ Str.from_first_digit s
    /\ Str.forallb (fun c => negb (Char.is_digit c)) pre = true.
Proof.
  induction s as [|c s (pre & E & H)]; simpl.
  - now exists "".
  - destruct (Char.is_digit c) eqn:Ec.
    + now exists "".
    + exists (String c pre). simpl. rewrite Ec, H. split; [now rewrite <- E | reflexivity].
Qed.

(** The run of digits [safe_extract_number] reads is the first one. *)
Lemma first_run_spec (s run : string) :
  first_digit_run s run <->
  run <> "" /\ Str.leading_digits (Str.from_first_digit s) = run.
Proof.
  split.
  - intros (pre & post & -> & Hpre & Hne & Hrun & Hpost). split; [exact Hne|].
    rewrite from_first_digit_app by exact Hpre.
    destruct run as [|c run]; [congruence|].
    assert (Hc : Char.is_digit c = true) by (simpl in Hrun; now apply andb_true_iff in Hrun).
    replace (Str.from_first_digit (String c run ++ post)) with (String c run ++ post)
      by (simpl; now rewrite Hc).
    now apply leading_digits_app.
  - intros [Hne <-]. destruct (from_first_digit_split s) as (pre & E & Hpre).
    exists pre, (Str.after_digits (Str.from_first_digit s)).
    split; [|split; [exact Hpre | split; [exact Hne | split]]].
    + rewrite <- leading_after_digits. exact E.
    + apply leading_digits_all.
    + apply after_digits_head.
Qed.

Lemma length_append (s t : string) :
  String.length (s ++ t) = (String.length s + String.length t)%nat.
Proof. induction s as [|c s IH]; simpl; [reflexivity | now rewrite IH]. Qed.

Lemma int_of_str_returns (run : string) (n : Z) :
  int_of_str run = Returned n <->
  Str.len run <= int_max_str_digits /\ n = Str.int run.
Proof.
  unfold int_of_str.
  destruct (Z.leb_spec (Str.len run) int_max_str_digits) as [H | H].
  - split; [intros [= <-]; now split | intros [_ ->]; reflexivity].
  - split; [discriminate | intros [H' _]; lia].
Qed.

Lemma int_of_str_raises (run : string) :
  int_of_str run = Raised <-> int_max_str_digits < Str.len run.
Proof.
  unfold int_of_str.
  destruct (Z.leb_spec (Str.len run) int_max_str_digits) as [H | H].
  - split; [discriminate | lia].
  - split; [intros _; exact H | reflexivity].
Qed.

(** [safe_extract_number] reads the first run of digits, when the run has
    at most 4300 digits. *)
Lemma safe_extract_number_spec (s : string) (n : Z) :
  safe_extract_number s = Some n <->
  exists run,
    first_digit_run s run /\ Str.len run <= int_max_str_digits
    /\ n = Str.int run.
Proof.
  unfold safe_extract_number. split.
  - destruct (Str.is_empty s); cbn [try_except]; [discriminate|].
    destruct (Str.leading_digits (Str.from_first_digit s)) as [|c run] eqn:E;
      cbn [try_except]; [discriminate|].
    destruct (int_of_str (String c run)) as [m|] eqn:Ei;
      cbn [try_except]; [|discriminate].
    intros [= <-]. apply int_of_str_returns in Ei as [Hl ->].
    exists (String c run). split; [|now split].
    apply first_run_spec. split; [discriminate | exact E].
  - intros (run & Hrun & Hl & ->). apply first_run_spec in Hrun as [Hne E].
    destruct s as [|c s]; [simpl in E; congruence|].
    cbn [Str.is_empty]. rewrite E. destruct run as [|d run]; [congruence|].
    assert (Ei : int_of_str (String d run) = Returned (Str.int (String d run)))
      by (apply int_of_str_returns; now split).
    now rewrite Ei.
Qed.

(** A first run of more than 4300 digits gives [None]. *)
Lemma safe_extract_number_long (s run : string) :
  first_digit_run s run -> int_max_str_digits < Str.len run ->
  safe_extract_number s = None.
Proof.
  intros Hrun Hl. apply first_run_spec in Hrun as [Hne E].
  unfold safe_extract_number. destruct (Str.is_empty s); [reflexivity|].
  rewrite E. destruct run as [|d run]; [congruence|].
  apply int_of_str_raises in Hl. now rewrite Hl.
Qed.

(* ================================================================== *)
(** * The row classifier *)

Lemma guard_false (b : bool) (rest : outcome bool) :
  try_except (if b then Returned false else rest) false = true <->
  b = false /\ try_except rest false = true.
Proof. destruct b; simpl; intuition congruence. Qed.

Lemma cell_normalized (i : nat) (r : list string) :
  Forall normalized r -> normalized (cell i r).
Proof.
  intros H. unfold cell. destruct (nth_in_or_default i r "") as [Hin | ->].
  - rewrite Forall_forall in H. now apply H.
  - repeat split; reflexivity.
Qed.

Lemma non_empty_cells_normalized (r : list string) :
  Forall normalized r -> non_empty_cells r = Z.of_nat (non_empty_count r).
Proof.
  intros H. unfold non_empty_cells, non_empty_count. do 2 f_equal.
  induction H as [|c r Hc Hr IH]; [reflexivity|]. simpl.
  rewrite (normalized_strip c Hc), IH. now destruct c.
Qed.

Lemma first_digit_run_length (s run : string) :
  first_digit_run s run -> Str.len run <= Str.len s.
Proof.
  intros (pre & post & -> & _). unfold Str.len.
  rewrite !length_append. lia.
Qed.

Lemma serial_in_range (c : string) :
  Str.len c <= int_max_str_digits ->
  negb (truthy (safe_extract_number c))
  || match safe_extract_number c with
     | Some n => (n <? 1) || (n >? 9999)
     | None => true
     end = false
  <-> exists run, first_digit_run c run /\ 1 <= Str.int run <= 9999.
Proof.
  intros Hc. destruct (safe_extract_number c) as [n|] eqn:E.
  - apply safe_extract_number_spec in E as (run & Hrun & Hlen & ->).
    cbn [truthy]. split.
    + intros H. exists run. split; [exact Hrun|].
      apply orb_false_iff in H as [_ H]. apply orb_false_iff in H as [H1 H2].
      rewrite Z.gtb_ltb in H2. apply Z.ltb_ge in H1, H2. lia.
    + intros (run' & Hrun' & Hr).
      apply first_run_spec in Hrun as [_ E1]. apply first_run_spec in Hrun' as [_ E2].
      assert (Er : run' = run) by congruence. rewrite Er in Hr. clear Er E1 E2.
      apply orb_false_iff. split.
      * apply negb_false_iff, negb_true_iff, Z.eqb_neq. lia.
      * apply orb_false_iff. rewrite Z.gtb_ltb, !Z.ltb_ge. lia.
  - split; [rewrite orb_true_r; discriminate|].
    intros (run & Hrun & _).
    assert (H : safe_extract_number c = Some (Str.int run)).
    { apply safe_extract_number_spec. exists run.
      split; [exact Hrun|]. split; [|reflexivity].
      apply Z.le_trans with (Str.len c); [|exact Hc].
      now apply first_digit_run_length. }
    congruence.
Qed.

Lemma len_length (s : string) : Str.len s = Z.of_nat (String.length s).
Proof. reflexivity. Qed.

(** On rows of normalized cells the classifier accepts exactly the rows
    the specification describes. *)
Lemma classifier_on_normalized (r : list string) :
  Forall normalized r ->
  is_potential_faculty_row r = true <-> faculty_row r.
Proof.
  intros Hn. unfold is_potential_faculty_row, faculty_row. cbv zeta.
  rewrite (normalized_strip _ (cell_normalized 0 r Hn)).
  rewrite (normalized_strip _ (cell_normalized 1 r Hn)).
  rewrite (non_empty_cells_normalized r Hn).
  repeat rewrite guard_false. cbn [try_except].
  set (serial := negb (truthy (safe_extract_number (cell 0 r))) || _).
  rewrite contains_any_false.
  rewrite !orb_false_iff, !negb_false_iff, search_a_digit, search_two_letters.
  rewrite !is_empty_false, !len_length.
  rewrite Z.ltb_ge, !Z.gtb_ltb, !Z.ltb_ge.
  assert (Hs : (String.length (cell 0 r) <= 10)%nat ->
               serial = false
               <-> exists run, first_digit_run (cell 0 r) run
                               /\ 1 <= Str.int run <= 9999).
  { intros Hl. apply serial_in_range. unfold Str.len, int_max_str_digits. lia. }
  split.
  - intros (H1 & (H2 & H3) & H4 & H5 & (H6 & H7) & (H8 & H9) & H10 & H11 & _).
    apply Hs in H5; [|lia].
    repeat split; try assumption; lia.
  - intros (H1 & (H2 & H3 & H4 & H5) & (H6 & H7 & H8) & H9 & H10).
    apply Hs in H5; [|lia].
    repeat split; try assumption; lia.
Qed.

(** C2. For a row of normalized cells (the cells [safe_normalize_cell]
    produces from any raw row), [is_potential_faculty_row] returns [True]
    exactly when: the row has at least 2 cells; cell 0 is non-empty, at most
    10 characters long, holds a digit, and its first run of digits reads as
    an integer in [1, 9999]; cell 1 is non-empty, 2 to 100 characters long
    and holds two letters in a row; the lower-cased, space-joined first five
    cells hold none of the exclusion terms; and at least 3 cells are
    non-empty. *)
Theorem is_potential_faculty_row_spec (raw_row : list (option string)) :
  is_potential_faculty_row (map safe_normalize_cell raw_row) = true
  <-> faculty_row (map safe_normalize_cell raw_row).
Proof.
  apply classifier_on_normalized. apply Forall_forall. intros c Hc.
  apply in_map_iff in Hc as (x & <- & _). apply safe_normalize_cell_normalized.
Qed.

(** The examples of the specification: no digit in the first cell, and an
    exclusion term among the first cells. *)
Example is_potential_faculty_row_examples :
  is_potential_faculty_row ["ABC"; "John Doe"; "34"; "Professor"] = false
  /\ is_potential_faculty_row ["1"; "Grand Total"; ""; ""; "120"] = false
  /\ is_potential_faculty_row jane_row = true.
Proof. repeat split; vm_compute; reflexivity. Qed.

(* ================================================================== *)
(** * The field-inference engine on concrete rows *)

Lemma some_inj (A : Type) (a b : A) : Some a = Some b -> a = b.
Proof. intros H. now injection H. Qed.

Lemma mem_spec (x : string) (l : list string) : Str.mem x l = true <-> In x l.
Proof.
  unfold Str.mem. rewrite existsb_exists. split.
  - intros (y & Hy & E). apply String.eqb_eq in E. now subst.
  - intros H. exists x. split; [exact H | apply String.eqb_refl].
Qed.

Lemma in_values_spec (x : string) (r : record) :
  in_values x r = true <-> exists c, r c = x.
Proof.
  unfold in_values, values. rewrite mem_spec, in_map_iff. split.
  - intros (c & E & _). now exists c.
  - intros (c & E). exists c. split; [exact E|]. destruct c; simpl; tauto.
Qed.

Lemma in_values_false (x : string) (r : record) :
  (forall c, r c <> x) -> in_values x r = false.
Proof.
  intros H. destruct (in_values x r) eqn:E; [|reflexivity].
  apply in_values_spec in E as (c & E). now apply H in E.
Qed.

(** Finds the column of a record that holds a given string. *)
Ltac find_column :=
  first [ exists S_No; reflexivity | exists Name; reflexivity
        | exists Age; reflexivity | exists Designation; reflexivity
        | exists Gender; reflexivity | exists Qualification; reflexivity
        | exists Experience_in_years; reflexivity
        | exists Currently_working; reflexivity
        | exists Joining_Date; reflexivity | exists Leaving_Date; reflexivity
        | exists Association_type; reflexivity
        | exists Institution_name; reflexivity ].

Section InferenceExamples.

Variable float_in_range : string -> bool.
Variable float_str : string -> string.

Lemma create_returns (row : list string) (I : string) (s : Z) :
  str_of_int s = Returned (Str.of_int s) ->
  Str.is_empty (record_of (infer float_in_range float_str row I s) Name) = false ->
  create_enhanced_record_with_years float_in_range float_str row I s
  = Some (record_of (infer float_in_range float_str row I s)).
Proof.
  intros Hs H. unfold create_enhanced_record_with_years, create_body.
  rewrite Hs. cbv zeta. now rewrite H.
Qed.

(** The example row at an institution name that is none of its cells. *)
Lemma jane_infer_generic (I : string) :
  I <> "Regular" -> I <> "48 months" ->
  forall c, record_of (infer float_in_range float_str jane_row I 3) c = jane_record I c.
Proof.
  intros H1 H2. unfold infer. cbv zeta.
  change (skipn 2 jane_row) with
    (["34"; "Associate Professor"; "F"; "M.Tech"; "48 months"; "Yes"; "12/2019"; ""]
       ++ ["Regular"])%list.
  set (cells := (_ ++ _)%list).
  unfold scan. unfold cells at 2. rewrite fold_left_app.
  set (st0 := initial_state jane_row I 3).
  set (st9 := fold_left _ _ st0).
  assert (E9 : st9 =
     fill Filled.JoiningDate "12/2019" (fill Filled.Working "Yes"
       (fill Filled.Experience "4 years" (fill Filled.Qualification "M.Tech"
         (fill Filled.Gender "F" (fill Filled.Designation "Associate Professor"
           (fill Filled.Age "34" st0))))))).
  { subst st9 st0. vm_compute. reflexivity. }
  clearbody st9. cbn [fold_left].
  assert (E10 : scan_cell float_in_range float_str st9 "Regular"
                = fill Filled.Association "Regular" st9).
  { unfold scan_cell. cbv zeta.
    replace (Str.strip "Regular") with "Regular" by reflexivity.
    replace (Str.lower "Regular") with "regular" by reflexivity.
    replace (Str.is_empty "Regular" || Str.mem "regular" ["nan"; "none"; ""])
      with false by reflexivity.
    unfold rules. cbn [first_match].
    replace (rule_age "Regular" st9) with (@None state)
      by (subst st9; vm_compute; reflexivity).
    replace (rule_gender "Regular" "regular" st9) with (@None state)
      by (subst st9; vm_compute; reflexivity).
    replace (rule_designation "Regular" "regular" st9) with (@None state)
      by (subst st9; vm_compute; reflexivity).
    replace (rule_experience float_in_range float_str "Regular" "regular" st9)
      with (@None state) by (subst st9; vm_compute; reflexivity).
    replace (rule_working "Regular" "regular" st9) with (@None state)
      by (subst st9; vm_compute; reflexivity).
    replace (rule_date "Regular" st9) with (@None state)
      by (subst st9; vm_compute; reflexivity).
    replace (rule_qualification "Regular" "regular" st9) with (@None state)
      by (subst st9; vm_compute; reflexivity).
    unfold rule_association.
    rewrite (in_values_false "Regular" (record_of st9)).
    - subst st9. reflexivity.
    - subst st9 st0. intros c. destruct c; vm_compute; solve [discriminate | exact H1]. }
  rewrite E10. set (st10 := fill Filled.Association "Regular" st9).
  assert (ER : remaining_cells_of cells (record_of st10) = ["48 months"]).
  { unfold remaining_cells_of.
    replace (map Str.strip cells) with cells by reflexivity.
    transitivity (filter (String.eqb "48 months") cells); [|reflexivity].
    apply filter_ext_in. intros a Ha.
    assert (E48 : in_values "48 months" (record_of st10) = false).
    { apply in_values_false. subst st10 st9 st0.
      intros c. destruct c; vm_compute; solve [discriminate | exact H2]. }
    subst cells. simpl in Ha.
    repeat (destruct Ha as [<-|Ha]; [try reflexivity|]); try contradiction.
    all: try (rewrite E48; reflexivity).
    all: match goal with
         | |- context [in_values ?x ?r] =>
             replace (in_values x r) with true; [reflexivity|]
         end.
    all: symmetry; apply in_values_spec; subst st10 st9 st0; find_column. }
  unfold fallbacks. cbv zeta. rewrite ER.
  subst st10 st9 st0. intros c. destruct c; vm_compute; reflexivity.
Qed.

Lemma jane_infer (I : string) :
  I <> "Regular" ->
  forall c, record_of (infer float_in_range float_str jane_row I 3) c = jane_record I c.
Proof.
  intros H1. destruct (String.eqb_spec I "48 months") as [-> | H2].
  - intros c. destruct c; vm_compute; reflexivity.
  - now apply jane_infer_generic.
Qed.

(** C1 (amended). For the example row, serial number 3 and any institution
    name [I] other than "Regular", the engine returns the expected record:
    S No "3", Name "Jane Smith", Age "34", Designation "Associate
    Professor", Gender "F", Qualification "M.Tech", Experience "4 years",
    Currently working "Yes", Joining Date "12/2019", Leaving Date "",
    Association type "Regular", Institution name [I]. *)
Theorem jane_smith_record (I : string) :
  I <> "Regular" ->
  exists r,
    create_enhanced_record_with_years float_in_range float_str jane_row I 3
    = Some r
    /\ forall c, r c = jane_record I c.
Proof.
  intros H. exists (record_of (infer float_in_range float_str jane_row I 3)).
  split; [|now apply jane_infer].
  apply create_returns; [reflexivity|]. now rewrite (jane_infer I H Name).
Qed.

(** C8. A date-shaped cell met while Experience is still unfilled is taken
    by the pure-number sub-pattern: whatever else the state holds, the
    scan stores "12/2019" as Experience "1 years"; in the classified row
    [date_row] it is the cell at index 2, and the returned record has that
    Experience and empty Joining and Leaving Dates. *)
Theorem date_cell_taken_as_experience :
  (forall st,
     filled_fields st Filled.Experience = false ->
     scan_cell float_in_range float_str st "12/2019"
     = fill Filled.Experience "1 years" st)
  /\ is_potential_faculty_row date_row = true
  /\ nth 2 date_row "" = "12/2019"
  /\ exists r,
       create_enhanced_record_with_years float_in_range float_str
         date_row "City College" 1 = Some r
       /\ r Experience_in_years = "1 years"
       /\ r Joining_Date = "" /\ r Leaving_Date = "".
Proof.
  split; [|split; [reflexivity | split; [reflexivity|]]].
  - intros st H. unfold scan_cell. cbv zeta.
    replace (Str.strip "12/2019") with "12/2019" by reflexivity.
    replace (Str.lower "12/2019") with "12/2019" by reflexivity.
    replace (Str.is_empty "12/2019" || Str.mem "12/2019" ["nan"; "none"; ""])
      with false by reflexivity.
    unfold rules. cbn [first_match].
    replace (rule_age "12/2019" st) with (@None state)
      by (unfold rule_age; destruct (filled_fields st Filled.Age); reflexivity).
    replace (rule_gender "12/2019" "12/2019" st) with (@None state)
      by (unfold rule_gender; destruct (filled_fields st Filled.Gender); reflexivity).
    replace (rule_designation "12/2019" "12/2019" st) with (@None state)
      by (unfold rule_designation; destruct (filled_fields st Filled.Designation);
          reflexivity).
    unfold rule_experience. rewrite H. reflexivity.
  - exists (record_of (infer float_in_range float_str date_row "City College" 1)).
    split; [apply create_returns; vm_compute; reflexivity|].
    repeat split; vm_compute; reflexivity.
Qed.

End InferenceExamples.

(** At the institution name "Regular" the example row does not give the
    expected record: the cell "Regular" is found among the record's values
    (the institution name), so it is not stored, and the last fallback
    stores "48 months" as Association type. *)
Lemma jane_smith_at_Regular :
  (forall fr fs, exists r,
     create_enhanced_record_with_years fr fs jane_row "Regular" 3 = Some r
     /\ r Association_type = "48 months")
  /\ ~ (exists fr fs r,
         create_enhanced_record_with_years fr fs jane_row "Regular" 3 = Some r
         /\ forall c, r c = jane_record "Regular" c).
Proof.
  assert (E : forall fr fs,
            create_enhanced_record_with_years fr fs jane_row "Regular" 3
            = Some (record_of (infer fr fs jane_row "Regular" 3))).
  { intros fr fs. apply create_returns; vm_compute; reflexivity. }
  split.
  - intros fr fs. exists (record_of (infer fr fs jane_row "Regular" 3)).
    split; [apply E | vm_compute; reflexivity].
  - intros (fr & fs & r & Er & H). rewrite E in Er. apply some_inj in Er.
    subst r. specialize (H Association_type). vm_compute in H. discriminate H.
Qed.

Lemma jane_smith_record_witness :
  "City College" <> "Regular"
  /\ exists r,
       create_enhanced_record_with_years (fun _ => false) (fun t => t)
         jane_row "City College" 3 = Some r
       /\ forall c, r c = jane_record "City College" c.
Proof.
  split; [discriminate|]. apply jane_smith_record. discriminate.
Defined.

(* ================================================================== *)
(** * Values the engine stores *)

Lemma str_length_map (f : ascii -> ascii) (s : string) :
  String.length (Str.map f s) = String.length s.
Proof. induction s as [|c s IH]; simpl; [reflexivity | now rewrite IH]. Qed.

Lemma is_nan_none_length (s : string) :
  is_nan_none s = true -> (String.length s <= 4)%nat.
Proof.
  unfold is_nan_none. rewrite mem_spec. unfold Str.lower. intros H.
  rewrite <- (str_length_map Char.lower s).
  destruct H as [<-|[<-|[]]]; simpl; lia.
Qed.

Lemma is_nan_none_head (c : ascii) (s : string) :
  Char.is_digit c = true \/ c = "-"%char -> is_nan_none (String c s) = false.
Proof.
  intros H. unfold is_nan_none, Str.mem, Str.lower. cbn [Str.map existsb String.eqb].
  assert (E : Ascii.eqb (Char.lower c) "n" = false).
  { destruct H as [H | ->]; [|reflexivity].
    destruct c as [[] [] [] [] [] [] [] []]; try discriminate H; reflexivity. }
  now rewrite E.
Qed.

Lemma storable_suffix (x suffix : string) :
  (5 <= String.length suffix)%nat -> storable (x ++ suffix).
Proof.
  intros H. split.
  - intros E. apply (f_equal String.length) in E. rewrite length_append in E.
    simpl in E. lia.
  - destruct (is_nan_none (x ++ suffix)) eqn:E; [|reflexivity].
    apply is_nan_none_length in E. rewrite length_append in E. lia.
Qed.

Lemma of_uint_head (d : Decimal.uint) :
  exists c s, NilZero.string_of_uint d = String c s /\ Char.is_digit c = true.
Proof. destruct d; simpl; eauto. Qed.

Lemma of_int_head (n : Z) :
  exists c s, Str.of_int n = String c s
              /\ (Char.is_digit c = true \/ c = "-"%char).
Proof.
  unfold Str.of_int. destruct (Z.to_int n) as [d|d]; simpl.
  - destruct (of_uint_head d) as (c & s & E & H). eauto.
  - eauto.
Qed.

Lemma storable_of_int (n : Z) : storable (Str.of_int n).
Proof.
  destruct (of_int_head n) as (c & s & -> & H). split; [discriminate|].
  now apply is_nan_none_head.
Qed.

Lemma convert_cases (s : string) :
  convert_months_to_years s = s
  \/ (exists x, convert_months_to_years s = x ++ " months")
  \/ (exists x, convert_months_to_years s = x ++ " years").
Proof.
  unfold convert_months_to_years. destruct (Str.is_empty s) eqn:Es.
  - left. apply is_empty_true in Es. now subst.
  - destruct (safe_extract_number s) as [n|]; cbn [truthy negb try_except];
      [|now left].
    destruct (n =? 0); cbn [negb try_except]; [now left|].
    destruct (n <? 12); cbn [try_except]; [right; left; eauto|].
    destruct (Float.truediv n 12) as [y|]; cbn [try_except]; [|now left].
    destruct (Float.is_integral y); cbn [try_except]; right; right; eauto.
Qed.

Lemma storable_convert (s : string) :
  storable s -> storable (convert_months_to_years s).
Proof.
  intros H. destruct (convert_cases s) as [-> | [[x ->] | [x ->]]];
    [exact H | |]; apply storable_suffix; simpl; lia.
Qed.

(** A cell the scan does not skip is storable. *)
Lemma not_skipped_storable (cell_value : string) :
  Str.is_empty cell_value || Str.mem (Str.lower cell_value) ["nan"; "none"; ""]
  = false -> storable cell_value.
Proof.
  intros H. apply orb_false_iff in H as [H1 H2]. split.
  - now apply is_empty_false.
  - unfold is_nan_none, Str.mem in *. cbn [existsb] in *.
    repeat (apply orb_false_iff in H2 as [? H2]).
    repeat (apply orb_false_iff; split); assumption.
Qed.

Lemma storable_upper_MF (s : string) :
  Str.mem (Str.upper s) ["M"; "F"] = true -> storable (Str.upper s).
Proof.
  intros H. apply mem_spec in H. destruct H as [<-|[<-|[]]]; split;
    solve [discriminate | reflexivity].
Qed.

(* ================================================================== *)
(** * Every block of the scan is a guarded assignment *)

Ltac split_test H :=
  match type of H with
  | context [if ?b then _ else _] => destruct b eqn:?
  | context [match ?x with _ => _ end] => destruct x eqn:?
  end.

Ltac fired H :=
  repeat split_test H; try discriminate H;
  injection H as <-; eexists _, _; (split; [reflexivity|]).

Ltac unfilled :=
  match goal with
  | E : negb (filled_fields _ ?k) = true |- filled_fields _ ?k = false =>
      apply negb_true_iff in E; exact E
  end.

Section RuleFacts.

Variable float_in_range : string -> bool.
Variable float_str : string -> string.

Lemma rule_age_fires (cv : string) (st st' : state) :
  rule_age cv st = Some st' -> fires st st'.
Proof.
  unfold rule_age. intros H. fired H. split; [unfilled | apply storable_of_int].
Qed.

Lemma rule_gender_fires (cv cl : string) (st st' : state) :
  storable cv -> rule_gender cv cl st = Some st' -> fires st st'.
Proof.
  unfold rule_gender. intros Hcv H. fired H.
  all: split; [unfilled | first [exact Hcv | now apply storable_upper_MF]].
Qed.

Lemma rule_designation_fires (cv cl : string) (st st' : state) :
  storable cv -> rule_designation cv cl st = Some st' -> fires st st'.
Proof.
  unfold rule_designation. intros Hcv H. fired H. split; [unfilled | exact Hcv].
Qed.

Lemma experience_pure_number_fires (cv : string) (st st' : state) :
  storable cv -> filled_fields st Filled.Experience = false ->
  experience_pure_number cv st = Some st' -> fires st st'.
Proof.
  unfold experience_pure_number. cbv zeta. intros Hcv Ef H. fired H.
  split; [exact Ef | now apply storable_convert].
Qed.

Lemma experience_decimal_fires (cv : string) (st st' : state) :
  filled_fields st Filled.Experience = false ->
  experience_decimal float_in_range float_str cv st = Some st' -> fires st st'.
Proof.
  unfold experience_decimal. intros Ef H. fired H.
  split; [exact Ef | apply storable_suffix; simpl; lia].
Qed.

Lemma rule_experience_fires (cv cl : string) (st st' : state) :
  storable cv ->
  rule_experience float_in_range float_str cv cl st = Some st' -> fires st st'.
Proof.
  unfold rule_experience. cbv zeta. intros Hcv H.
  destruct (negb (filled_fields st Filled.Experience)) eqn:Ef; [|discriminate].
  apply negb_true_iff in Ef.
  destruct (Str.contains_any experience_indicators cl
            && Re.search Pattern.digits cv).
  - injection H as <-. eexists _, _. split; [reflexivity|].
    split; [exact Ef | now apply storable_convert].
  - destruct (if Re.search Pattern.digits cv
              then experience_pure_number cv st else None) as [st1|] eqn:E2.
    + injection H as <-. destruct (Re.search Pattern.digits cv); [|discriminate].
      eapply experience_pure_number_fires; eauto.
    + eapply experience_decimal_fires; eauto.
Qed.

Lemma rule_working_fires (cv cl : string) (st st' : state) :
  storable cv -> rule_working cv cl st = Some st' -> fires st st'.
Proof.
  unfold rule_working. intros Hcv H. fired H. split; [unfilled | exact Hcv].
Qed.

Lemma rule_date_fires (cv : string) (st st' : state) :
  storable cv -> rule_date cv st = Some st' -> fires st st'.
Proof.
  unfold rule_date. cbv zeta. intros Hcv H.
  destruct (negb (filled_fields st Filled.JoiningDate)
            || negb (filled_fields st Filled.LeavingDate)); [|discriminate].
  split_test H; [|discriminate].
  destruct (negb (filled_fields st Filled.JoiningDate)) eqn:Ej.
  - injection H as <-. eexists _, _. split; [reflexivity|]. split; [unfilled | exact Hcv].
  - destruct (negb (filled_fields st Filled.LeavingDate)) eqn:El; [|discriminate].
    injection H as <-. eexists _, _. split; [reflexivity|]. split; [unfilled | exact Hcv].
Qed.

Lemma rule_qualification_fires (cv cl : string) (st st' : state) :
  storable cv -> rule_qualification cv cl st = Some st' -> fires st st'.
Proof.
  unfold rule_qualification. cbv zeta. intros Hcv H. fired H.
  split; [unfilled | exact Hcv].
Qed.

Lemma rule_association_fires (cv : string) (st st' : state) :
  storable cv -> rule_association cv st = Some st' -> fires st st'.
Proof.
  unfold rule_association. intros Hcv H. fired H. split; [unfilled | exact Hcv].
Qed.

(** One iteration of the scan either leaves the state alone or makes one
    guarded assignment. *)
Lemma scan_cell_fires (st : state) (raw : string) :
  scan_cell float_in_range float_str st raw = st
  \/ fires st (scan_cell float_in_range float_str st raw).
Proof.
  unfold scan_cell. cbv zeta.
  destruct (Str.is_empty (Str.strip raw)
            || Str.mem (Str.lower (Str.strip raw)) ["nan"; "none"; ""]) eqn:Eskip;
    [now left|].
  apply not_skipped_storable in Eskip.
  set (cv := Str.strip raw) in *. set (cl := Str.lower cv).
  unfold rules. cbn [first_match].
  destruct (rule_age cv st) eqn:E1; [right; eapply rule_age_fires; eauto|].
  destruct (rule_gender cv cl st) eqn:E2; [right; eapply rule_gender_fires; eauto|].
  destruct (rule_designation cv cl st) eqn:E3;
    [right; eapply rule_designation_fires; eauto|].
  destruct (rule_experience float_in_range float_str cv cl st) eqn:E4;
    [right; eapply rule_experience_fires; eauto|].
  destruct (rule_working cv cl st) eqn:E5; [right; eapply rule_working_fires; eauto|].
  destruct (rule_date cv st) eqn:E6; [right; eapply rule_date_fires; eauto|].
  destruct (rule_qualification cv cl st) eqn:E7;
    [right; eapply rule_qualification_fires; eauto|].
  destruct (rule_association cv st) eqn:E8;
    [right; eapply rule_association_fires; eauto|].
  now left.
Qed.

End RuleFacts.
(* ================================================================== *)
(** * Numerals: numbers written as text and read back *)

Lemma digit_value_range (c : ascii) :
  Char.is_digit c = true -> 0 <= Char.digit_value c <= 9.
Proof.
  unfold Char.is_digit, Char.between, Char.digit_value. intros H.
  apply andb_true_iff in H as [H1 H2]. apply N.leb_le in H1, H2. lia.
Qed.

Lemma int_acc_nonneg (s : string) (acc : Z) :
  Str.forallb Char.is_digit s = true -> 0 <= acc -> 0 <= Str.int_acc acc s.
Proof.
  revert acc. induction s as [|c r IH]; intros acc H Ha; [exact Ha|].
  cbn [Str.forallb] in H. apply andb_true_iff in H as [Hc Hr].
  cbn [Str.int_acc]. apply IH; [exact Hr|].
  apply digit_value_range in Hc. lia.
Qed.

Lemma uint_digits (d : Decimal.uint) :
  Str.forallb Char.is_digit (NilEmpty.string_of_uint d) = true.
Proof.
  induction d; cbn [NilEmpty.string_of_uint Str.forallb];
    [reflexivity | rewrite IHd; reflexivity ..].
Qed.

Lemma int_acc_of_uint_acc (d : Decimal.uint) (acc : positive) :
  Str.int_acc (Z.pos acc) (NilEmpty.string_of_uint d)
  = Z.pos (Pos.of_uint_acc d acc).
Proof.
  revert acc.
  induction d; intros acc;
    cbn [NilEmpty.string_of_uint Str.int_acc Pos.of_uint_acc];
    [reflexivity | rewrite <- IHd; f_equal ..].
  all: match goal with
       | |- context [Char.digit_value ?c] =>
           let v := eval vm_compute in (Char.digit_value c) in
           change (Char.digit_value c) with v
       end; lia.
Qed.

Lemma int_of_uint (d : Decimal.uint) :
  Str.int (NilEmpty.string_of_uint d) = Z.of_N (Pos.of_uint d).
Proof.
  unfold Str.int.
  induction d; cbn [NilEmpty.string_of_uint Str.int_acc Pos.of_uint];
    [reflexivity | exact IHd
    | cbn [Z.of_N]; rewrite <- int_acc_of_uint_acc; reflexivity ..].
Qed.

Lemma string_of_uint_nonnil (d : Decimal.uint) :
  d <> Decimal.Nil -> NilZero.string_of_uint d = NilEmpty.string_of_uint d.
Proof. destruct d; [congruence | reflexivity ..]. Qed.

(** [str(n)] for [n >= 0] is a non-empty run of digits whose value is [n]. *)
Lemma of_int_digits (n : Z) :
  0 <= n ->
  Str.of_int n <> ""
  /\ Str.forallb Char.is_digit (Str.of_int n) = true
  /\ Str.int (Str.of_int n) = n.
Proof.
  intros Hn. destruct n as [|p|p]; [repeat split; discriminate | | lia].
  unfold Str.of_int. cbn [Z.to_int NilZero.string_of_int].
  rewrite string_of_uint_nonnil by apply Unsigned.to_uint_nonnil.
  split; [|split].
  - destruct (of_uint_head (Pos.to_uint p)) as (c & s & E & _).
    rewrite string_of_uint_nonnil in E by apply Unsigned.to_uint_nonnil.
    rewrite E. discriminate.
  - apply uint_digits.
  - rewrite int_of_uint, DecimalPos.Unsigned.of_to. reflexivity.
Qed.

(** [str(-n)] is a minus sign in front of [str(n)]. *)
Lemma of_int_neg (p : positive) :
  Str.of_int (Z.neg p) = String "-" (Str.of_int (Z.pos p)).
Proof. reflexivity. Qed.

(** Reading a run of digits behind an accumulator. *)
Lemma int_acc_shift (s : string) (acc : Z) :
  Str.int_acc acc s = acc * 10 ^ Str.len s + Str.int s.
Proof.
  unfold Str.int, Str.len. revert acc.
  induction s as [|c r IH]; intros acc; cbn [Str.int_acc String.length].
  - cbn. lia.
  - rewrite (IH (10 * acc + Char.digit_value c)).
    rewrite (IH (10 * 0 + Char.digit_value c)).
    rewrite Nat2Z.inj_succ, Z.pow_succ_r by lia. ring.
Qed.

Lemma int_below (s : string) :
  Str.forallb Char.is_digit s = true -> 0 <= Str.int s < 10 ^ Str.len s.
Proof.
  induction s as [|c r IH]; intros H.
  - unfold Str.int, Str.len. cbn. lia.
  - cbn [Str.forallb] in H. apply andb_true_iff in H as [Hc Hr].
    specialize (IH Hr). apply digit_value_range in Hc.
    unfold Str.int. cbn [Str.int_acc]. rewrite int_acc_shift.
    replace (Str.len (String c r)) with (Z.succ (Str.len r))
      by (unfold Str.len; cbn [String.length]; lia).
    rewrite Z.pow_succ_r by (unfold Str.len; lia).
    assert (Hp : 0 < 10 ^ Str.len r)
      by (apply Z.pow_pos_nonneg; unfold Str.len; lia).
    nia.
Qed.

(** A run of digits that does not start with a zero is at least a power
    of ten. *)
Lemma int_above (c : ascii) (r : string) :
  Char.is_digit c = true -> c <> "0"%char ->
  Str.forallb Char.is_digit r = true ->
  10 ^ Str.len r <= Str.int (String c r).
Proof.
  intros Hc Hz Hr. destruct (int_below r Hr) as [H0 _].
  unfold Str.int. cbn [Str.int_acc]. rewrite int_acc_shift.
  assert (Hd : 1 <= Char.digit_value c).
  { assert (H := digit_value_range c Hc).
    destruct (Z.eq_dec (Char.digit_value c) 0) as [E | E]; [|lia].
    exfalso. apply Hz. unfold Char.digit_value, Char.code in E.
    assert (En : N_of_ascii c = 48%N) by lia.
    rewrite <- (ascii_N_embedding c), En. reflexivity. }
  assert (Hp : 0 < 10 ^ Str.len r)
    by (apply Z.pow_pos_nonneg; unfold Str.len; lia).
  nia.
Qed.

(** The numeral of a positive number does not start with a zero. *)
Lemma to_uint_head (p : positive) :
  exists c s,
    NilEmpty.string_of_uint (Pos.to_uint p) = String c s /\ c <> "0"%char.
Proof.
  assert (E : Pos.to_uint p = Decimal.unorm (Pos.to_uint p)).
  { rewrite <- (DecimalPos.Unsigned.to_of (Pos.to_uint p)).
    now rewrite DecimalPos.Unsigned.of_to. }
  assert (Hz := DecimalPos.Unsigned.to_uint_nonzero p).
  assert (Hn := DecimalFacts.nzhead_nonzero (Pos.to_uint p)).
  unfold Decimal.unorm in E.
  destruct (Decimal.nzhead (Pos.to_uint p)) as [|d|d|d|d|d|d|d|d|d|d] eqn:Eh;
    try (rewrite E; cbn [NilEmpty.string_of_uint]; do 2 eexists;
         split; [reflexivity | discriminate]).
  - exfalso. apply Hz. exact E.
  - exfalso. now apply (Hn d).
Qed.

(** The number of digits of a positive number. *)
Lemma of_int_length (n : Z) :
  0 < n ->
  10 ^ (Str.len (Str.of_int n) - 1) <= n < 10 ^ Str.len (Str.of_int n).
Proof.
  intros Hn. destruct (of_int_digits n ltac:(lia)) as (_ & Hd & Hv).
  split; [|rewrite <- Hv at 1; now apply int_below].
  destruct n as [|p|p]; try lia.
  assert (Es : Str.of_int (Z.pos p) = NilEmpty.string_of_uint (Pos.to_uint p)).
  { unfold Str.of_int. cbn [Z.to_int NilZero.string_of_int].
    apply string_of_uint_nonnil, Unsigned.to_uint_nonnil. }
  destruct (to_uint_head p) as (c & s & E & Hc).
  rewrite <- Es in E. rewrite E in Hd, Hv |- *.
  cbn [Str.forallb] in Hd. apply andb_true_iff in Hd as [Hdc Hds].
  rewrite <- Hv.
  replace (Str.len (String c s) - 1) with (Str.len s)
    by (unfold Str.len; cbn [String.length]; lia).
  now apply int_above.
Qed.

(** A number below [10 ^ d] has at most [d] digits, and conversely. *)
Lemma of_int_len (n d : Z) :
  0 <= n -> 0 < d -> Str.len (Str.of_int n) <= d <-> n < 10 ^ d.
Proof.
  intros Hn Hd. destruct (Z.eq_dec n 0) as [-> | Hz].
  - change (Str.len (Str.of_int 0)) with 1. split; [intros _ | lia].
    apply Z.pow_pos_nonneg; lia.
  - destruct (of_int_length n ltac:(lia)) as [Hlo Hhi].
    assert (Hl : 0 <= Str.len (Str.of_int n)) by (unfold Str.len; lia).
    split.
    + intros H. apply Z.lt_le_trans with (10 ^ Str.len (Str.of_int n));
        [exact Hhi | apply Z.pow_le_mono_r; lia].
    + intros H.
      destruct (Z.le_gt_cases (Str.len (Str.of_int n)) d) as [Hle | Hgt];
        [exact Hle | exfalso].
      assert (10 ^ d <= 10 ^ (Str.len (Str.of_int n) - 1))
        by (apply Z.pow_le_mono_r; lia).
      lia.
Qed.

(** [str(n)] returns the numeral of [n] exactly when [n] has at most 4300
    digits. *)
Lemma str_of_int_returns (n : Z) :
  Z.abs n < 10 ^ int_max_str_digits <->
  str_of_int n = Returned (Str.of_int n).
Proof.
  unfold str_of_int.
  rewrite <- (of_int_len (Z.abs n) int_max_str_digits)
    by (unfold int_max_str_digits; lia).
  destruct (Z.leb_spec (Str.len (Str.of_int (Z.abs n))) int_max_str_digits).
  - tauto.
  - split; [lia | discriminate].
Qed.

Lemma str_of_int_raises (n : Z) :
  10 ^ int_max_str_digits <= Z.abs n <-> str_of_int n = Raised.
Proof.
  unfold str_of_int.
  assert (H := of_int_len (Z.abs n) int_max_str_digits).
  destruct (Z.leb_spec (Str.len (Str.of_int (Z.abs n))) int_max_str_digits).
  - split; [|discriminate]. intros Hge. exfalso.
    assert (Z.abs n < 10 ^ int_max_str_digits)
      by (apply H; [lia | unfold int_max_str_digits; lia | assumption]).
    lia.
  - split; [reflexivity|]. intros _.
    destruct (Z.le_gt_cases (10 ^ int_max_str_digits) (Z.abs n)) as [Hge | Hlt];
      [exact Hge | exfalso].
    assert (Str.len (Str.of_int (Z.abs n)) <= int_max_str_digits)
      by (apply H; [lia | unfold int_max_str_digits; lia | assumption]).
    lia.
Qed.


(* ================================================================== *)
(** * The ghost log: every column is assigned at most once *)

Lemma column_of_inj (k k' : Filled.key) : column_of k = column_of k' -> k = k'.
Proof. destruct k, k'; simpl; congruence. Qed.

Lemma key_eqb_eq (k k' : Filled.key) : Filled.key_eqb k k' = true <-> k = k'.
Proof. destruct k, k'; simpl; split; congruence. Qed.

Lemma column_eqb_eq (c c' : column) : column_eqb c c' = true <-> c = c'.
Proof. destruct c, c'; simpl; split; congruence. Qed.

Lemma assign_same (c : column) (v : string) (r : record) : assign c v r c = v.
Proof. unfold assign. now destruct c. Qed.

Lemma assign_other (c c' : column) (v : string) (r : record) :
  c <> c' -> assign c v r c' = r c'.
Proof.
  intros H. unfold assign. destruct (column_eqb c c') eqn:E; [|reflexivity].
  apply column_eqb_eq in E. contradiction.
Qed.

Lemma in_log (c : column) (v : string) (l : list (column * string)) :
  In (c, v) l -> In c (map fst l).
Proof. intros H. apply in_map_iff. now exists (c, v). Qed.

Lemma log_inv_assign (r0 : record) (st : state) (c : column) (v : string) :
  log_inv r0 st -> ~ In c (map fst (writes st)) -> storable v -> inferred c ->
  log_inv r0 (mk_state (assign c v (record_of st)) (filled_fields st)
                       ((c, v) :: writes st)).
Proof.
  intros [Hnd Hlog Hrest] Hc Hv Hi. split; cbn [writes record_of map fst].
  - now constructor.
  - intros c' v' [E | Hin].
    + injection E as <- <-. rewrite assign_same. auto.
    + rewrite assign_other; [now apply Hlog|].
      intros <-. apply Hc. eapply in_log; eauto.
  - intros c' Hn. simpl in Hn. rewrite assign_other; [apply Hrest|]; tauto.
Qed.

Lemma fill_inv (r0 : record) (st : state) (k : Filled.key) (v : string) :
  log_inv r0 st -> flags_inv st -> filled_fields st k = false -> storable v ->
  log_inv r0 (fill k v st) /\ flags_inv (fill k v st).
Proof.
  intros Hl Hf Hk Hv.
  assert (Hc : ~ In (column_of k) (map fst (writes st))).
  { intros H. apply Hf in H. congruence. }
  split.
  - unfold fill.
    assert (H := log_inv_assign r0 st (column_of k) v Hl Hc Hv).
    destruct Hl as [Hnd Hlog Hrest].
    destruct H as [Hnd' Hlog' Hrest']; [now exists k|].
    split; cbn [writes record_of map fst filled_fields] in *; assumption.
  - intros k'. unfold fill. cbn [filled_fields writes map fst].
    unfold Filled.set. destruct (Filled.key_eqb k k') eqn:E.
    + apply key_eqb_eq in E as ->. split; [now left | reflexivity].
    + unfold flags_inv in Hf. rewrite Hf. split; [now right|].
      intros [H|H]; [|exact H]. apply column_of_inj in H. subst k'.
      assert (Filled.key_eqb k k = true) by now apply key_eqb_eq. congruence.
Qed.

Lemma store_inv (r0 : record) (st : state) (c : column) (v : string) :
  log_inv r0 st -> inferred c -> record_of st c = "" -> storable v ->
  log_inv r0 (store c v st).
Proof.
  intros Hl Hi He Hv. unfold store. apply log_inv_assign; try assumption.
  intros Hin. apply in_map_iff in Hin as ([c' v'] & Ec & Hin). simpl in Ec. subst c'.
  destruct Hl as [_ Hlog _]. destruct (Hlog c v' Hin) as (E & [Hne _] & _).
  congruence.
Qed.

Lemma initial_inv (row : list string) (I : string) (s : Z) :
  log_inv (initial_record row I s) (initial_state row I s)
  /\ flags_inv (initial_state row I s).
Proof.
  split.
  - split; cbn; [constructor | tauto | reflexivity].
  - intros k. cbn. unfold Filled.none. split; [discriminate | tauto].
Qed.

Lemma find_in (test : string -> bool) (l : list string) (x : string) :
  find test l = Some x -> In x l.
Proof. intros H. now apply find_some in H. Qed.

Lemma remove_first_incl (x y : string) (l : list string) :
  In y (remove_first x l) -> In y l.
Proof.
  induction l as [|z l IH]; simpl; [tauto|].
  destruct (String.eqb z x); simpl; tauto.
Qed.

Section LogFacts.

Variable float_in_range : string -> bool.
Variable float_str : string -> string.

Lemma scan_inv (r0 : record) (cells : list string) (st : state) :
  log_inv r0 st -> flags_inv st ->
  log_inv r0 (scan float_in_range float_str cells st)
  /\ flags_inv (scan float_in_range float_str cells st).
Proof.
  unfold scan. revert st. induction cells as [|raw cells IH]; intros st Hl Hf;
    cbn [fold_left]; [now split|].
  destruct (scan_cell_fires float_in_range float_str st raw)
    as [-> | (k & v & -> & Hk & Hv)]; [now apply IH|].
  destruct (fill_inv r0 st k v Hl Hf Hk Hv) as [Hl' Hf']. now apply IH.
Qed.

Lemma remaining_cells_storable (cells : list string) (r : record) :
  Forall storable (remaining_cells_of cells r).
Proof.
  unfold remaining_cells_of. apply Forall_forall. intros x Hx.
  apply filter_In in Hx as [_ H].
  repeat (apply andb_true_iff in H as [H ?]).
  split; [apply is_empty_false | ]; now apply negb_true_iff.
Qed.

Lemma fallback_inv (r0 : record) (c : column) (test : string -> bool)
    (render : string -> string) (consume : bool) (p : state * list string) :
  inferred c -> (forall x, storable x -> storable (render x)) ->
  log_inv r0 (fst p) -> Forall storable (snd p) ->
  log_inv r0 (fst (fallback c test render consume p))
  /\ Forall storable (snd (fallback c test render consume p)).
Proof.
  intros Hi Hr Hl Hs. destruct p as [st rem]. unfold fallback. simpl in Hl, Hs.
  destruct (Str.is_empty (record_of st c) && negb (Nat.eqb (List.length rem) 0))
    eqn:E; [|now split].
  destruct (find test rem) as [x|] eqn:Ef; [|now split].
  apply andb_true_iff in E as [E _]. apply is_empty_true in E.
  apply find_in in Ef. rewrite Forall_forall in Hs.
  cbn [fst snd]. split.
  - apply store_inv; auto.
  - apply Forall_forall. intros y Hy. apply Hs.
    destruct consume; [eapply remove_first_incl; eauto | exact Hy].
Qed.

Lemma fallbacks_inv (r0 : record) (cells : list string) (st : state) :
  log_inv r0 st -> log_inv r0 (fallbacks cells st).
Proof.
  intros Hl. unfold fallbacks. cbv zeta.
  set (p0 := (st, remaining_cells_of cells (record_of st))).
  set (p1 := fallback Experience_in_years _ _ _ p0).
  set (p2 := fallback Qualification _ _ _ p1).
  assert (H1 : log_inv r0 (fst p1) /\ Forall storable (snd p1)).
  { apply fallback_inv;
      [now exists Filled.Experience | exact storable_convert | exact Hl
      | apply remaining_cells_storable]. }
  assert (H2 : log_inv r0 (fst p2) /\ Forall storable (snd p2)).
  { apply fallback_inv; [now exists Filled.Qualification | auto | apply H1 | apply H1]. }
  apply fallback_inv; [now exists Filled.Association | auto | apply H2 | apply H2].
Qed.

Lemma infer_inv (row : list string) (I : string) (s : Z) :
  log_inv (initial_record row I s) (infer float_in_range float_str row I s).
Proof.
  unfold infer. cbv zeta. apply fallbacks_inv.
  destruct (initial_inv row I s) as [Hl Hf]. now apply scan_inv.
Qed.

(** C4. In every run of the engine each inferred column is assigned at most
    once: an iteration of the scan assigns nothing or makes one assignment
    whose flag was not yet set; the log of the assignments made by the scan
    and by the fallback passes names no column twice; the returned record
    holds each logged value (nothing written later replaced it); and every
    other column holds what the initial dict gave it. *)
Theorem fields_assigned_at_most_once (row : list string) (I : string) (s : Z) :
  (forall st raw,
     scan_cell float_in_range float_str st raw = st
     \/ exists k v,
          scan_cell float_in_range float_str st raw = fill k v st
          /\ filled_fields st k = false)
  /\ NoDup (map fst (writes (infer float_in_range float_str row I s)))
  /\ (forall c v,
        In (c, v) (writes (infer float_in_range float_str row I s)) ->
        record_of (infer float_in_range float_str row I s) c = v)
  /\ (forall c,
        ~ In c (map fst (writes (infer float_in_range float_str row I s))) ->
        record_of (infer float_in_range float_str row I s) c
        = initial_record row I s c).
Proof.
  destruct (infer_inv row I s) as [Hnd Hlog Hrest]. split; [|split; [exact Hnd|split]].
  - intros st raw.
    destruct (scan_cell_fires float_in_range float_str st raw)
      as [E | (k & v & E & Hk & _)]; [now left | right; eauto].
  - intros c v H. now apply Hlog.
  - exact Hrest.
Qed.

End LogFacts.

(* ================================================================== *)
(** * The name is mandatory; "nan" and "none" cells are skipped *)

Lemma not_inferred (c : column) :
  c = S_No \/ c = Name \/ c = Institution_name -> ~ inferred c.
Proof. intros H [k E]. destruct k; simpl in E; intuition congruence. Qed.

Lemma initial_name (row : list string) (I : string) (s : Z) :
  initial_record row I s Name = Str.strip (cell 1 row).
Proof.
  unfold initial_record. destruct (Z.of_nat (List.length row) >? 1) eqn:E;
    [reflexivity|].
  destruct row as [|a [|b rest]]; [reflexivity | reflexivity |].
  cbn [List.length] in E. rewrite Z.gtb_ltb in E. apply Z.ltb_ge in E. lia.
Qed.

Lemma blank_skipn (row : list string) :
  skipn 2 (blank_nan_none row)
  = map (fun c => if is_nan_none (Str.strip c) then "" else c) (skipn 2 row).
Proof. unfold blank_nan_none. now destruct row as [|a [|b rest]]. Qed.

Lemma blank_initial (row : list string) (I : string) (s : Z) :
  initial_state (blank_nan_none row) I s = initial_state row I s.
Proof.
  unfold blank_nan_none. destruct row as [|a [|b rest]]; [reflexivity..|].
  unfold initial_state, initial_record. cbn [firstn skipn app List.length cell nth].
  now rewrite List.length_map.
Qed.

Lemma is_nan_none_skipped (cv : string) :
  is_nan_none cv = true ->
  Str.is_empty cv || Str.mem (Str.lower cv) ["nan"; "none"; ""] = true.
Proof.
  unfold is_nan_none, Str.mem. cbn [existsb]. intros H.
  repeat (apply orb_true_iff in H as [H|H]); rewrite ?H, ?orb_true_r;
    try reflexivity; discriminate.
Qed.

Section SkipFacts.

Variable float_in_range : string -> bool.
Variable float_str : string -> string.

Lemma scan_cell_blank (st : state) (c : string) :
  scan_cell float_in_range float_str st
    (if is_nan_none (Str.strip c) then "" else c)
  = scan_cell float_in_range float_str st c.
Proof.
  destruct (is_nan_none (Str.strip c)) eqn:E; [|reflexivity].
  unfold scan_cell. cbv zeta. now rewrite (is_nan_none_skipped _ E).
Qed.

Lemma scan_blank (cells : list string) (st : state) :
  scan float_in_range float_str
    (map (fun c => if is_nan_none (Str.strip c) then "" else c) cells) st
  = scan float_in_range float_str cells st.
Proof.
  unfold scan. revert st. induction cells as [|c cells IH]; intros st;
    [reflexivity|].
  cbn [map fold_left]. now rewrite scan_cell_blank, IH.
Qed.

Lemma remaining_cells_blank (cells : list string) (r : record) :
  remaining_cells_of
    (map (fun c => if is_nan_none (Str.strip c) then "" else c) cells) r
  = remaining_cells_of cells r.
Proof.
  unfold remaining_cells_of. induction cells as [|c cells IH]; [reflexivity|].
  cbn [map]. destruct (is_nan_none (Str.strip c)) eqn:E.
  - cbn [filter]. rewrite E, IH. cbn. now rewrite !andb_false_r.
  - cbn [filter]. now rewrite IH.
Qed.

Lemma infer_blank (row : list string) (I : string) (s : Z) :
  infer float_in_range float_str (blank_nan_none row) I s
  = infer float_in_range float_str row I s.
Proof.
  unfold infer. cbv zeta. rewrite blank_skipn, blank_initial, scan_blank.
  unfold fallbacks. cbv zeta. now rewrite remaining_cells_blank.
Qed.

Lemma inferred_storable (row : list string) (I : string) (s : Z) (c : column) :
  inferred c ->
  is_nan_none (record_of (infer float_in_range float_str row I s) c) = false.
Proof.
  intros Hi. destruct (infer_inv float_in_range float_str row I s)
    as [_ Hlog Hrest].
  destruct (in_dec (fun a b : column =>
              match Bool.bool_dec (column_eqb a b) true with
              | left e => left (proj1 (column_eqb_eq a b) e)
              | right n => right (fun e => n (proj2 (column_eqb_eq a b) e))
              end) c
             (map fst (writes (infer float_in_range float_str row I s))))
    as [Hin | Hout].
  - apply in_map_iff in Hin as ([c' v] & E & Hin). simpl in E. subst c'.
    destruct (Hlog c v Hin) as (-> & [_ Hv] & _). exact Hv.
  - rewrite (Hrest c Hout). destruct Hi as [k ->]. now destruct k.
Qed.

Lemma name_kept (row : list string) (I : string) (s : Z) :
  record_of (infer float_in_range float_str row I s) Name
  = Str.strip (cell 1 row).
Proof.
  destruct (infer_inv float_in_range float_str row I s) as [_ Hlog Hrest].
  rewrite Hrest; [apply initial_name|].
  intros Hin. apply in_map_iff in Hin as ([c v] & E & Hin). simpl in E. subst c.
  destruct (Hlog Name v Hin) as (_ & _ & Hi).
  apply (not_inferred Name); tauto.
Qed.

(** What the function returns, by the outcome of [str(serial_num)]. *)
Lemma create_cases (row : list string) (I : string) (s : Z) :
  create_enhanced_record_with_years float_in_range float_str row I s
  = match str_of_int s with
    | Raised => None
    | Returned _ =>
        if Str.is_empty (Str.strip (cell 1 row)) then None
        else Some (record_of (infer float_in_range float_str row I s))
    end.
Proof.
  unfold create_enhanced_record_with_years, create_body.
  destruct (str_of_int s); cbn [try_except]; [|reflexivity].
  cbv zeta. now rewrite name_kept.
Qed.

Lemma create_some (row : list string) (I : string) (s : Z) (r : record) :
  create_enhanced_record_with_years float_in_range float_str row I s = Some r ->
  r = record_of (infer float_in_range float_str row I s).
Proof.
  rewrite create_cases. destruct (str_of_int s); [|discriminate].
  destruct (Str.is_empty _); [discriminate|]. now intros [= <-].
Qed.

(** C6. Record construction returns no record when the name (the cell at
    index 1, trimmed; empty when the row has no such cell) is empty; a
    record that is returned carries that name, which is not empty; a body
    that raises makes the function return [None], nothing propagates; the
    body raises exactly when [str(serial_num)] does, that is for a serial
    number of more than 4300 digits; and in every other case a record is
    returned. *)
Theorem record_requires_name (row : list string) (I : string) (s : Z) :
  (Str.strip (cell 1 row) = "" ->
     create_enhanced_record_with_years float_in_range float_str row I s = None)
  /\ (forall r,
        create_enhanced_record_with_years float_in_range float_str row I s
        = Some r ->
        r Name = Str.strip (cell 1 row) /\ r Name <> "")
  /\ (create_body float_in_range float_str row I s = Raised ->
        create_enhanced_record_with_years float_in_range float_str row I s
        = None)
  /\ (create_body float_in_range float_str row I s = Raised
      <-> 10 ^ int_max_str_digits <= Z.abs s)
  /\ (Str.strip (cell 1 row) <> "" -> Z.abs s < 10 ^ int_max_str_digits ->
        exists r,
          create_enhanced_record_with_years float_in_range float_str row I s
          = Some r).
Proof.
  split; [|split; [|split; [|split]]].
  - intros E. rewrite create_cases, E. now destruct (str_of_int s).
  - intros r H. rewrite (create_some row I s r H), name_kept.
    split; [reflexivity|]. rewrite create_cases in H.
    destruct (str_of_int s); [|discriminate].
    destruct (Str.is_empty (Str.strip (cell 1 row))) eqn:E; [discriminate|].
    now apply is_empty_false.
  - intros H. unfold create_enhanced_record_with_years. now rewrite H.
  - rewrite str_of_int_raises. unfold create_body.
    destruct (str_of_int s); [|tauto]. split; discriminate.
  - intros Hname Hs. apply str_of_int_returns in Hs.
    rewrite create_cases, Hs. apply is_empty_false in Hname. rewrite Hname.
    eauto.
Qed.

(** C10. Cells from index 2 on whose trimmed, lower-cased text is "nan" or
    "none" are skipped by the scan and by the fallback passes: blanking
    them changes nothing in the result, and no inferred column of a
    returned record holds a spelling of "nan" or "none". *)
Theorem nan_none_cells_skipped (row : list string) (I : string) (s : Z) :
  create_enhanced_record_with_years float_in_range float_str
    (blank_nan_none row) I s
  = create_enhanced_record_with_years float_in_range float_str row I s
  /\ (forall r c,
        create_enhanced_record_with_years float_in_range float_str row I s
        = Some r ->
        inferred c -> is_nan_none (r c) = false).
Proof.
  split.
  - unfold create_enhanced_record_with_years, create_body.
    destruct (str_of_int s); [|reflexivity]. cbv zeta.
    now rewrite infer_blank.
  - intros r c H Hi. rewrite (create_some row I s r H).
    now apply inferred_storable.
Qed.

End SkipFacts.

(** A serial number of 4301 digits: [str] raises and no record is
    returned. *)
Lemma record_requires_name_witness :
  create_body (fun _ => false) (fun t => t) jane_row "City College"
    (10 ^ 4300) = Raised
  /\ create_enhanced_record_with_years (fun _ => false) (fun t => t) jane_row
       "City College" (10 ^ 4300) = None.
Proof.
  destruct (record_requires_name (fun _ => false) (fun t => t) jane_row
              "City College" (10 ^ 4300)) as (_ & _ & Hnone & Hraise & _).
  assert (H : create_body (fun _ => false) (fun t => t) jane_row
                "City College" (10 ^ 4300) = Raised).
  { apply Hraise. rewrite Z.abs_eq by (apply Z.pow_nonneg; lia).
    apply Z.le_refl. }
  split; [exact H | exact (Hnone H)].
Defined.

(* ================================================================== *)
(** * The experience normalizer *)

(** ** Rounding to the nearest integer, ties to even *)

(** The quotient is pinned by a remainder in [0, b). *)
Lemma quotient_unique (b q r t e : Z) :
  0 < b -> 0 <= r < b -> - b < e < b -> b * q + r = b * t + e ->
  (e < 0 /\ t = q + 1) \/ (0 <= e /\ t = q).
Proof.
  intros Hb Hr He E.
  destruct (Z.lt_trichotomy t q) as [Hlt | [-> | Hgt]].
  - assert (b * 1 <= b * (q - t)) by (apply Z.mul_le_mono_nonneg_l; lia). lia.
  - right. lia.
  - destruct (Z.eq_dec t (q + 1)) as [-> | Hne].
    + left. lia.
    + assert (b * 2 <= b * (t - q)) by (apply Z.mul_le_mono_nonneg_l; lia). lia.
Qed.

Lemma round_half_even_strict (a b t : Z) :
  0 < b -> - b < 2 * (a - t * b) < b -> Float.round_half_even a b = t.
Proof.
  intros Hb H. unfold Float.round_half_even.
  assert (Hd := Z.div_mod a b ltac:(lia)).
  assert (Hr := Z.mod_pos_bound a b Hb).
  set (q := a / b) in *. set (r := a mod b) in *.
  destruct (quotient_unique b q r t (a - t * b) Hb Hr ltac:(lia) ltac:(lia))
    as [[He ->] | [He ->]].
  - destruct (Z.ltb_spec (2 * r) b); [lia|].
    destruct (Z.ltb_spec b (2 * r)); [reflexivity | lia].
  - destruct (Z.ltb_spec (2 * r) b); [reflexivity|]. lia.
Qed.

Lemma round_half_even_tie (a b t : Z) :
  0 < b -> 2 * (a - t * b) = b ->
  Float.round_half_even a b = if Z.even t then t else t + 1.
Proof.
  intros Hb H. unfold Float.round_half_even.
  assert (Hd := Z.div_mod a b ltac:(lia)).
  assert (Hr := Z.mod_pos_bound a b Hb).
  set (q := a / b) in *. set (r := a mod b) in *.
  destruct (quotient_unique b q r t (a - t * b) Hb Hr ltac:(lia) ltac:(lia))
    as [[He ->] | [He ->]]; [lia|].
  destruct (Z.ltb_spec (2 * r) b); [lia|].
  destruct (Z.ltb_spec b (2 * r)); [lia | reflexivity].
Qed.

Lemma round_half_even_near (a b : Z) :
  0 < b -> - b <= 2 * (a - Float.round_half_even a b * b) <= b.
Proof.
  intros Hb. unfold Float.round_half_even.
  assert (Hd := Z.div_mod a b ltac:(lia)).
  assert (Hr := Z.mod_pos_bound a b Hb).
  set (q := a / b) in *. set (r := a mod b) in *.
  destruct (Z.ltb_spec (2 * r) b); [lia|].
  destruct (Z.ltb_spec b (2 * r)); [lia|].
  destruct (Z.even q); lia.
Qed.

(** ** [months / 12] in binary64, up to [12 * 2 ^ 49 + 1] months *)

(** The quotient has [k] binary places: at least 4 below [2 ^ 49] years,
    and 3 for the two numbers of months at [2 ^ 49] years. *)
Lemma truediv_12_shape (n : Z) :
  12 <= n <= 12 * 2 ^ 49 + 1 ->
  exists k,
    (4 <= k <= 52 \/ (k = 3 /\ n mod 12 <= 1))
    /\ Float.truediv n 12
       = Some (Float.make (Float.round_half_even (n * 2 ^ k) 12) (- k)).
Proof.
  intros Hn. unfold Float.truediv.
  change (12 * 2 ^ 49 + 1) with 6755399441055745 in Hn.
  assert (Hq : 1 <= n / 12 <= 2 ^ 49).
  { split; [apply Z.div_le_lower_bound; lia|].
    change (2 ^ 49) with 562949953421312.
    apply Z.lt_succ_r. apply Z.div_lt_upper_bound; lia. }
  assert (Hl : 0 <= Z.log2 (n / 12) <= 49).
  { split; [apply Z.log2_nonneg|]. change 49 with (Z.log2 (2 ^ 49)).
    apply Z.log2_le_mono. lia. }
  set (l := Z.log2 (n / 12)) in *. exists (52 - l). split.
  - destruct (Z.eq_dec l 49) as [El | El]; [right | left; lia].
    split; [lia|].
    assert (Hp : 2 ^ 49 <= n / 12).
    { subst l. rewrite <- El. apply Z.log2_spec. lia. }
    assert (Hd := Z.div_mod n 12 ltac:(lia)).
    change (2 ^ 49) with 562949953421312 in Hp, Hq. lia.
  - replace (0 <=? l - 52) with false by (symmetry; apply Z.leb_gt; lia).
    cbn [andb]. replace (- (l - 52)) with (52 - l) by lia.
    replace (l - 52) with (- (52 - l)) by lia. reflexivity.
Qed.

Lemma pow2_quarter (k : Z) :
  3 <= k -> 2 ^ k = 4 * 2 ^ (k - 2).
Proof.
  intros Hk. replace k with (2 + (k - 2)) at 1 by lia.
  rewrite Z.pow_add_r by lia. reflexivity.
Qed.

Lemma pow2_places (k : Z) :
  4 <= k -> 2 ^ (k - 2) = 4 \/ 2 ^ (k - 2) = 8 \/ 16 <= 2 ^ (k - 2).
Proof.
  intros Hk. destruct (Z.eq_dec k 4) as [-> | H4]; [now left|].
  destruct (Z.eq_dec k 5) as [-> | H5]; [right; now left|].
  right. right. change 16 with (2 ^ 4). apply Z.pow_le_mono_r; lia.
Qed.

(** The text the binary64 path prints for [n] months. *)
Lemma years_text (n : Z) :
  12 <= n <= 12 * 2 ^ 49 + 1 ->
  exists y,
    Float.truediv n 12 = Some y
    /\ (if Float.is_integral y
        then Str.of_int (Float.to_int y) ++ " years"
        else format_1f y ++ " years")
       = (if n mod 12 =? 0 then Str.of_int (n / 12) ++ " years"
          else one_decimal (Float.round_half_even (10 * n) 12) ++ " years").
Proof.
  intros Hn. destruct (truediv_12_shape n Hn) as (k & Hk & ->).
  eexists. split; [reflexivity|].
  assert (Hk3 : 3 <= k) by lia.
  assert (EP := pow2_quarter k Hk3).
  assert (HP' : 2 ^ (k - 2) = 2 /\ n mod 12 <= 1
                \/ 2 ^ (k - 2) = 4 \/ 2 ^ (k - 2) = 8 \/ 16 <= 2 ^ (k - 2)).
  { destruct Hk as [Hk | [-> Hr]]; [right; apply pow2_places; lia|].
    left. now split. }
  set (P' := 2 ^ (k - 2)) in *.
  unfold Float.is_integral, Float.to_int, format_1f, Float.tenths.
  cbn [Float.man Float.exp]. rewrite Z.opp_involutive.
  replace (0 <=? - k) with false by (symmetry; apply Z.leb_gt; lia).
  cbn [orb].
  assert (Hd := Z.div_mod n 12 ltac:(lia)).
  assert (Hr := Z.mod_pos_bound n 12 ltac:(lia)).
  set (q := n / 12) in *. set (r := n mod 12) in *.
  set (P := 2 ^ k) in *.
  assert (HP0 : 8 <= P) by lia.
  assert (Hm := round_half_even_near (n * P) 12 ltac:(lia)).
  set (m := Float.round_half_even (n * P) 12) in *.
  destruct (Z.eqb_spec r 0) as [Er | Er].
  - assert (Em : m = q * P) by (rewrite Hd, Er in Hm; lia). rewrite Em.
    rewrite Z.mod_mul by lia. rewrite Z.eqb_refl. rewrite Z.div_mul by lia. reflexivity.
  - replace (m mod P =? 0) with false.
    2:{ symmetry. apply Z.eqb_neq. intros E.
        apply Z.mod_divide in E; [|lia]. destruct E as [j Ej].
        rewrite Hd, Ej in Hm.
        destruct (Z.lt_trichotomy (12 * q + r - 12 * j) 0) as [Hlt | [Hz | Hgt]].
        - assert (P * (12 * q + r - 12 * j) <= P * (-1))
            by (apply Z.mul_le_mono_nonneg_l; lia). lia.
        - lia.
        - assert (P * 1 <= P * (12 * q + r - 12 * j))
            by (apply Z.mul_le_mono_nonneg_l; lia). lia. }
    f_equal. f_equal.
    assert (Hcases : r = 1 \/ r = 2 \/ r = 3 \/ r = 4 \/ r = 5 \/ r = 6
                     \/ r = 7 \/ r = 8 \/ r = 9 \/ r = 10 \/ r = 11) by lia.
    clear Hn Hk Hk3 HP0. clearbody P P' m q r. subst n P.
    assert (near : forall c,
              - (12) < 2 * (10 * (12 * q + r) - (10 * q + c) * 12) < 12 ->
              - (4 * P') < 2 * (10 * m - (10 * q + c) * (4 * P')) < 4 * P' ->
              Float.round_half_even (10 * m) (4 * P')
              = Float.round_half_even (10 * (12 * q + r)) 12).
    { intros c H1 H2. rewrite (round_half_even_strict _ 12 (10 * q + c)) by lia.
      apply round_half_even_strict; lia. }
    assert (tie : forall c,
              2 * (10 * (12 * q + r) - (10 * q + c) * 12) = 12 ->
              2 * (10 * m - (10 * q + c) * (4 * P')) = 4 * P' ->
              Float.round_half_even (10 * m) (4 * P')
              = Float.round_half_even (10 * (12 * q + r)) 12).
    { intros c H1 H2. rewrite (round_half_even_tie _ 12 (10 * q + c)) by lia.
      apply round_half_even_tie; lia. }
    destruct HP' as [[E2 Hr1] | [E4 | [E8 | H16]]].
    + assert (r = 1) by lia. subst r. rewrite E2 in *. apply (near 1); lia.
    + rewrite E4 in *.
      destruct Hcases as [-> | [-> | [-> | [-> | [-> | [-> | [-> | [-> | [-> |
                         [-> | ->]]]]]]]]]];
        [apply (near 1) | apply (near 2) | apply (tie 2) | apply (near 3)
        | apply (near 4) | apply (near 5) | apply (near 6) | apply (near 7)
        | apply (tie 7) | apply (near 8) | apply (near 9)]; lia.
    + rewrite E8 in *.
      destruct Hcases as [-> | [-> | [-> | [-> | [-> | [-> | [-> | [-> | [-> |
                         [-> | ->]]]]]]]]]];
        [apply (near 1) | apply (near 2) | apply (tie 2) | apply (near 3)
        | apply (near 4) | apply (near 5) | apply (near 6) | apply (near 7)
        | apply (tie 7) | apply (near 8) | apply (near 9)]; lia.
    + destruct Hcases as [-> | [-> | [-> | [-> | [-> | [-> | [-> | [-> | [-> |
                         [-> | ->]]]]]]]]]];
        [apply (near 1) | apply (near 2) | apply (tie 2) | apply (near 3)
        | apply (near 4) | apply (near 5) | apply (near 6) | apply (near 7)
        | apply (tie 7) | apply (near 8) | apply (near 9)]; lia.
Qed.

(** ** The normalizer against the specification *)

Lemma first_digit_run_has_digit (d run : string) :
  first_digit_run d run -> has_digit d.
Proof.
  intros (pre & post & -> & _ & Hne & Hrun & _).
  destruct run as [|c run]; [congruence|]. simpl in Hrun.
  apply andb_true_iff in Hrun as [Hc _]. now exists pre, c, (run ++ post).
Qed.

Lemma no_digit_no_number (d : string) :
  ~ has_digit d -> safe_extract_number d = None.
Proof.
  intros H. destruct (safe_extract_number d) as [n|] eqn:E; [|reflexivity].
  apply safe_extract_number_spec in E as (run & Hrun & _).
  exfalso. eauto using first_digit_run_has_digit.
Qed.

Lemma convert_unchanged (d : string) :
  safe_extract_number d = None -> convert_months_to_years d = d.
Proof.
  intros E. unfold convert_months_to_years. rewrite E. cbn [truthy negb].
  destruct (Str.is_empty d) eqn:Ed; [|reflexivity].
  apply is_empty_true in Ed. now subst d.
Qed.

Lemma convert_of_number (d : string) (n : Z) :
  safe_extract_number d = Some n -> 1 <= n <= 12 * 2 ^ 49 + 1 ->
  convert_months_to_years d = expected_duration n.
Proof.
  intros E Hn. unfold convert_months_to_years, expected_duration.
  destruct (Str.is_empty d) eqn:Ed.
  { apply is_empty_true in Ed. subst d. discriminate E. }
  rewrite E. cbn [truthy].
  replace (n =? 0) with false by (symmetry; apply Z.eqb_neq; lia).
  cbn [negb]. destruct (Z.ltb_spec n 12) as [Hlt | Hge]; [reflexivity|].
  destruct (years_text n ltac:(lia)) as (y & -> & Ey).
  rewrite <- Ey. now destruct (Float.is_integral y).
Qed.

(** C3 (amended). A text with no digit is returned unchanged, and so is a
    text whose first run of digits has more than 4300 digits; when the
    first run has at most 4300 digits and reads as [n] with
    [1 <= n <= 12 * 2 ^ 49 + 1], the result is "{n} months" for [n < 12],
    "{n/12} years" when 12 divides [n], and otherwise [n/12] years to
    exactly one decimal place (the nearest tenth, ties to even). *)
Theorem convert_months_to_years_spec (d : string) :
  (~ has_digit d -> convert_months_to_years d = d)
  /\ (forall run,
        first_digit_run d run ->
        (int_max_str_digits < Str.len run -> convert_months_to_years d = d)
        /\ (Str.len run <= int_max_str_digits ->
            1 <= Str.int run <= 12 * 2 ^ 49 + 1 ->
            convert_months_to_years d = expected_duration (Str.int run))).
Proof.
  split.
  - intros H. apply convert_unchanged. now apply no_digit_no_number.
  - intros run Hrun. split.
    + intros Hl. apply convert_unchanged.
      now apply (safe_extract_number_long d run).
    + intros Hl Hn. apply convert_of_number; [|exact Hn].
      apply safe_extract_number_spec. eauto.
Qed.

(** The claim without these bounds fails twice.  At
    [12 * 2 ^ 49 + 2 = 6755399441055746] months, the first number at which
    the binary64 quotient and the rule differ, the quotient
    562949953421312.1666... is rounded to 562949953421312.125 and printed
    as "562949953421312.1 years", where the rule gives "...2.2 years".
    And a run of 4300 zeros and a 5 reads as 5, for which the rule gives
    "5 months", but [int] refuses its 4301 digits and the text comes back
    unchanged. *)
Lemma convert_months_to_years_beyond :
  (first_digit_run "6755399441055746" "6755399441055746"
   /\ Str.int "6755399441055746" = 12 * 2 ^ 49 + 2
   /\ convert_months_to_years "6755399441055746" = "562949953421312.1 years"
   /\ expected_duration (Str.int "6755399441055746")
      = "562949953421312.2 years"
   /\ convert_months_to_years "6755399441055746"
      <> expected_duration (Str.int "6755399441055746"))
  /\ (first_digit_run padded_five padded_five
      /\ Str.len padded_five = 4301
      /\ Str.int padded_five = 5
      /\ expected_duration (Str.int padded_five) = "5 months"
      /\ convert_months_to_years padded_five = padded_five
      /\ convert_months_to_years padded_five
         <> expected_duration (Str.int padded_five)).
Proof.
  split.
  - split; [|split; [|split; [|split]]]; try (vm_compute; reflexivity).
    + apply first_run_spec. split; [discriminate | reflexivity].
    + vm_compute. discriminate.
  - assert (Hne : padded_five <> "").
    { intros E. apply (f_equal String.length) in E. vm_compute in E.
      discriminate E. }
    assert (Hc : convert_months_to_years padded_five = padded_five)
      by (vm_compute; reflexivity).
    split; [|split; [|split; [|split; [|split]]]];
      try (vm_compute; reflexivity).
    + apply first_run_spec. split; [exact Hne | vm_compute; reflexivity].
    + rewrite Hc. intros E. apply (f_equal String.length) in E.
      vm_compute in E. discriminate E.
Qed.

(** A first run of digits that reads as zero is treated like no number:
    the text comes back unchanged ("0" stays "0", where the three-way rule
    would print "0 months"). *)
Lemma convert_months_to_years_zero (d : string) :
  (safe_extract_number d = Some 0 -> convert_months_to_years d = d)
  /\ convert_months_to_years "0" = "0"
  /\ expected_duration 0 = "0 months".
Proof.
  split; [|split; vm_compute; reflexivity].
  intros E. unfold convert_months_to_years. rewrite E. cbn [truthy negb Z.eqb].
  destruct (Str.is_empty d) eqn:Ed; [|reflexivity].
  apply is_empty_true in Ed. now subst d.
Qed.

(** The examples of the specification. *)
Example convert_months_to_years_examples :
  convert_months_to_years "18 months" = "1.5 years"
  /\ convert_months_to_years "24 months" = "2 years"
  /\ convert_months_to_years "8 months" = "8 months".
Proof. repeat split; vm_compute; reflexivity. Qed.
(* ================================================================== *)
(** * Duplicate removal, ordering and the final serial *)

Lemma drop_duplicates_from_in (seen : list string) (rows : list record)
    (r : record) :
  In r (drop_duplicates_from seen rows) -> In r rows /\ ~ In (r Name) seen.
Proof.
  revert seen. induction rows as [|x rows IH]; intros seen; simpl; [tauto|].
  destruct (Str.mem (x Name) seen) eqn:E.
  - intros H. apply IH in H. tauto.
  - intros [<- | H].
    + split; [now left|]. intros Hin. apply mem_spec in Hin. congruence.
    + apply IH in H as [H1 H2]. split; [now right|]. simpl in H2. tauto.
Qed.

Lemma drop_duplicates_from_nodup (seen : list string) (rows : list record) :
  NoDup (map (fun r => r Name) (drop_duplicates_from seen rows)).
Proof.
  revert seen. induction rows as [|x rows IH]; intros seen; simpl;
    [constructor|].
  destruct (Str.mem (x Name) seen); [apply IH|].
  simpl. constructor; [|apply IH].
  intros Hin. apply in_map_iff in Hin as (r & E & Hr).
  apply drop_duplicates_from_in in Hr as [_ Hr]. apply Hr. rewrite E. now left.
Qed.

(** Every name of the input survives, on the first row that carries it. *)
Lemma drop_duplicates_from_keeps (seen : list string) (rows : list record)
    (r : record) :
  In r rows -> ~ In (r Name) seen ->
  exists r', In r' (drop_duplicates_from seen rows) /\ r' Name = r Name.
Proof.
  revert seen. induction rows as [|x rows IH]; intros seen; simpl; [tauto|].
  intros Hin Hseen. destruct (Str.mem (x Name) seen) eqn:E.
  - destruct Hin as [-> | Hin]; [apply mem_spec in E; contradiction|].
    now apply IH.
  - destruct (String.eqb_spec (x Name) (r Name)) as [En | En].
    + exists x. split; [now left | exact En].
    + destruct Hin as [-> | Hin]; [congruence|].
      destruct (IH (x Name :: seen) Hin) as (r' & H1 & H2);
        [simpl; tauto | exists r'; split; [now right | exact H2]].
Qed.

Lemma insert_final_serial_fst (rows : list record) :
  map fst (insert_final_serial rows)
  = map Z.of_nat (seq 1 (List.length rows)).
Proof.
  unfold insert_final_serial. generalize 1%nat.
  induction rows as [|r rows IH]; intros n; simpl; [reflexivity|].
  f_equal. apply IH.
Qed.

Lemma insert_final_serial_snd (rows : list record) :
  map snd (insert_final_serial rows) = rows.
Proof.
  unfold insert_final_serial. generalize 1%nat.
  induction rows as [|r rows IH]; intros n; simpl; [reflexivity|].
  f_equal. apply IH.
Qed.

Lemma drop_duplicates_from_first (seen : list string) (rows : list record)
    (r : record) :
  In r (drop_duplicates_from seen rows) <->
  (exists pre post,
     rows = (pre ++ r :: post)%list
     /\ forall x, In x pre -> x Name <> r Name)
  /\ ~ In (r Name) seen.
Proof.
  split.
  - revert seen. induction rows as [|x rows IH]; intros seen; [intros []|].
    cbn [drop_duplicates_from]. destruct (Str.mem (x Name) seen) eqn:E.
    + intros H. apply IH in H as [(pre & post & -> & Hpre) Hs].
      split; [|exact Hs]. exists (x :: pre), post. split; [reflexivity|].
      intros y [<- | Hy]; [|now apply Hpre].
      apply mem_spec in E. congruence.
    + intros [<- | H].
      * split; [exists [], rows; split; [reflexivity | intros y []]|].
        intros Hin. apply mem_spec in Hin. congruence.
      * apply IH in H as [(pre & post & -> & Hpre) Hs].
        split; [|cbn [In] in Hs; tauto]. exists (x :: pre), post.
        split; [reflexivity|].
        intros y [<- | Hy]; [|now apply Hpre]. cbn [In] in Hs. tauto.
  - intros [(pre & post & -> & Hpre) Hs]. revert seen Hs.
    induction pre as [|x pre IH]; intros seen Hs; cbn [app drop_duplicates_from].
    + destruct (Str.mem (r Name) seen) eqn:E; [|now left].
      apply mem_spec in E. contradiction.
    + assert (Hx : x Name <> r Name) by (apply Hpre; now left).
      assert (Hpre' : forall y, In y pre -> y Name <> r Name)
        by (intros y Hy; apply Hpre; now right).
      destruct (Str.mem (x Name) seen); [now apply IH|].
      right. apply IH; [exact Hpre'|]. cbn [In]. tauto.
Qed.

Lemma drop_duplicates_from_length (seen : list string) (rows : list record) :
  (List.length (drop_duplicates_from seen rows) <= List.length rows)%nat.
Proof.
  revert seen. induction rows as [|x rows IH]; intros seen; [reflexivity|].
  cbn [drop_duplicates_from].
  destruct (Str.mem (x Name) seen); cbn [List.length]; [|apply le_n_S];
    etransitivity; try apply IH; auto.
Qed.

Lemma insert_final_serial_length (rows : list record) :
  List.length (insert_final_serial rows) = List.length rows.
Proof.
  rewrite <- (length_map snd). now rewrite insert_final_serial_snd.
Qed.

(** ** A sorting procedure that meets the description of [sort_values] *)

Lemma insert_stable_perm (r : Q * record) (sorted : list (Q * record)) :
  Permutation (r :: sorted) (insert_stable r sorted).
Proof.
  induction sorted as [|x rest IH]; simpl; [reflexivity|].
  destruct (Qle_bool _ _); [|reflexivity].
  rewrite perm_swap. now constructor.
Qed.

Lemma insert_stable_sorted (r : Q * record) (sorted : list (Q * record)) :
  StronglySorted (fun a b => (fst a <= fst b)%Q) sorted ->
  StronglySorted (fun a b => (fst a <= fst b)%Q) (insert_stable r sorted).
Proof.
  induction 1 as [|x rest Hs IH Hx]; simpl; [repeat constructor|].
  destruct (Qle_bool (fst x) (fst r)) eqn:E.
  - constructor; [exact IH|].
    apply Forall_forall. intros y Hy.
    apply (Permutation_in _ (Permutation_sym (insert_stable_perm r rest))) in Hy.
    destruct Hy as [<- | Hy]; [now apply Qle_bool_iff|].
    rewrite Forall_forall in Hx. now apply Hx.
  - assert (Hlt : (fst r < fst x)%Q).
    { apply Qnot_le_lt. intros H. apply Qle_bool_iff in H. congruence. }
    constructor; [now constructor|].
    constructor; [now apply Qlt_le_weak|].
    apply Forall_forall. intros y Hy. rewrite Forall_forall in Hx.
    apply Qle_trans with (fst x); [now apply Qlt_le_weak | now apply Hx].
Qed.

Lemma stable_sort_sorts : sorts_by_key stable_sort.
Proof.
  intros rows. unfold stable_sort.
  assert (G : forall acc,
            StronglySorted (fun a b => (fst a <= fst b)%Q) acc ->
            Permutation (acc ++ rows)
              (fold_left (fun acc r => insert_stable r acc) rows acc)
            /\ StronglySorted (fun a b => (fst a <= fst b)%Q)
                 (fold_left (fun acc r => insert_stable r acc) rows acc)).
  { induction rows as [|r rows IH]; intros acc Hacc; simpl.
    - rewrite app_nil_r. now split.
    - destruct (IH (insert_stable r acc)) as [Hp Hs];
        [now apply insert_stable_sorted|].
      split; [|exact Hs]. rewrite <- Hp.
      rewrite <- (insert_stable_perm r acc). simpl.
      symmetry. apply Permutation_middle. }
  destruct (G [] ltac:(constructor)) as [Hp Hs]. now split.
Qed.

Lemma stable_sort_perm (rows : list (Q * record)) :
  Permutation rows (stable_sort rows).
Proof. apply stable_sort_sorts. Qed.

(** ** The collection check on two records *)


Section AssemblerFacts.

Variable to_numeric : string -> option Q.
Variable sort_values : list (Q * record) -> list (Q * record).
Variable to_excel : string -> list (Z * record) -> outcome unit.
Variable path_join : string -> string -> string.

Section Rearranged.

Hypothesis sort_values_perm : forall rows, Permutation rows (sort_values rows).

(** The rows of the frame are the deduplicated records, rearranged. *)
Lemma final_frame_rows (records : list record) :
  Permutation (drop_duplicates records)
    (map snd (final_frame to_numeric sort_values records)).
Proof.
  unfold final_frame. cbv zeta. rewrite insert_final_serial_snd.
  rewrite <- (sort_values_perm _). rewrite map_map. cbn [snd].
  now rewrite map_id.
Qed.

Lemma final_frame_length (records : list record) :
  List.length (final_frame to_numeric sort_values records)
  = List.length (drop_duplicates records).
Proof.
  rewrite <- (length_map snd). symmetry.
  apply Permutation_length, final_frame_rows.
Qed.

Lemma final_frame_serial (records : list record) :
  map fst (final_frame to_numeric sort_values records)
  = map Z.of_nat (seq 1 (List.length (drop_duplicates records))).
Proof.
  rewrite <- final_frame_length. unfold final_frame. cbv zeta.
  now rewrite insert_final_serial_fst, insert_final_serial_length.
Qed.

(** What the function returns. *)
Lemma save_cases (records : list record) (I dir : string) :
  save_individual_college_excel to_numeric sort_values to_excel path_join
    records I dir
  = match records with
    | [] => None
    | _ =>
        match to_excel (path_join dir (excel_filename I))
                (final_frame to_numeric sort_values records) with
        | Returned _ =>
            Some (path_join dir (excel_filename I),
                  Z.of_nat (List.length (drop_duplicates records)))
        | Raised => None
        end
    end.
Proof.
  destruct records as [|r0 rest]; [reflexivity|].
  unfold save_individual_college_excel, save_body. cbv zeta.
  rewrite final_frame_length.
  now destruct (to_excel _ _).
Qed.

Lemma save_none (records : list record) (I dir : string) :
  save_individual_college_excel to_numeric sort_values to_excel path_join
    records I dir = None
  <-> records = []
      \/ to_excel (path_join dir (excel_filename I))
           (final_frame to_numeric sort_values records) = Raised.
Proof.
  rewrite save_cases. destruct records as [|r0 rest]; [tauto|].
  destruct (to_excel _ _) as [[]|]; split; try discriminate; auto.
  intros [H | H]; discriminate H.
Qed.

Lemma save_some (records : list record) (I dir path : string) (n : Z) :
  save_individual_college_excel to_numeric sort_values to_excel path_join
    records I dir = Some (path, n) ->
  records <> []
  /\ path = path_join dir (excel_filename I)
  /\ n = Z.of_nat (List.length (final_frame to_numeric sort_values records))
  /\ to_excel path (final_frame to_numeric sort_values records) = Returned tt.
Proof.
  rewrite save_cases, final_frame_length.
  destruct records as [|r0 rest]; [discriminate|].
  destruct (to_excel _ _) as [[]|] eqn:Ew; [|discriminate].
  intros [= <- <-]. repeat split; [discriminate | exact Ew].
Qed.

End Rearranged.


End AssemblerFacts.

(* ================================================================== *)
(** * The normalizer splits on white space and joins with one space *)

Lemma split_ws_replace (a : ascii) (s : string) :
  Char.is_space a = true -> split_ws (Str.replace a " " s) = split_ws s.
Proof.
  intros Ha. unfold Str.replace.
  assert (Hsp : forall c, Char.is_space (if Ascii.eqb c a then " "%char else c)
                          = Char.is_space c).
  { intros c. destruct (Ascii.eqb c a) eqn:E; [|reflexivity].
    apply Ascii.eqb_eq in E. subst c. now rewrite Ha. }
  assert (Hid : forall c, Char.is_space c = false ->
                  (if Ascii.eqb c a then " "%char else c) = c).
  { intros c Hc. destruct (Ascii.eqb c a) eqn:E; [|reflexivity].
    apply Ascii.eqb_eq in E. subst c. congruence. }
  induction s as [|c r IH]; [reflexivity|].
  cbn [Str.map split_ws]. rewrite Hsp.
  destruct (Char.is_space c) eqn:Ec; [exact IH|].
  rewrite (Hid c Ec).
  destruct r as [|d r']; [reflexivity|].
  cbn [Str.map] in *. rewrite Hsp.
  destruct (Char.is_space d) eqn:Ed; now rewrite IH.
Qed.

Lemma split_ws_lstrip (s : string) : split_ws (Str.lstrip s) = split_ws s.
Proof.
  induction s as [|c r IH]; [reflexivity|].
  cbn [Str.lstrip]. destruct (Char.is_space c) eqn:Ec; [|reflexivity].
  cbn [split_ws]. now rewrite Ec.
Qed.

Lemma rstrip_head (d e : ascii) (r r' : string) :
  Str.rstrip (String d r) = String e r' -> e = d.
Proof.
  cbn [Str.rstrip]. destruct (Str.rstrip r).
  - destruct (Char.is_space d); [discriminate | congruence].
  - congruence.
Qed.

Lemma split_ws_rstrip (s : string) : split_ws (Str.rstrip s) = split_ws s.
Proof.
  induction s as [|c r IH]; [reflexivity|].
  cbn [Str.rstrip]. destruct (Str.rstrip r) as [|e r''] eqn:Er.
  - cbn [split_ws] in IH. cbn [split_ws].
    destruct (Char.is_space c) eqn:Ec; [exact IH|].
    cbn [split_ws]. rewrite Ec.
    destruct r as [|d r0]; [reflexivity|].
    rewrite <- IH. now destruct (Char.is_space d).
  - destruct r as [|d r0]; [discriminate|].
    assert (e = d) by (eapply rstrip_head; eauto). subst e.
    cbn [split_ws]. destruct (Char.is_space c) eqn:Ec.
    + cbn [split_ws] in IH. exact IH.
    + cbn [split_ws] in IH. now rewrite IH.
Qed.

Lemma split_ws_strip (s : string) : split_ws (Str.strip s) = split_ws s.
Proof. unfold Str.strip. now rewrite split_ws_rstrip, split_ws_lstrip. Qed.

Lemma split_ws_no_trail (s : string) :
  s <> "" -> no_trail s = true -> split_ws s <> [].
Proof.
  induction s as [|c r IH]; [congruence|]. intros _ Ht.
  destruct r as [|d r'].
  - cbn in Ht. cbn [split_ws]. apply negb_true_iff in Ht. rewrite Ht. discriminate.
  - assert (Hr : split_ws (String d r') <> []).
    { apply IH; [discriminate | exact Ht]. }
    cbn [split_ws] in *. destruct (Char.is_space c); [exact Hr|].
    destruct (Char.is_space d); [discriminate|].
    destruct r' as [|e r0]; [discriminate|].
    destruct (Char.is_space e); [discriminate|].
    destruct (split_ws (String e r0)); discriminate.
Qed.

Lemma join_cons_char (c : ascii) (w : string) (ws : list string) :
  Str.join " " (String c w :: ws) = String c (Str.join " " (w :: ws)).
Proof. destruct ws; reflexivity. Qed.

Lemma sub_spaces_cons_space (c d : ascii) (r : string) :
  Char.is_space c = true ->
  sub_spaces (String c (String d r))
  = if Char.is_space d then sub_spaces (String d r)
    else String " " (sub_spaces (String d r)).
Proof.
  intros H.
  change (sub_spaces (String c (String d r)))
    with (if Char.is_space c
          then if Char.is_space d then sub_spaces (String d r)
               else String " " (sub_spaces (String d r))
          else String c (sub_spaces (String d r))).
  now rewrite H.
Qed.

Lemma split_ws_space (c : ascii) (r : string) :
  Char.is_space c = true -> split_ws (String c r) = split_ws r.
Proof. intros H. cbn [split_ws]. now rewrite H. Qed.

Lemma split_ws_other (c d : ascii) (r : string) :
  Char.is_space c = false ->
  split_ws (String c (String d r))
  = if Char.is_space d then String c "" :: split_ws (String d r)
    else match split_ws (String d r) with
         | w :: ws => String c w :: ws
         | [] => [String c ""]
         end.
Proof.
  intros H.
  change (split_ws (String c (String d r)))
    with (if Char.is_space c then split_ws (String d r)
          else if Char.is_space d then String c "" :: split_ws (String d r)
               else match split_ws (String d r) with
                    | w :: ws => String c w :: ws
                    | [] => [String c ""]
                    end).
  now rewrite H.
Qed.

(** On a text without white space at its end, [re.sub(r"\s+", " ", s)]
    is the words of [s] joined by one space, behind one space when [s]
    begins with white space. *)
Lemma sub_spaces_words (s : string) :
  no_trail s = true ->
  sub_spaces s
  = (if no_lead s then "" else " ") ++ Str.join " " (split_ws s).
Proof.
  induction s as [|c r IH]; [reflexivity|]. intros Ht.
  destruct r as [|d r'].
  - cbn in Ht. apply negb_true_iff in Ht. cbn. now rewrite Ht.
  - assert (Hr := IH Ht). clear IH.
    assert (Hne : split_ws (String d r') <> []).
    { apply split_ws_no_trail; [discriminate | exact Ht]. }
    cbn [no_lead] in *.
    destruct (Char.is_space c) eqn:Ec; cbn [negb].
    + rewrite (sub_spaces_cons_space c d r' Ec), (split_ws_space c _ Ec).
      destruct (Char.is_space d) eqn:Ed; cbn [negb] in Hr.
      * exact Hr.
      * rewrite Hr. reflexivity.
    + rewrite (sub_spaces_cons_other c _ Ec), Hr, (split_ws_other c d r' Ec).
      destruct (Char.is_space d) eqn:Ed; cbn [negb].
      * destruct (split_ws (String d r')) as [|w ws] eqn:Ew; [congruence|].
        reflexivity.
      * destruct (split_ws (String d r')) as [|w ws] eqn:Ew; [congruence|].
        cbn [append]. now rewrite join_cons_char.
Qed.

(** X2. [safe_normalize_cell] computes [" ".join(text.split())]: the words
    of the cell (its maximal runs of characters that are no white space),
    in order, joined by single spaces; [None] gives the empty string. *)
Theorem safe_normalize_cell_words (text : string) :
  safe_normalize_cell (Some text) = Str.join " " (split_ws text)
  /\ safe_normalize_cell None = "".
Proof.
  split; [|reflexivity].
  cbn [safe_normalize_cell try_except].
  rewrite sub_spaces_words by apply no_trail_strip.
  rewrite no_lead_strip. cbn [append].
  rewrite split_ws_strip.
  rewrite (split_ws_replace LF) by reflexivity.
  now rewrite (split_ws_replace CR) by reflexivity.
Qed.
(* ================================================================== *)
(** * Numbers read from text and numbers written as text *)

Lemma number_of_run (pre run post : string) :
  Str.forallb (fun c => negb (Char.is_digit c)) pre = true ->
  run <> "" -> Str.forallb Char.is_digit run = true -> no_digit_ahead post ->
  Str.len run <= int_max_str_digits ->
  safe_extract_number (pre ++ run ++ post) = Some (Str.int run).
Proof.
  intros Hpre Hne Hrun Hpost Hlen. apply safe_extract_number_spec.
  exists run. split; [|now split]. exists pre, post. auto.
Qed.

Lemma below_limit (n : Z) : n < 10 ^ 15 -> n < 10 ^ int_max_str_digits.
Proof.
  intros H. apply Z.lt_le_trans with (10 ^ 15); [exact H|].
  apply Z.pow_le_mono_r; unfold int_max_str_digits; lia.
Qed.

Lemma number_of_int_app (n : Z) (post : string) :
  0 <= n < 10 ^ int_max_str_digits -> no_digit_ahead post ->
  safe_extract_number (Str.of_int n ++ post) = Some n.
Proof.
  intros Hn Hpost. destruct (of_int_digits n ltac:(lia)) as (Hne & Hd & Hv).
  rewrite <- Hv at 2.
  apply (number_of_run "" (Str.of_int n) post); auto.
  apply of_int_len; [lia | unfold int_max_str_digits; lia | lia].
Qed.

Lemma has_digit_first_run (text : string) :
  has_digit text -> exists run, first_digit_run text run.
Proof.
  intros (pre & c & post & -> & Hc).
  set (t := Str.from_first_digit (pre ++ String c post)).
  exists (Str.leading_digits t). apply first_run_spec. split; [|reflexivity].
  assert (Ht : exists d r, t = String d r /\ Char.is_digit d = true).
  { subst t. induction pre as [|a pre IH]; cbn [append Str.from_first_digit].
    - rewrite Hc. eauto.
    - destruct (Char.is_digit a) eqn:Ea; eauto. }
  destruct Ht as (d & r & -> & Hd). cbn [Str.leading_digits]. now rewrite Hd.
Qed.

(** X3. [safe_extract_number] gives [None] exactly for a text without a
    digit and for a text whose first run of digits has more than 4300
    digits.  Otherwise it gives the value of the first maximal run of
    digits, and nothing else of the text matters: what stands before the
    run (a minus sign, say) and what follows it is not read, and the
    number is never negative. *)
Theorem safe_extract_number_first_run (text : string) :
  (safe_extract_number text = None <->
   ~ has_digit text
   \/ exists run,
        first_digit_run text run /\ int_max_str_digits < Str.len run)
  /\ (forall n, safe_extract_number text = Some n -> 0 <= n)
  /\ (forall pre run post,
        text = pre ++ run ++ post ->
        Str.forallb (fun c => negb (Char.is_digit c)) pre = true ->
        run <> "" -> Str.forallb Char.is_digit run = true ->
        no_digit_ahead post ->
        safe_extract_number text = safe_extract_number run
        /\ (Str.len run <= int_max_str_digits ->
            safe_extract_number text = Some (Str.int run))
        /\ (int_max_str_digits < Str.len run ->
            safe_extract_number text = None)).
Proof.
  split; [|split].
  - split.
    + intros HN.
      destruct (first_run_spec text (Str.leading_digits (Str.from_first_digit text)))
        as [_ Hfr].
      destruct (Str.leading_digits (Str.from_first_digit text)) as [|c r] eqn:E.
      * left. intros Hd. apply has_digit_first_run in Hd as (run & Hrun).
        apply first_run_spec in Hrun as [Hne Er]. congruence.
      * right. exists (String c r).
        assert (Hrun : first_digit_run text (String c r))
          by (apply Hfr; split; [discriminate | reflexivity]).
        split; [exact Hrun|].
        destruct (Z.le_gt_cases (Str.len (String c r)) int_max_str_digits)
          as [Hle | Hgt]; [exfalso | lia].
        assert (H : safe_extract_number text = Some (Str.int (String c r)))
          by (apply safe_extract_number_spec; eauto).
        congruence.
    + intros [Hd | (run & Hrun & Hl)];
        [now apply no_digit_no_number
        | now apply (safe_extract_number_long text run)].
  - intros n H.
    apply safe_extract_number_spec in H as (run & Hrun & _ & ->).
    destruct Hrun as (pre & post & _ & _ & _ & Hd & _).
    apply int_acc_nonneg; [exact Hd | lia].
  - intros pre run post -> Hpre Hne Hrun Hpost.
    assert (H1 : first_digit_run (pre ++ run ++ post) run)
      by (exists pre, post; auto).
    assert (H2 : first_digit_run run run).
    { exists "", "". rewrite append_nil_r. repeat split; auto. }
    destruct (Z.le_gt_cases (Str.len run) int_max_str_digits) as [Hle | Hgt].
    + assert (E1 : safe_extract_number (pre ++ run ++ post)
                   = Some (Str.int run))
        by (apply safe_extract_number_spec; eauto).
      assert (E2 : safe_extract_number run = Some (Str.int run))
        by (apply safe_extract_number_spec; eauto).
      split; [congruence|]. split; [auto | lia].
    + assert (E1 := safe_extract_number_long _ _ H1 Hgt).
      assert (E2 := safe_extract_number_long _ _ H2 Hgt).
      split; [congruence|]. split; [lia | auto].
Qed.

(** X4. Writing a number with [str] and reading it back with
    [safe_extract_number] gives its absolute value: for a serial number of
    at most 4300 digits [str] returns its numeral, and the text put into
    "S No" reads back as the number; for more digits [str] raises. *)
Theorem serial_text_round_trip (n : Z) :
  (Z.abs n < 10 ^ int_max_str_digits ->
     str_of_int n = Returned (Str.of_int n)
     /\ safe_extract_number (Str.of_int n) = Some (Z.abs n))
  /\ (10 ^ int_max_str_digits <= Z.abs n -> str_of_int n = Raised).
Proof.
  split; [|apply str_of_int_raises].
  intros Hn. split; [now apply str_of_int_returns|].
  destruct n as [|p|p].
  - reflexivity.
  - assert (H := number_of_int_app (Z.pos p) "" ltac:(cbn [Z.abs] in Hn; lia) I).
    now rewrite append_nil_r in H.
  - rewrite of_int_neg. cbn [Z.abs] in *.
    destruct (of_int_digits (Z.pos p)) as (Hne & Hd & Hv); [lia|].
    assert (H := number_of_run "-" (Str.of_int (Z.pos p)) ""
                   ltac:(reflexivity) Hne Hd I).
    rewrite append_nil_r, Hv in H. apply H.
    apply of_int_len; [lia | unfold int_max_str_digits; lia | exact Hn].
Qed.

(** X5. The unit written behind the number is not read: a text made of a
    number [n] and any unit is converted as [n] months, so "24 years"
    comes out as "2 years" and "5 years" as "5 months". *)
Theorem convert_months_to_years_ignores_unit (n : Z) (unit : string) :
  1 <= n < 10 ^ 15 -> no_digit_ahead unit ->
  convert_months_to_years (Str.of_int n ++ unit) = expected_duration n.
Proof.
  intros Hn Hu. apply convert_of_number.
  - apply number_of_int_app; [|exact Hu].
    split; [lia | apply below_limit; lia].
  - change (10 ^ 15) with 1000000000000000 in Hn.
    change (12 * 2 ^ 49 + 1) with 6755399441055745. lia.
Qed.

Lemma convert_months_to_years_ignores_unit_witness :
  1 <= 24 < 10 ^ 15 /\ no_digit_ahead " years"
  /\ convert_months_to_years ("24" ++ " years") = "2 years".
Proof.
  split; [lia|]. split; [reflexivity|].
  apply (convert_months_to_years_ignores_unit 24 " years"); [lia | reflexivity].
Defined.
(* ================================================================== *)
(** * The classifier, once more: exclusion terms and accepted rows *)

Lemma lower_app (s t : string) : Str.lower (s ++ t) = Str.lower s ++ Str.lower t.
Proof.
  unfold Str.lower. induction s as [|c s IH]; [reflexivity|].
  cbn [append Str.map]. now rewrite IH.
Qed.

Lemma occurs_in_lower (x s : string) :
  occurs_in x s -> occurs_in (Str.lower x) (Str.lower s).
Proof.
  intros (pre & post & ->). exists (Str.lower pre), (Str.lower post).
  now rewrite !lower_app.
Qed.

Lemma occurs_in_trans (t x s : string) :
  occurs_in t x -> occurs_in x s -> occurs_in t s.
Proof.
  intros (p1 & q1 & ->) (p2 & q2 & ->).
  exists (p2 ++ p1), (q1 ++ q2). now rewrite !append_assoc.
Qed.

Lemma join_occurs (sep x : string) (l : list string) :
  In x l -> occurs_in x (Str.join sep l).
Proof.
  induction l as [|y l IH]; [intros []|].
  intros [-> | Hin].
  - destruct l as [|z l].
    + exists "", "". cbn. now rewrite append_nil_r.
    + exists "", (sep ++ Str.join sep (z :: l)). reflexivity.
  - destruct l as [|z l]; [destruct Hin|].
    destruct (IH Hin) as (pre & post & E).
    exists (y ++ sep ++ pre), post.
    change (Str.join sep (y :: z :: l)) with (y ++ sep ++ Str.join sep (z :: l)).
    rewrite E. now rewrite !append_assoc.
Qed.

Lemma nth_in_firstn (i k : nat) (l : list string) :
  (i < k)%nat -> (i < List.length l)%nat -> In (nth i l "") (firstn k l).
Proof.
  revert i k. induction l as [|x l IH]; intros i k Hk Hl; [simpl in Hl; lia|].
  destruct k as [|k]; [lia|]. destruct i as [|i]; [now left|].
  right. apply IH; simpl in Hl; lia.
Qed.

(** X7. An exclusion term anywhere in one of the first five cells, in any
    letter case and also inside a longer word, rejects the row whatever
    else it holds: a faculty row whose designation reads "Laboratory
    Assistant" is dropped. *)
Theorem excluded_term_rejects (row : list string) (i : nat) (t : string) :
  (i < 5)%nat -> (i < List.length row)%nat -> In t exclude_terms ->
  occurs_in t (Str.lower (nth i row "")) ->
  is_potential_faculty_row row = false.
Proof.
  intros Hi Hl Ht Ho.
  assert (Hc : Str.contains_any exclude_terms
                 (Str.lower (Str.join " " (firstn 5 row))) = true).
  { destruct (Str.contains_any exclude_terms
                (Str.lower (Str.join " " (firstn 5 row)))) eqn:E; [reflexivity|].
    exfalso. rewrite contains_any_false in E. apply (E t Ht).
    eapply occurs_in_trans; [exact Ho|].
    apply occurs_in_lower, join_occurs. now apply nth_in_firstn. }
  unfold is_potential_faculty_row. cbv zeta. rewrite Hc.
  repeat match goal with
         | |- context [if ?b then Returned false else _] => destruct b
         end; reflexivity.
Qed.

Lemma excluded_term_rejects_witness :
  (3 < 5)%nat /\ (3 < List.length lab_row)%nat /\ In "laboratory" exclude_terms
  /\ occurs_in "laboratory" (Str.lower (nth 3 lab_row ""))
  /\ is_potential_faculty_row lab_row = false.
Proof.
  assert (H1 : (3 < 5)%nat) by lia.
  assert (H2 : (3 < List.length lab_row)%nat) by (simpl; lia).
  assert (H3 : In "laboratory" exclude_terms) by (simpl; tauto).
  assert (H4 : occurs_in "laboratory" (Str.lower (nth 3 lab_row ""))).
  { exists "", " assistant". reflexivity. }
  refine (conj H1 (conj H2 (conj H3 (conj H4 _)))).
  exact (excluded_term_rejects lab_row 3 "laboratory" H1 H2 H3 H4).
Defined.

Lemma accepted_facts (row : list string) :
  is_potential_faculty_row row = true ->
  (3 <= List.length row)%nat
  /\ (exists n, safe_extract_number (Str.strip (cell 0 row)) = Some n
                /\ 1 <= n <= 9999)
  /\ Str.strip (cell 1 row) <> "".
Proof.
  unfold is_potential_faculty_row. cbv zeta.
  repeat rewrite guard_false. cbn [try_except].
  intros (_ & _ & _ & Hs & Hn & _ & _ & Hc & _).
  split; [|split].
  - unfold non_empty_cells in Hc. apply Z.ltb_ge in Hc.
    assert (H := filter_length_le
                   (fun c => negb (Str.is_empty (Str.strip c))) row).
    lia.
  - destruct (safe_extract_number (Str.strip (cell 0 row))) as [n|];
      [|rewrite orb_true_r in Hs; discriminate].
    exists n. split; [reflexivity|].
    apply orb_false_iff in Hs as [_ Hs]. apply orb_false_iff in Hs as [H1 H2].
    rewrite Z.gtb_ltb in H2. apply Z.ltb_ge in H1, H2. lia.
  - apply orb_false_iff in Hn as [Hn _]. now apply is_empty_false.
Qed.

Lemma normalized_row (raw_row : list (option string)) :
  Forall normalized (map safe_normalize_cell raw_row).
Proof.
  apply Forall_forall. intros c Hc.
  apply in_map_iff in Hc as (x & <- & _). apply safe_normalize_cell_normalized.
Qed.
(* ================================================================== *)
(** * The collection loop *)

Lemma is_duplicate_spec (records : list record) (new : record) :
  is_duplicate records new = true <-> In (record_key new) (map record_key records).
Proof.
  unfold is_duplicate. rewrite existsb_exists, in_map_iff. unfold record_key.
  split.
  - intros (x & Hx & H). apply andb_true_iff in H as [H1 H2].
    apply String.eqb_eq in H1, H2. exists x. split; [congruence | exact Hx].
  - intros (x & E & Hx). injection E as E1 E2. exists x. split; [exact Hx|].
    rewrite E1, E2, !String.eqb_refl. reflexivity.
Qed.

Lemma add_record_cases (records : list record) (new : record) :
  (is_duplicate records new = true /\ add_record records new = records)
  \/ (is_duplicate records new = false
      /\ add_record records new = (records ++ [new])%list).
Proof. unfold add_record. destruct (is_duplicate records new); auto. Qed.

Lemma add_record_forall (Q : record -> Prop) (records : list record)
    (new : record) :
  Forall Q records -> Q new -> Forall Q (add_record records new).
Proof.
  intros Hr Hn. destruct (add_record_cases records new) as [[_ ->] | [_ ->]];
    [exact Hr|]. apply Forall_app. split; [exact Hr | now constructor].
Qed.

Lemma add_record_nodup (records : list record) (new : record) :
  NoDup (map record_key records) ->
  NoDup (map record_key (add_record records new)).
Proof.
  intros Hr. destruct (add_record_cases records new) as [[_ ->] | [Hd ->]];
    [exact Hr|].
  rewrite map_app. apply NoDup_app; [exact Hr | repeat constructor; intros [] |].
  intros k Hk [<- | []].
  apply is_duplicate_spec in Hk. congruence.
Qed.

Section CollectionFacts.

Variable float_in_range : string -> bool.
Variable float_str : string -> string.

(** The columns the engine does not infer keep what the dict literal gave
    them. *)
Lemma identity_kept (row : list string) (I : string) (s : Z) (c : column) :
  ~ inferred c ->
  record_of (infer float_in_range float_str row I s) c = initial_record row I s c.
Proof.
  intros Hc. destruct (infer_inv float_in_range float_str row I s) as [_ Hlog Hrest].
  apply Hrest. intros Hin. apply in_map_iff in Hin as ([c' v] & E & Hin).
  simpl in E. subst c'. apply Hlog in Hin as (_ & _ & Hi). contradiction.
Qed.

Lemma process_row_unclassified (I : string) (records : list record)
    (raw_row : list (option string)) :
  is_potential_faculty_row (map safe_normalize_cell raw_row) = false ->
  process_row float_in_range float_str I records raw_row = records.
Proof.
  intros H. unfold process_row. destruct raw_row as [|x raw]; [reflexivity|].
  cbv zeta. now rewrite H.
Qed.

Lemma process_row_classified (I : string) (records : list record)
    (raw_row : list (option string)) :
  is_potential_faculty_row (map safe_normalize_cell raw_row) = true ->
  exists n,
    safe_extract_number (cell 0 (map safe_normalize_cell raw_row)) = Some n
    /\ 1 <= n <= 9999
    /\ create_enhanced_record_with_years float_in_range float_str
         (map safe_normalize_cell raw_row) I n
       = Some (record_of (infer float_in_range float_str
                            (map safe_normalize_cell raw_row) I n))
    /\ process_row float_in_range float_str I records raw_row
       = add_record records
           (record_of (infer float_in_range float_str
                         (map safe_normalize_cell raw_row) I n)).
Proof.
  intros H. destruct (accepted_facts _ H) as (Hlen & (n & Hn & Hr) & Hname).
  rewrite (normalized_strip _ (cell_normalized 0 _ (normalized_row raw_row))) in Hn.
  assert (Hc : create_enhanced_record_with_years float_in_range float_str
                 (map safe_normalize_cell raw_row) I n
               = Some (record_of (infer float_in_range float_str
                                    (map safe_normalize_cell raw_row) I n))).
  { apply create_returns.
    - apply str_of_int_returns, below_limit. lia.
    - rewrite name_kept. now apply is_empty_false. }
  exists n. repeat (split; [assumption|]).
  unfold process_row. destruct raw_row as [|x raw]; [simpl in Hlen; lia|].
  cbv zeta. rewrite H. cbn [negb]. rewrite Hn. cbn [truthy].
  assert (E0 : (n =? 0) = false) by (apply Z.eqb_neq; lia).
  assert (E1 : (n >? 10000) = false) by (rewrite Z.gtb_ltb; apply Z.ltb_ge; lia).
  rewrite E0, E1. cbn [negb orb]. now rewrite Hc.
Qed.

Lemma infer_collected_shape (row : list string) (I : string) (n : Z) :
  Str.strip (cell 1 row) <> "" -> 1 <= n <= 9999 ->
  collected_shape I (record_of (infer float_in_range float_str row I n)).
Proof.
  intros Hname Hn. split; [|split].
  - apply identity_kept. apply not_inferred. auto.
  - now rewrite name_kept.
  - exists n. split; [exact Hn|]. apply identity_kept. apply not_inferred. auto.
Qed.

Lemma process_row_shape (I : string) (records : list record)
    (raw_row : list (option string)) :
  Forall (collected_shape I) records ->
  Forall (collected_shape I) (process_row float_in_range float_str I records raw_row).
Proof.
  intros Hr.
  destruct (is_potential_faculty_row (map safe_normalize_cell raw_row)) eqn:E.
  - destruct (process_row_classified I records raw_row E) as (n & _ & Hn & _ & ->).
    apply add_record_forall; [exact Hr|].
    apply infer_collected_shape; [|exact Hn].
    now destruct (accepted_facts _ E) as (_ & _ & Hname).
  - now rewrite process_row_unclassified.
Qed.

Lemma process_row_nodup (I : string) (records : list record)
    (raw_row : list (option string)) :
  NoDup (map record_key records) ->
  NoDup (map record_key (process_row float_in_range float_str I records raw_row)).
Proof.
  intros Hr.
  destruct (is_potential_faculty_row (map safe_normalize_cell raw_row)) eqn:E.
  - destruct (process_row_classified I records raw_row E) as (n & _ & _ & _ & ->).
    now apply add_record_nodup.
  - now rewrite process_row_unclassified.
Qed.

(** What one row preserves, the whole document preserves. *)
Section Preservation.

Variable P : list record -> Prop.
Variable I : string.
Hypothesis P_row : forall records raw_row,
  P records -> P (process_row float_in_range float_str I records raw_row).

Lemma rows_preserve (rows : list (list (option string))) (records : list record) :
  P records ->
  P (fold_left (process_row float_in_range float_str I) rows records).
Proof.
  revert records. induction rows as [|raw rows IH]; intros records H; [exact H|].
  cbn [fold_left]. apply IH, P_row, H.
Qed.

Lemma process_tables_preserves (tables : list raw_table) (records : list record) :
  P records ->
  P (process_tables float_in_range float_str I records tables).
Proof.
  unfold process_tables. revert records.
  induction tables as [|t tables IH]; intros records H; [exact H|].
  cbn [fold_left]. apply IH.
  destruct (Z.of_nat (List.length t) <? 2); [exact H | now apply rows_preserve].
Qed.

Lemma process_page_preserves (p : page) (records : list record) :
  P records -> P (process_page float_in_range float_str I records p).
Proof.
  intros H. unfold process_page. destruct (fst p) as [tables|]; [|exact H].
  cbv zeta. destruct (tables ++ _)%list eqn:E; [exact H|].
  now apply process_tables_preserves.
Qed.

Lemma extract_preserves (pdf : outcome (list page)) :
  P [] -> P (fst (extract_from_single_pdf float_in_range float_str I pdf)).
Proof.
  intros H. unfold extract_from_single_pdf. cbn [fst].
  destruct pdf as [pages|]; [|exact H].
  revert H. generalize (@nil record).
  induction pages as [|p pages IH]; intros records H; [exact H|].
  cbn [fold_left]. apply IH. now apply process_page_preserves.
Qed.

End Preservation.

(** X8. A row the classifier accepts is never lost on the way to the
    collection: its first cell reads as a number between 1 and 9999, so
    the test [serial_num > 10000] of line 217 cannot fail it, its name is
    not empty, so the engine returns a record and not [None], and the row
    ends in the duplicate check, which appends the record or finds its
    name and serial number among the records collected so far. *)
Theorem classified_row_reaches_collection (institution_name : string)
    (records : list record) (raw_row : list (option string)) :
  is_potential_faculty_row (map safe_normalize_cell raw_row) = true ->
  exists n new,
    safe_extract_number (cell 0 (map safe_normalize_cell raw_row)) = Some n
    /\ 1 <= n <= 9999
    /\ create_enhanced_record_with_years float_in_range float_str
         (map safe_normalize_cell raw_row) institution_name n = Some new
    /\ process_row float_in_range float_str institution_name records raw_row
       = add_record records new
    /\ In (record_key new)
          (map record_key
             (process_row float_in_range float_str institution_name records
                raw_row)).
Proof.
  intros H.
  destruct (process_row_classified institution_name records raw_row H)
    as (n & Hn & Hr & Hc & Hp).
  exists n, (record_of (infer float_in_range float_str
                          (map safe_normalize_cell raw_row) institution_name n)).
  repeat (split; [assumption|]). rewrite Hp.
  destruct (add_record_cases records
              (record_of (infer float_in_range float_str
                            (map safe_normalize_cell raw_row) institution_name n)))
    as [[Hd ->] | [_ ->]].
  - now apply is_duplicate_spec.
  - rewrite map_app. apply in_or_app. right. now left.
Qed.

(** X9. Every record [extract_from_single_pdf] returns carries the name of
    the document as "Institution name", a non-empty "Name", and as "S No"
    the decimal numeral of a number between 1 and 9999; the second
    component of the result is the name of the document. *)
Theorem extracted_records_shape (institution_name : string)
    (pdf : outcome (list page)) :
  Forall (collected_shape institution_name)
    (fst (extract_from_single_pdf float_in_range float_str institution_name pdf))
  /\ snd (extract_from_single_pdf float_in_range float_str institution_name pdf)
     = institution_name.
Proof.
  split; [|reflexivity].
  apply (extract_preserves (Forall (collected_shape institution_name))).
  - intros records raw_row. apply process_row_shape.
  - constructor.
Qed.

(** X10. No two records [extract_from_single_pdf] returns agree in both the
    trimmed lower-case name and the "S No" text. *)
Theorem extracted_records_distinct (institution_name : string)
    (pdf : outcome (list page)) :
  NoDup (map record_key
           (fst (extract_from_single_pdf float_in_range float_str
                   institution_name pdf))).
Proof.
  apply (extract_preserves (fun records => NoDup (map record_key records))).
  - intros records raw_row. apply process_row_nodup.
  - constructor.
Qed.

End CollectionFacts.

Lemma classified_row_reaches_collection_witness :
  is_potential_faculty_row (map safe_normalize_cell (map Some jane_row)) = true
  /\ exists n new,
       safe_extract_number
         (cell 0 (map safe_normalize_cell (map Some jane_row))) = Some n
       /\ 1 <= n <= 9999
       /\ create_enhanced_record_with_years (fun _ => false) (fun t => t)
            (map safe_normalize_cell (map Some jane_row)) "City College" n
          = Some new
       /\ process_row (fun _ => false) (fun t => t) "City College" []
            (map Some jane_row)
          = add_record [] new
       /\ In (record_key new)
             (map record_key
                (process_row (fun _ => false) (fun t => t) "City College" []
                   (map Some jane_row))).
Proof.
  split; [vm_compute; reflexivity|].
  apply (classified_row_reaches_collection (fun _ => false) (fun t => t)
           "City College" [] (map Some jane_row)).
  vm_compute; reflexivity.
Defined.
(* ================================================================== *)
(** * Rows met a second time *)

Lemma is_duplicate_app (records ext : list record) (new : record) :
  is_duplicate records new = true -> is_duplicate (records ++ ext) new = true.
Proof.
  intros H. apply is_duplicate_spec in H. apply is_duplicate_spec.
  rewrite map_app. apply in_or_app. now left.
Qed.

Lemma is_duplicate_last (records : list record) (new : record) :
  is_duplicate (records ++ [new]) new = true.
Proof.
  apply is_duplicate_spec. rewrite map_app. apply in_or_app. right. now left.
Qed.

Lemma app_one_neq (records : list record) (new : record) :
  (records ++ [new])%list <> records.
Proof.
  intros H. apply (f_equal (@List.length record)) in H.
  rewrite length_app in H. simpl in H. lia.
Qed.

Section Repetition.

Variable float_in_range : string -> bool.
Variable float_str : string -> string.
Variable I : string.

Lemma process_row_grows (records : list record) (raw_row : list (option string)) :
  exists ext,
    process_row float_in_range float_str I records raw_row = (records ++ ext)%list.
Proof.
  destruct (is_potential_faculty_row (map safe_normalize_cell raw_row)) eqn:E.
  - destruct (process_row_classified float_in_range float_str I records raw_row E)
      as (n & _ & _ & _ & ->).
    destruct (add_record_cases records
                (record_of (infer float_in_range float_str
                              (map safe_normalize_cell raw_row) I n)))
      as [[_ ->] | [_ ->]]; [exists []; now rewrite app_nil_r | eauto].
  - rewrite process_row_unclassified by exact E. exists []. now rewrite app_nil_r.
Qed.

Lemma absorbed_after (records : list record) (raw_row : list (option string)) :
  absorbed float_in_range float_str I (process_row float_in_range float_str I records raw_row) raw_row.
Proof.
  unfold absorbed.
  destruct (is_potential_faculty_row (map safe_normalize_cell raw_row)) eqn:E.
  - destruct (process_row_classified float_in_range float_str I records raw_row E)
      as (n & _ & _ & _ & Hp).
    destruct (process_row_classified float_in_range float_str I
                (process_row float_in_range float_str I records raw_row) raw_row E)
      as (n' & Hn' & _ & _ & Hp').
    destruct (process_row_classified float_in_range float_str I records raw_row E)
      as (n'' & Hn'' & _ & _ & Hp'').
    assert (n' = n'') by congruence. subst n''.
    rewrite Hp'. rewrite Hp''.
    set (new := record_of (infer float_in_range float_str
                             (map safe_normalize_cell raw_row) I n')).
    unfold add_record at 1.
    destruct (add_record_cases records new) as [[Hd ->] | [_ ->]].
    + now rewrite Hd.
    + now rewrite is_duplicate_last.
  - now rewrite !process_row_unclassified.
Qed.

Lemma absorbed_mono (records ext : list record) (raw_row : list (option string)) :
  absorbed float_in_range float_str I records raw_row -> absorbed float_in_range float_str I (records ++ ext) raw_row.
Proof.
  unfold absorbed.
  destruct (is_potential_faculty_row (map safe_normalize_cell raw_row)) eqn:E.
  - destruct (process_row_classified float_in_range float_str I records raw_row E)
      as (n & Hn & _ & _ & ->).
    destruct (process_row_classified float_in_range float_str I
                (records ++ ext) raw_row E) as (n' & Hn' & _ & _ & ->).
    assert (n' = n) by congruence. subst n'.
    set (new := record_of (infer float_in_range float_str
                             (map safe_normalize_cell raw_row) I n)).
    destruct (add_record_cases records new) as [[Hd ->] | [_ ->]].
    + intros _. unfold add_record. now rewrite is_duplicate_app.
    + intros H. now apply app_one_neq in H.
  - intros _. now rewrite process_row_unclassified.
Qed.

Lemma rows_grow (rows : list (list (option string))) (records : list record) :
  exists ext,
    fold_left (process_row float_in_range float_str I) rows records
    = (records ++ ext)%list.
Proof.
  revert records. induction rows as [|raw rows IH]; intros records.
  - exists []. now rewrite app_nil_r.
  - cbn [fold_left]. destruct (process_row_grows records raw) as (e1 & ->).
    destruct (IH (records ++ e1)%list) as (e2 & ->).
    exists (e1 ++ e2)%list. now rewrite app_assoc.
Qed.

Lemma rows_absorbed_after (rows : list (list (option string)))
    (records : list record) (raw_row : list (option string)) :
  In raw_row rows ->
  absorbed float_in_range float_str I (fold_left (process_row float_in_range float_str I) rows records) raw_row.
Proof.
  revert records. induction rows as [|raw rows IH]; intros records; [intros []|].
  cbn [fold_left]. intros [-> | Hin]; [|now apply IH].
  destruct (rows_grow rows (process_row float_in_range float_str I records raw_row))
    as (ext & ->).
  apply absorbed_mono, absorbed_after.
Qed.

Lemma rows_absorbed (rows : list (list (option string))) (records : list record) :
  (forall raw_row, In raw_row rows -> absorbed float_in_range float_str I records raw_row) ->
  fold_left (process_row float_in_range float_str I) rows records = records.
Proof.
  induction rows as [|raw rows IH]; intros H; [reflexivity|].
  cbn [fold_left]. rewrite (H raw) by now left.
  apply IH. intros r Hr. apply H. now right.
Qed.

Lemma table_step_grows (t : raw_table) (records : list record) :
  exists ext,
    (if Z.of_nat (List.length t) <? 2 then records
     else fold_left (process_row float_in_range float_str I) t records)
    = (records ++ ext)%list.
Proof.
  destruct (Z.of_nat (List.length t) <? 2); [|apply rows_grow].
  exists []. now rewrite app_nil_r.
Qed.

Lemma process_tables_grows (tables : list raw_table) (records : list record) :
  exists ext,
    process_tables float_in_range float_str I records tables
    = (records ++ ext)%list.
Proof.
  unfold process_tables. revert records.
  induction tables as [|t tables IH]; intros records.
  - exists []. now rewrite app_nil_r.
  - cbn [fold_left]. destruct (table_step_grows t records) as (e1 & ->).
    destruct (IH (records ++ e1)%list) as (e2 & ->).
    exists (e1 ++ e2)%list. now rewrite app_assoc.
Qed.

Lemma table_absorbed_mono (records ext : list record) (t : raw_table) :
  table_absorbed float_in_range float_str I records t -> table_absorbed float_in_range float_str I (records ++ ext) t.
Proof.
  intros [H | H]; [now left | right].
  intros raw Hraw. now apply absorbed_mono, H.
Qed.

Lemma process_tables_absorbed_after (tables : list raw_table)
    (records : list record) (t : raw_table) :
  In t tables ->
  table_absorbed float_in_range float_str I (process_tables float_in_range float_str I records tables) t.
Proof.
  unfold process_tables. revert records.
  induction tables as [|t' tables IH]; intros records; [intros []|].
  cbn [fold_left]. intros [-> | Hin]; [|now apply IH].
  match goal with
  | |- table_absorbed float_in_range float_str I (fold_left ?f tables ?r) t =>
      destruct (process_tables_grows tables r) as (ext & E)
  end.
  unfold process_tables in E. rewrite E. apply table_absorbed_mono.
  destruct (Z.of_nat (List.length t) <? 2) eqn:El; [now left | right].
  intros raw Hraw. now apply rows_absorbed_after.
Qed.

Lemma process_tables_absorbed (tables : list raw_table) (records : list record) :
  (forall t, In t tables -> table_absorbed float_in_range float_str I records t) ->
  process_tables float_in_range float_str I records tables = records.
Proof.
  unfold process_tables.
  induction tables as [|t tables IH]; intros H; [reflexivity|].
  cbn [fold_left].
  assert (E : (if Z.of_nat (List.length t) <? 2 then records
               else fold_left (process_row float_in_range float_str I) t records)
              = records).
  { destruct (H t (or_introl eq_refl)) as [-> | Ht]; [reflexivity|].
    destruct (Z.of_nat (List.length t) <? 2); [reflexivity|].
    now apply rows_absorbed. }
  rewrite E. apply IH. intros t' Ht'. apply H. now right.
Qed.

(** X11. The second extraction of a page adds nothing when it finds only
    tables the first extraction found as well: each of their rows is
    rejected again or stopped by the duplicate check, so the records are
    the ones the first extraction alone gives. *)
Theorem second_extraction_adds_nothing (records : list record)
    (tables tables2 : list raw_table) :
  incl tables2 tables ->
  process_page float_in_range float_str I records
    (Returned tables, Returned tables2)
  = process_page float_in_range float_str I records (Returned tables, Raised).
Proof.
  intros Hincl. unfold process_page. cbn [fst snd]. cbv zeta.
  rewrite app_nil_r.
  destruct tables as [|t tables].
  - destruct tables2 as [|t2 tables2]; [reflexivity|].
    destruct (Hincl t2 (or_introl eq_refl)).
  - cbn [app].
    change (t :: (tables ++ tables2)%list) with ((t :: tables) ++ tables2)%list.
    unfold process_tables at 1. rewrite fold_left_app.
    fold (process_tables float_in_range float_str I records (t :: tables)).
    apply process_tables_absorbed.
    intros t2 Ht2. apply process_tables_absorbed_after. now apply Hincl.
Qed.

End Repetition.

Lemma second_extraction_adds_nothing_witness :
  incl [jane_table] [jane_table]
  /\ process_page (fun _ => false) (fun t => t) "City College" []
       (Returned [jane_table], Returned [jane_table])
     = process_page (fun _ => false) (fun t => t) "City College" []
         (Returned [jane_table], Raised).
Proof.
  split; [apply incl_refl|].
  apply (second_extraction_adds_nothing (fun _ => false) (fun t => t)
           "City College" [] [jane_table] [jane_table]).
  apply incl_refl.
Defined.
(* ================================================================== *)
(** * Where the inferred values come from *)

Lemma in_column_dec (c : column) (l : list (column * string)) :
  In c (map fst l) \/ ~ In c (map fst l).
Proof.
  induction l as [|[c' v] l IH]; [now right|]. cbn [map fst In].
  destruct (column_eqb c' c) eqn:E.
  - apply column_eqb_eq in E. auto.
  - destruct IH as [IH | IH]; [auto | right].
    intros [H | H]; [|contradiction].
    apply column_eqb_eq in H. congruence.
Qed.

(** A column that no longer holds its initial value has been logged. *)
Lemma changed_logged (r0 : record) (st : state) (c : column) :
  log_inv r0 st -> record_of st c <> r0 c -> In (c, record_of st c) (writes st).
Proof.
  intros [_ Hlog Hrest] Hc.
  destruct (in_column_dec c (writes st)) as [Hin | Hn].
  - apply in_map_iff in Hin as ([c' v] & E & Hin). simpl in E. subst c'.
    destruct (Hlog c v Hin) as (-> & _). exact Hin.
  - now apply Hrest in Hn.
Qed.

(** The assignment a detection block makes: what is left to show is that
    the cell justifies the value, for "Leaving Date" that "Joining Date"
    has been filled, and for "Association type" that the value is not yet
    among the values of the record. *)
Ltac stored :=
  eexists _, _; split; [reflexivity|];
  split; [|split; try (let E := fresh in intros E; discriminate E)].

Section ProvenanceFacts.

Variable float_in_range : string -> bool.
Variable float_str : string -> string.

Lemma rule_age_justified (cv : string) (st st' : state) :
  rule_age cv st = Some st' ->
  exists k v, st' = fill k v st
              /\ justified float_in_range float_str cv (column_of k) v
              /\ (k = Filled.LeavingDate ->
                  filled_fields st Filled.JoiningDate = true)
              /\ (k = Filled.Association ->
                  in_values v (record_of st) = false).
Proof.
  unfold rule_age. cbv zeta. intros H.
  destruct (negb (filled_fields st Filled.Age)); [|discriminate].
  destruct (safe_extract_number cv) as [a|] eqn:Ea; [|discriminate].
  destruct (truthy (Some a) && in_age_band a && (Str.len cv <=? 3)) eqn:Et;
    [|discriminate].
  injection H as <-. stored.
  cbn [column_of justified]. exists a.
  apply andb_true_iff in Et as [Et Hl]. apply andb_true_iff in Et as [_ Hb].
  unfold in_age_band in Hb. apply andb_true_iff in Hb as [H1 H2].
  apply Z.leb_le in H1, H2, Hl. unfold Str.len in Hl.
  repeat split; try assumption; lia.
Qed.

Lemma rule_gender_justified (cv : string) (st st' : state) :
  rule_gender cv (Str.lower cv) st = Some st' ->
  exists k v, st' = fill k v st
              /\ justified float_in_range float_str cv (column_of k) v
              /\ (k = Filled.LeavingDate ->
                  filled_fields st Filled.JoiningDate = true)
              /\ (k = Filled.Association ->
                  in_values v (record_of st) = false).
Proof.
  unfold rule_gender. intros H.
  destruct (negb (filled_fields st Filled.Gender)); [|discriminate].
  destruct (Str.mem (Str.lower cv) ["m"; "f"; "male"; "female"; "man"; "woman"]
            || Str.mem (Str.upper cv) ["M"; "F"]
            || Re.match_to_end Pattern.m_or_f (Str.lower cv)) eqn:Et;
    [|discriminate].
  injection H as <-. stored.
  cbn [column_of justified]. now split.
Qed.

Lemma rule_designation_justified (cv : string) (st st' : state) :
  rule_designation cv (Str.lower cv) st = Some st' ->
  exists k v, st' = fill k v st
              /\ justified float_in_range float_str cv (column_of k) v
              /\ (k = Filled.LeavingDate ->
                  filled_fields st Filled.JoiningDate = true)
              /\ (k = Filled.Association ->
                  in_values v (record_of st) = false).
Proof.
  unfold rule_designation. intros H.
  destruct (negb (filled_fields st Filled.Designation)); [|discriminate].
  destruct (Str.contains_any designation_keywords (Str.lower cv)) eqn:Et;
    [|discriminate].
  injection H as <-. stored.
  cbn [column_of justified]. now split.
Qed.

Lemma rule_experience_justified (cv : string) (st st' : state) :
  rule_experience float_in_range float_str cv (Str.lower cv) st = Some st' ->
  exists k v, st' = fill k v st
              /\ justified float_in_range float_str cv (column_of k) v
              /\ (k = Filled.LeavingDate ->
                  filled_fields st Filled.JoiningDate = true)
              /\ (k = Filled.Association ->
                  in_values v (record_of st) = false).
Proof.
  unfold rule_experience. cbv zeta. intros H.
  destruct (negb (filled_fields st Filled.Experience)); [|discriminate].
  destruct (Re.search Pattern.digits cv) eqn:Hn.
  - rewrite andb_true_r in H.
    destruct (Str.contains_any experience_indicators (Str.lower cv)) eqn:Ek.
    + injection H as <-. stored.
      cbn [column_of justified]. left. auto.
    + unfold experience_pure_number in H. cbv zeta in H.
      destruct (safe_extract_number cv) as [n|] eqn:En.
      * destruct (truthy (Some n) && negb (in_age_band n) && in_months_band n)
          eqn:Eb.
        -- injection H as <-. stored.
           cbn [column_of justified]. left. split; [exact Hn|].
           split; [|reflexivity]. right. exists n.
           apply andb_true_iff in Eb as [Eb Hm].
           apply andb_true_iff in Eb as [Ht Ha].
           cbn [truthy] in Ht. apply negb_true_iff in Ht, Ha.
           apply Z.eqb_neq in Ht. auto.
        -- unfold experience_decimal in H.
           destruct (first_decimal cv) as [t|] eqn:Et; [|discriminate].
           destruct (float_in_range t) eqn:Ef; [|discriminate].
           injection H as <-. stored.
           cbn [column_of justified]. right. exists t. auto.
      * unfold experience_decimal in H.
        destruct (first_decimal cv) as [t|] eqn:Et; [|discriminate].
        destruct (float_in_range t) eqn:Ef; [|discriminate].
        injection H as <-. stored.
        cbn [column_of justified]. right. exists t. auto.
  - rewrite andb_false_r in H. unfold experience_decimal in H.
    destruct (first_decimal cv) as [t|] eqn:Et; [|discriminate].
    destruct (float_in_range t) eqn:Ef; [|discriminate].
    injection H as <-. stored.
    cbn [column_of justified]. right. exists t. auto.
Qed.

Lemma rule_working_justified (cv : string) (st st' : state) :
  rule_working cv (Str.lower cv) st = Some st' ->
  exists k v, st' = fill k v st
              /\ justified float_in_range float_str cv (column_of k) v
              /\ (k = Filled.LeavingDate ->
                  filled_fields st Filled.JoiningDate = true)
              /\ (k = Filled.Association ->
                  in_values v (record_of st) = false).
Proof.
  unfold rule_working. intros H.
  destruct (negb (filled_fields st Filled.Working)); [|discriminate].
  destruct (Str.contains_any working_patterns (Str.lower cv)) eqn:Et;
    [|discriminate].
  injection H as <-. stored.
  cbn [column_of justified]. now split.
Qed.

Lemma rule_date_justified (cv : string) (st st' : state) :
  rule_date cv st = Some st' ->
  exists k v, st' = fill k v st
              /\ justified float_in_range float_str cv (column_of k) v
              /\ (k = Filled.LeavingDate ->
                  filled_fields st Filled.JoiningDate = true)
              /\ (k = Filled.Association ->
                  in_values v (record_of st) = false).
Proof.
  unfold rule_date. cbv zeta. intros H.
  destruct (negb (filled_fields st Filled.JoiningDate)
            || negb (filled_fields st Filled.LeavingDate)); [|discriminate].
  destruct (List.existsb (fun p => Re.search p cv) Pattern.date_patterns
            || Re.search Pattern.four_digits cv) eqn:Et; [|discriminate].
  destruct (negb (filled_fields st Filled.JoiningDate)) eqn:Ej.
  - injection H as <-. stored.
    cbn [column_of justified]. now split.
  - destruct (negb (filled_fields st Filled.LeavingDate)); [|discriminate].
    injection H as <-. stored.
    + cbn [column_of justified]. now split.
    + intros _. now apply negb_false_iff in Ej.
Qed.

Lemma rule_qualification_justified (cv : string) (st st' : state) :
  rule_qualification cv (Str.lower cv) st = Some st' ->
  exists k v, st' = fill k v st
              /\ justified float_in_range float_str cv (column_of k) v
              /\ (k = Filled.LeavingDate ->
                  filled_fields st Filled.JoiningDate = true)
              /\ (k = Filled.Association ->
                  in_values v (record_of st) = false).
Proof.
  unfold rule_qualification. cbv zeta. intros H.
  destruct (negb (filled_fields st Filled.Qualification)); [|discriminate].
  fold (qualification_test cv) in H.
  destruct (qualification_test cv) eqn:Et; [|discriminate].
  injection H as <-. stored. cbn [column_of justified]. auto.
Qed.

Lemma rule_association_justified (cv : string) (st st' : state) :
  rule_association cv st = Some st' ->
  exists k v, st' = fill k v st
              /\ justified float_in_range float_str cv (column_of k) v
              /\ (k = Filled.LeavingDate ->
                  filled_fields st Filled.JoiningDate = true)
              /\ (k = Filled.Association ->
                  in_values v (record_of st) = false).
Proof.
  unfold rule_association. intros H.
  destruct (negb (filled_fields st Filled.Association)); [|discriminate].
  fold (association_test cv) in H.
  destruct (association_test cv) eqn:Et; [|discriminate].
  destruct (negb (in_values cv (record_of st))) eqn:Ev; [|discriminate].
  injection H as <-. stored; [cbn [column_of justified]; auto|].
  intros _. now apply negb_true_iff in Ev.
Qed.

(** One iteration of the scan leaves the state alone or stores a value the
    cell justifies. *)
Lemma scan_cell_justified (st : state) (raw : string) :
  scan_cell float_in_range float_str st raw = st
  \/ exists k v,
       scan_cell float_in_range float_str st raw = fill k v st
       /\ justified float_in_range float_str (Str.strip raw) (column_of k) v
       /\ (k = Filled.LeavingDate -> filled_fields st Filled.JoiningDate = true)
       /\ (k = Filled.Association -> in_values v (record_of st) = false).
Proof.
  unfold scan_cell. cbv zeta.
  destruct (Str.is_empty (Str.strip raw)
            || Str.mem (Str.lower (Str.strip raw)) ["nan"; "none"; ""]);
    [now left|].
  set (cv := Str.strip raw). unfold rules. cbn [first_match].
  destruct (rule_age cv st) eqn:E1; [right; eapply rule_age_justified; eauto|].
  destruct (rule_gender cv (Str.lower cv) st) eqn:E2;
    [right; eapply rule_gender_justified; eauto|].
  destruct (rule_designation cv (Str.lower cv) st) eqn:E3;
    [right; eapply rule_designation_justified; eauto|].
  destruct (rule_experience float_in_range float_str cv (Str.lower cv) st) eqn:E4;
    [right; eapply rule_experience_justified; eauto|].
  destruct (rule_working cv (Str.lower cv) st) eqn:E5;
    [right; eapply rule_working_justified; eauto|].
  destruct (rule_date cv st) eqn:E6; [right; eapply rule_date_justified; eauto|].
  destruct (rule_qualification cv (Str.lower cv) st) eqn:E7;
    [right; eapply rule_qualification_justified; eauto|].
  destruct (rule_association cv st) eqn:E8;
    [right; eapply rule_association_justified; eauto|].
  now left.
Qed.

Lemma from_cells_cons (raw : string) (cells : list string) (c : column)
    (v : string) :
  from_cells float_in_range float_str cells c v ->
  from_cells float_in_range float_str (raw :: cells) c v.
Proof. intros (x & Hx & H). exists x. split; [now right | exact H]. Qed.

Lemma writes_scan (cells : list string) (st : state) (c : column) (v : string) :
  In (c, v) (writes (scan float_in_range float_str cells st)) ->
  In (c, v) (writes st) \/ from_cells float_in_range float_str cells c v.
Proof.
  unfold scan. revert st. induction cells as [|raw cells IH]; intros st;
    cbn [fold_left]; [now left|].
  intros H. apply IH in H as [H | H]; [|right; now apply from_cells_cons].
  destruct (scan_cell_justified st raw) as [E | (k & w & E & Hj & _ & _)];
    rewrite E in H; [now left|].
  cbn [fill writes] in H. destruct H as [H | H]; [|now left].
  injection H as <- <-. right. exists raw. split; [now left | exact Hj].
Qed.

Lemma remaining_from_cells (cells : list string) (r : record) (x : string) :
  In x (remaining_cells_of cells r) ->
  exists raw, In raw cells /\ x = Str.strip raw /\ in_values x r = false.
Proof.
  unfold remaining_cells_of. intros H. apply filter_In in H as [Hin Ht].
  apply in_map_iff in Hin as (raw & <- & Hraw). exists raw.
  repeat split; try assumption.
  apply andb_true_iff in Ht as [Ht _]. apply andb_true_iff in Ht as [Ht _].
  apply andb_true_iff in Ht as [_ Ht]. now apply negb_true_iff.
Qed.

(** What a fallback pass logs: nothing, or the rendering of a remaining
    cell that passes its test. *)
Lemma writes_fallback (c : column) (test : string -> bool)
    (render : string -> string) (consume : bool) (p : state * list string) :
  (writes (fst (fallback c test render consume p)) = writes (fst p)
   \/ exists x, In x (snd p) /\ test x = true
                /\ writes (fst (fallback c test render consume p))
                   = (c, render x) :: writes (fst p))
  /\ incl (snd (fallback c test render consume p)) (snd p).
Proof.
  destruct p as [st rem]. unfold fallback. cbn [fst snd].
  destruct (Str.is_empty (record_of st c) && negb (Nat.eqb (List.length rem) 0));
    [|split; [now left | apply incl_refl]].
  destruct (find test rem) as [x|] eqn:Ef; [|split; [now left | apply incl_refl]].
  apply find_some in Ef as [Hin Ht]. cbn [fst snd]. split.
  - right. exists x. auto.
  - destruct consume; [|apply incl_refl].
    intros y Hy. eapply remove_first_incl; eauto.
Qed.

Lemma fallback_step (c : column) (test : string -> bool)
    (render : string -> string) (consume : bool) (p : state * list string)
    (c' : column) (v : string) :
  In (c', v) (writes (fst (fallback c test render consume p))) ->
  In (c', v) (writes (fst p))
  \/ (c' = c /\ exists x, In x (snd p) /\ test x = true /\ v = render x).
Proof.
  destruct (writes_fallback c test render consume p)
    as [[-> | (x & Hx & Ht & ->)] _]; [now left|].
  intros [H | H]; [|now left].
  injection H as <- <-. right. split; [reflexivity|]. eauto.
Qed.

Lemma writes_fallbacks (cells : list string) (st : state) (c : column)
    (v : string) :
  In (c, v) (writes (fallbacks cells st)) ->
  In (c, v) (writes st)
  \/ (In c [Experience_in_years; Qualification; Association_type]
      /\ from_cells float_in_range float_str cells c v).
Proof.
  unfold fallbacks. cbv zeta.
  set (p0 := (st, remaining_cells_of cells (record_of st))).
  set (p1 := fallback Experience_in_years _ _ _ p0).
  set (p2 := fallback Qualification _ _ _ p1).
  assert (R0 : forall x, In x (snd p0) ->
                 exists raw, In raw cells /\ x = Str.strip raw).
  { intros x Hx. apply remaining_from_cells in Hx as (raw & ? & ? & _). eauto. }
  assert (R1 : forall x, In x (snd p1) ->
                 exists raw, In raw cells /\ x = Str.strip raw).
  { intros x Hx. apply R0. revert Hx. apply writes_fallback. }
  assert (R2 : forall x, In x (snd p2) ->
                 exists raw, In raw cells /\ x = Str.strip raw).
  { intros x Hx. apply R1. revert Hx. apply writes_fallback. }
  intros H.
  apply fallback_step in H as [H | (-> & x & Hx & Ht & ->)].
  2: { right. split; [simpl; tauto|].
       destruct (R2 x Hx) as (raw & Hraw & ->). exists raw.
       split; [exact Hraw|]. cbn [justified]. auto. }
  apply fallback_step in H as [H | (-> & x & Hx & Ht & ->)].
  2: { right. split; [simpl; tauto|].
       destruct (R1 x Hx) as (raw & Hraw & ->). exists raw.
       split; [exact Hraw|]. cbn [justified]. auto. }
  apply fallback_step in H as [H | (-> & x & Hx & Ht & ->)]; [now left|].
  right. split; [simpl; tauto|].
  destruct (R0 x Hx) as (raw & Hraw & ->). exists raw.
  split; [exact Hraw|]. cbn [justified]. left.
  unfold experience_candidate in Ht. cbv zeta in Ht.
  apply andb_true_iff in Ht as [Hd Ht]. split; [exact Hd|].
  split; [|reflexivity]. right.
  destruct (safe_extract_number (Str.strip raw)) as [n|] eqn:En;
    [|discriminate].
  exists n. apply andb_true_iff in Ht as [Ht Ha].
  apply andb_true_iff in Ht as [Ht Hm].
  cbn [truthy] in Ht. apply negb_true_iff in Ht, Ha.
  apply Z.eqb_neq in Ht. auto.
Qed.

End ProvenanceFacts.
(* ================================================================== *)
(** * The returned record, column by column *)

Lemma char_lower_m_f (c : ascii) :
  (Char.lower c = "m"%char -> Char.upper c = "M"%char)
  /\ (Char.lower c = "f"%char -> Char.upper c = "F"%char)
  /\ (Char.lower c = "010"%char -> c = "010"%char).
Proof.
  destruct c as [[] [] [] [] [] [] [] []]; vm_compute;
    repeat split; intros H; solve [reflexivity | discriminate H].
Qed.

Lemma lower_one (s : string) (c : ascii) :
  Str.lower s = String c "" -> exists d, s = String d "" /\ Char.lower d = c.
Proof.
  destruct s as [|d [|e s]]; cbn; intros H; try discriminate.
  injection H as H. eauto.
Qed.

Lemma lower_m_f (s : string) :
  (Str.lower s = "m" -> Str.upper s = "M")
  /\ (Str.lower s = "f" -> Str.upper s = "F").
Proof.
  split; intros H; apply lower_one in H as (d & -> & Hd); cbn;
    f_equal; now apply char_lower_m_f.
Qed.

(** The words [^(m|f)$] matches. *)
Lemma match_m_or_f (s : string) :
  Re.match_to_end Pattern.m_or_f s = true ->
  s = "m" \/ s = "f"
  \/ s = String "m" (String "010" "") \/ s = String "f" (String "010" "").
Proof.
  unfold Re.match_to_end. rewrite fullmatch_lang. intros H.
  apply lang_seq_inv in H as (s1 & s2 & -> & H1 & H2).
  assert (E1 : s1 = "m" \/ s1 = "f").
  { unfold Pattern.m_or_f, Re.chr in H1.
    apply lang_alt_inv in H1 as [H1 | H1];
      apply lang_cls_inv in H1 as (c & -> & Hc);
      apply Ascii.eqb_eq in Hc; subst c; auto. }
  assert (E2 : s2 = "" \/ s2 = String "010" "").
  { apply lang_alt_inv in H2 as [H2 | H2].
    - left. now apply lang_eps_inv.
    - right. apply lang_cls_inv in H2 as (c & -> & Hc).
      apply Ascii.eqb_eq in Hc. now subst c. }
  destruct E1 as [-> | ->], E2 as [-> | ->]; cbn; auto.
Qed.

Lemma no_trail_line_feed (c : ascii) (s : string) :
  no_trail s = true -> Str.lower s <> String c (String "010" "").
Proof.
  intros Ht H.
  destruct s as [|d [|e [|f s]]]; cbn in H; try discriminate.
  injection H as _ He. apply char_lower_m_f in He. subst e.
  cbn in Ht. discriminate.
Qed.


Lemma initial_inferred (row : list string) (I : string) (s : Z) (c : column) :
  inferred c -> initial_record row I s c = "".
Proof. intros [k ->]. now destruct k. Qed.

Section RecordFacts.

Variable float_in_range : string -> bool.
Variable float_str : string -> string.


(** A non-empty inferred column of the final record has been logged, with
    a value some cell justifies. *)
Lemma infer_provenance (row : list string) (I : string) (s : Z) (c : column) :
  inferred c ->
  record_of (infer float_in_range float_str row I s) c <> "" ->
  In (c, record_of (infer float_in_range float_str row I s) c)
     (writes (infer float_in_range float_str row I s))
  /\ from_cells float_in_range float_str (skipn 2 row) c
       (record_of (infer float_in_range float_str row I s) c).
Proof.
  intros Hc Hne.
  assert (Hw : In (c, record_of (infer float_in_range float_str row I s) c)
                  (writes (infer float_in_range float_str row I s))).
  { apply (changed_logged (initial_record row I s)); [apply infer_inv|].
    now rewrite initial_inferred. }
  split; [exact Hw|].
  unfold infer in Hw. cbv zeta in Hw.
  apply writes_fallbacks with (float_in_range := float_in_range)
                              (float_str := float_str) in Hw
    as [Hw | [_ Hw]]; [|exact Hw].
  apply writes_scan in Hw as [Hw | Hw]; [destruct Hw | exact Hw].
Qed.

Lemma from_cells_index (row : list string) (c : column) (v : string) :
  from_cells float_in_range float_str (skipn 2 row) c v ->
  exists i, (2 <= i < List.length row)%nat
            /\ justified float_in_range float_str (Str.strip (nth i row "")) c v.
Proof.
  intros (raw & Hin & Hj).
  apply (In_nth _ _ "") in Hin as (j & Hj1 & Hj2).
  rewrite nth_skipn in Hj2. rewrite length_skipn in Hj1.
  exists (2 + j)%nat. split; [lia | now rewrite Hj2].
Qed.

(** X14. Every inferred column of a returned record is empty or holds a
    value that one cell of the row, at index 2 or beyond, justifies: the
    test of the column's detection block holds of the trimmed cell or, for
    "Experience (in years)", "Qualification" and "Association type", the
    test of the column's fallback pass does; and the value is the trimmed
    cell itself ("Designation", "Qualification", working status, the
    dates, "Association type"), the numeral of the number read from it
    ("Age"), its capital letter or the cell itself ("Gender"), or its
    conversion to years ("Experience (in years)").  Nothing is made up and
    nothing comes from the first two cells. *)
Theorem inferred_values_come_from_cells (row : list string) (I : string)
    (s : Z) (r : record) (c : column) :
  create_enhanced_record_with_years float_in_range float_str row I s = Some r ->
  inferred c ->
  r c = ""
  \/ exists i,
       (2 <= i < List.length row)%nat
       /\ justified float_in_range float_str (Str.strip (nth i row "")) c (r c).
Proof.
  intros H Hc. apply create_some in H. subst r.
  destruct (string_dec (record_of (infer float_in_range float_str row I s) c) "")
    as [E | E]; [now left | right].
  apply from_cells_index. now apply infer_provenance.
Qed.

(** X15. The engine writes "S No" and "Institution name" once, in the dict
    literal, and never again: the returned record carries [str(serial_num)]
    and the institution name it was given, whatever the cells hold. *)
Theorem identity_columns_kept (row : list string) (I : string) (s : Z)
    (r : record) :
  create_enhanced_record_with_years float_in_range float_str row I s = Some r ->
  r S_No = Str.of_int s /\ r Institution_name = I.
Proof.
  intros H. apply create_some in H. subst r.
  split; apply identity_kept; apply not_inferred; auto.
Qed.


End RecordFacts.
(* ================================================================== *)
(** * Cells that hold a number *)

Lemma existsb_app_str (p : ascii -> bool) (s t : string) :
  Str.existsb p (s ++ t) = Str.existsb p s || Str.existsb p t.
Proof.
  induction s as [|c s IH]; [reflexivity|].
  cbn [append Str.existsb]. now rewrite IH, orb_assoc.
Qed.

Lemma existsb_digit_spec (s : string) :
  Str.existsb Char.is_digit s = true <-> has_digit s.
Proof.
  split.
  - induction s as [|c s IH]; [discriminate|]. cbn [Str.existsb].
    destruct (Char.is_digit c) eqn:Ec.
    + intros _. now exists "", c, s.
    + intros H. destruct (IH H) as (pre & d & post & -> & Hd).
      now exists (String c pre), d, post.
  - intros (pre & c & post & -> & Hc). rewrite existsb_app_str.
    cbn [Str.existsb]. rewrite Hc. now rewrite orb_true_r.
Qed.

Lemma search_digits (s : string) :
  Re.search Pattern.digits s = true <-> has_digit s.
Proof.
  rewrite search_lang. unfold has_digit, Pattern.digits, Re.plus. split.
  - intros (pre & m & post & -> & H).
    apply lang_seq_inv in H as (m1 & m2 & -> & H1 & _).
    apply lang_cls_inv in H1 as (c & -> & Hc).
    exists pre, c, (m2 ++ post). split; [|exact Hc].
    now rewrite append_assoc.
  - intros (pre & c & post & -> & Hc). exists pre, (String c ""), post.
    split; [reflexivity|].
    rewrite <- (append_nil_r (String c "")). constructor; constructor. exact Hc.
Qed.

Lemma number_has_digit (s : string) (n : Z) :
  safe_extract_number s = Some n -> Str.existsb Char.is_digit s = true.
Proof.
  intros H. apply safe_extract_number_spec in H as (run & Hrun & _).
  apply existsb_digit_spec. eapply first_digit_run_has_digit; eauto.
Qed.

Lemma char_case_digit (c : ascii) :
  Char.is_digit (Char.lower c) = Char.is_digit c
  /\ Char.is_digit (Char.upper c) = Char.is_digit c.
Proof. destruct c as [[] [] [] [] [] [] [] []]; vm_compute; now split. Qed.

Lemma existsb_digit_lower (s : string) :
  Str.existsb Char.is_digit (Str.lower s) = Str.existsb Char.is_digit s.
Proof.
  unfold Str.lower. induction s as [|c s IH]; [reflexivity|].
  cbn [Str.map Str.existsb]. rewrite IH.
  now destruct (char_case_digit c) as [-> _].
Qed.

Lemma existsb_digit_upper (s : string) :
  Str.existsb Char.is_digit (Str.upper s) = Str.existsb Char.is_digit s.
Proof.
  unfold Str.upper. induction s as [|c s IH]; [reflexivity|].
  cbn [Str.map Str.existsb]. rewrite IH.
  now destruct (char_case_digit c) as [_ ->].
Qed.

(** A cell that holds a digit is not skipped. *)
Lemma digit_not_skipped (cv : string) :
  Str.existsb Char.is_digit cv = true ->
  Str.is_empty cv || Str.mem (Str.lower cv) ["nan"; "none"; ""] = false.
Proof.
  intros H.
  destruct (Str.is_empty cv || Str.mem (Str.lower cv) ["nan"; "none"; ""]) eqn:E;
    [exfalso | reflexivity].
  rewrite <- existsb_digit_lower in H.
  apply orb_true_iff in E as [E | E].
  - apply is_empty_true in E. subst cv. discriminate.
  - apply mem_spec in E. cbn [In] in E.
    destruct E as [E | [E | [E | []]]]; rewrite <- E in H; discriminate.
Qed.

(** A cell that holds a digit does not pass the test of the Gender block. *)
Lemma digit_not_gender (cv : string) (st : state) :
  Str.existsb Char.is_digit cv = true ->
  rule_gender cv (Str.lower cv) st = None.
Proof.
  intros H. unfold rule_gender.
  destruct (negb (filled_fields st Filled.Gender)); [|reflexivity].
  destruct (Str.mem (Str.lower cv) ["m"; "f"; "male"; "female"; "man"; "woman"]
            || Str.mem (Str.upper cv) ["M"; "F"]
            || Re.match_to_end Pattern.m_or_f (Str.lower cv)) eqn:E;
    [exfalso | reflexivity].
  assert (Hl := H). rewrite <- existsb_digit_lower in Hl.
  assert (Hu := H). rewrite <- existsb_digit_upper in Hu.
  apply orb_true_iff in E as [E | E]; [apply orb_true_iff in E as [E | E]|].
  - apply mem_spec in E. cbn [In] in E.
    repeat (destruct E as [E | E]; [rewrite <- E in Hl; discriminate|]).
    exact E.
  - apply mem_spec in E. cbn [In] in E.
    repeat (destruct E as [E | E]; [rewrite <- E in Hu; discriminate|]).
    exact E.
  - apply match_m_or_f in E.
    destruct E as [E | [E | [E | E]]]; rewrite E in Hl; discriminate.
Qed.

Lemma truthy_nonzero (n : Z) : n <> 0 -> truthy (Some n) = true.
Proof. intros H. cbn. now apply negb_true_iff, Z.eqb_neq. Qed.

Lemma in_age_band_spec (n : Z) : in_age_band n = true <-> 18 <= n <= 80.
Proof. unfold in_age_band. rewrite andb_true_iff, !Z.leb_le. tauto. Qed.

Lemma in_months_band_spec (n : Z) : in_months_band n = true <-> 1 <= n <= 600.
Proof. unfold in_months_band. rewrite andb_true_iff, !Z.leb_le. tauto. Qed.

Lemma not_in_age_band (n : Z) : ~ 18 <= n <= 80 -> in_age_band n = false.
Proof.
  intros H. destruct (in_age_band n) eqn:E; [|reflexivity].
  now apply in_age_band_spec in E.
Qed.

(** The Age block lets a number outside the age band pass. *)
Lemma rule_age_passes (cv : string) (n : Z) (st : state) :
  safe_extract_number cv = Some n -> ~ 18 <= n <= 80 -> rule_age cv st = None.
Proof.
  intros Hn Hb. unfold rule_age. cbv zeta. rewrite Hn.
  rewrite (not_in_age_band n Hb), andb_false_r. cbn [andb].
  now destruct (negb (filled_fields st Filled.Age)).
Qed.

Section NumberFacts.

Variable float_in_range : string -> bool.
Variable float_str : string -> string.

(** The Experience block takes a cell whose number is a plausible count of
    months and no age. *)
Lemma rule_experience_takes (cv : string) (n : Z) (st : state) :
  filled_fields st Filled.Experience = false ->
  safe_extract_number cv = Some n -> 1 <= n <= 600 -> ~ 18 <= n <= 80 ->
  rule_experience float_in_range float_str cv (Str.lower cv) st
  = Some (fill Filled.Experience (convert_months_to_years cv) st).
Proof.
  intros He Hn Hm Hb. unfold rule_experience. cbv zeta. rewrite He. cbn [negb].
  assert (Hd : Re.search Pattern.digits cv = true).
  { apply search_digits, existsb_digit_spec. eapply number_has_digit; eauto. }
  rewrite Hd, andb_true_r.
  destruct (Str.contains_any experience_indicators (Str.lower cv)); [reflexivity|].
  unfold experience_pure_number. cbv zeta. rewrite Hn.
  rewrite (truthy_nonzero n) by lia. rewrite (not_in_age_band n Hb).
  assert (Em : in_months_band n = true) by now apply in_months_band_spec.
  now rewrite Em.
Qed.

Lemma scan_cell_unfold (st : state) (raw : string) :
  Str.existsb Char.is_digit (Str.strip raw) = true ->
  scan_cell float_in_range float_str st raw
  = first_match (rules float_in_range float_str (Str.strip raw)
                   (Str.lower (Str.strip raw))) st.
Proof.
  intros H. unfold scan_cell. cbv zeta. now rewrite (digit_not_skipped _ H).
Qed.

(** A cell of at most three characters whose number lies between 18 and
    80 is stored as "Age" whenever "Age" is still unset. *)
Lemma age_step (st : state) (raw : string) (a : Z) :
  filled_fields st Filled.Age = false ->
  safe_extract_number (Str.strip raw) = Some a -> 18 <= a <= 80 ->
  (String.length (Str.strip raw) <= 3)%nat ->
  scan_cell float_in_range float_str st raw = fill Filled.Age (Str.of_int a) st.
Proof.
  intros Hf Ha Hb Hl.
  rewrite scan_cell_unfold by (eapply number_has_digit; eauto).
  unfold rules. cbn [first_match]. unfold rule_age. cbv zeta.
  rewrite Hf, Ha. cbn [negb]. rewrite (truthy_nonzero a) by lia.
  assert (E1 : in_age_band a = true) by now apply in_age_band_spec.
  assert (E2 : (Str.len (Str.strip raw) <=? 3) = true).
  { apply Z.leb_le. unfold Str.len. lia. }
  now rewrite E1, E2.
Qed.

(** X19. A cell whose first number lies between 1 and 600 and outside 18 to
    80 is stored as "Experience (in years)", converted as a count of
    months, whenever that column is still unset and the Designation block
    does not take the cell: a date such as "12/2019" or "05-03-2021" is
    taken for 12 or 5 months of experience. *)
Theorem small_number_becomes_experience (st : state) (raw : string) (n : Z) :
  filled_fields st Filled.Experience = false ->
  safe_extract_number (Str.strip raw) = Some n -> 1 <= n <= 600 ->
  ~ 18 <= n <= 80 ->
  filled_fields st Filled.Designation = true
  \/ Str.contains_any designation_keywords (Str.lower (Str.strip raw)) = false ->
  scan_cell float_in_range float_str st raw
  = fill Filled.Experience (convert_months_to_years (Str.strip raw)) st.
Proof.
  intros He Hn Hm Hb Hd.
  assert (Hdig : Str.existsb Char.is_digit (Str.strip raw) = true)
    by (eapply number_has_digit; eauto).
  rewrite scan_cell_unfold by exact Hdig.
  unfold rules. cbn [first_match].
  rewrite (rule_age_passes _ n st Hn Hb), (digit_not_gender _ st Hdig).
  assert (E3 : rule_designation (Str.strip raw) (Str.lower (Str.strip raw)) st
               = None).
  { unfold rule_designation. destruct Hd as [-> | ->]; [reflexivity|].
    now destruct (negb (filled_fields st Filled.Designation)). }
  rewrite E3. now rewrite (rule_experience_takes _ n st He Hn Hm Hb).
Qed.

(** After the iteration on a cell that the experience fallback would
    accept, "Experience" is flagged or the cell has been stored as
    "Designation". *)
Lemma candidate_step (st : state) (raw : string) :
  experience_candidate (Str.strip raw) = true ->
  filled_fields (scan_cell float_in_range float_str st raw) Filled.Experience = true
  \/ In (Designation, Str.strip raw)
        (writes (scan_cell float_in_range float_str st raw)).
Proof.
  unfold experience_candidate. cbv zeta. intros H.
  apply andb_true_iff in H as [_ H].
  destruct (safe_extract_number (Str.strip raw)) as [n|] eqn:Hn; [|discriminate].
  apply andb_true_iff in H as [H Hb]. apply andb_true_iff in H as [Ht Hm].
  apply in_months_band_spec in Hm.
  assert (Hb' : ~ 18 <= n <= 80).
  { intros Hc. apply in_age_band_spec in Hc. rewrite Hc in Hb. discriminate. }
  destruct (filled_fields st Filled.Experience) eqn:He.
  - left.
    destruct (scan_cell_fires float_in_range float_str st raw)
      as [-> | (k & v & -> & _)]; [exact He|].
    unfold fill. cbn [filled_fields]. unfold Filled.set. rewrite He.
    now destruct (Filled.key_eqb k Filled.Experience).
  - assert (Hdig : Str.existsb Char.is_digit (Str.strip raw) = true)
      by (eapply number_has_digit; eauto).
    rewrite scan_cell_unfold by exact Hdig.
    unfold rules. cbn [first_match].
    rewrite (rule_age_passes _ n st Hn Hb'), (digit_not_gender _ st Hdig).
    destruct (rule_designation (Str.strip raw) (Str.lower (Str.strip raw)) st)
      as [st'|] eqn:E3.
    + right. unfold rule_designation in E3.
      destruct (negb (filled_fields st Filled.Designation)); [|discriminate].
      destruct (Str.contains_any designation_keywords _); [|discriminate].
      injection E3 as <-. now left.
    + left. rewrite (rule_experience_takes _ n st He Hn Hm Hb').
      reflexivity.
Qed.

Lemma scan_cell_keeps (st : state) (raw : string) (w : column * string) :
  (filled_fields st Filled.Experience = true
   -> filled_fields (scan_cell float_in_range float_str st raw)
        Filled.Experience = true)
  /\ (In w (writes st) -> In w (writes (scan_cell float_in_range float_str st raw))).
Proof.
  destruct (scan_cell_fires float_in_range float_str st raw)
    as [-> | (k & v & -> & _)]; [tauto|].
  split.
  - intros He. unfold fill. cbn [filled_fields]. unfold Filled.set. rewrite He.
    now destruct (Filled.key_eqb k Filled.Experience).
  - intros Hw. now right.
Qed.

Lemma scan_keeps (cells : list string) (st : state) (w : column * string) :
  filled_fields st Filled.Experience = true \/ In w (writes st) ->
  filled_fields (scan float_in_range float_str cells st) Filled.Experience = true
  \/ In w (writes (scan float_in_range float_str cells st)).
Proof.
  unfold scan. revert st. induction cells as [|raw cells IH]; intros st H;
    [exact H|].
  cbn [fold_left]. apply IH.
  destruct (scan_cell_keeps st raw w) as [K1 K2]. tauto.
Qed.

Lemma scan_candidates (cells : list string) (st : state) (raw : string) :
  In raw cells -> experience_candidate (Str.strip raw) = true ->
  filled_fields (scan float_in_range float_str cells st) Filled.Experience = true
  \/ In (Designation, Str.strip raw)
        (writes (scan float_in_range float_str cells st)).
Proof.
  revert st. induction cells as [|x cells IH]; intros st; [intros []|].
  intros [-> | Hin] Hc.
  - unfold scan. cbn [fold_left]. apply scan_keeps. now apply candidate_step.
  - unfold scan. cbn [fold_left]. now apply IH.
Qed.

Lemma find_all_false (test : string -> bool) (l : list string) :
  (forall x, In x l -> test x = false) -> find test l = None.
Proof.
  induction l as [|x l IH]; intros H; [reflexivity|].
  cbn [find]. rewrite (H x) by now left. apply IH. intros y Hy. apply H. now right.
Qed.

(** X20. The special fallback for experience (lines 415-425) never assigns:
    when "Experience (in years)" is still empty after the scan, no
    remaining cell passes its test, because the scan has stored every such
    cell as experience or as designation.  The column of the returned
    record is the one the scan left. *)
Theorem experience_fallback_never_fires (row : list string) (I : string)
    (s : Z) :
  fallback Experience_in_years experience_candidate convert_months_to_years true
    (scan float_in_range float_str (skipn 2 row) (initial_state row I s),
     remaining_cells_of (skipn 2 row)
       (record_of (scan float_in_range float_str (skipn 2 row)
                     (initial_state row I s))))
  = (scan float_in_range float_str (skipn 2 row) (initial_state row I s),
     remaining_cells_of (skipn 2 row)
       (record_of (scan float_in_range float_str (skipn 2 row)
                     (initial_state row I s))))
  /\ record_of (infer float_in_range float_str row I s) Experience_in_years
     = record_of (scan float_in_range float_str (skipn 2 row)
                    (initial_state row I s)) Experience_in_years.
Proof.
  set (cells := skipn 2 row).
  set (st1 := scan float_in_range float_str cells (initial_state row I s)).
  destruct (initial_inv row I s) as [Hl0 Hf0].
  destruct (scan_inv float_in_range float_str _ cells _ Hl0 Hf0) as [Hl1 Hf1].
  fold st1 in Hl1, Hf1.
  assert (Dead : fallback Experience_in_years experience_candidate
                   convert_months_to_years true
                   (st1, remaining_cells_of cells (record_of st1))
                 = (st1, remaining_cells_of cells (record_of st1))).
  { unfold fallback.
    destruct (Str.is_empty (record_of st1 Experience_in_years)) eqn:Ee;
      [|reflexivity].
    cbn [andb].
    destruct (negb (Nat.eqb (List.length (remaining_cells_of cells (record_of st1))) 0));
      [|reflexivity].
    rewrite find_all_false; [reflexivity|].
    intros x Hx. apply remaining_from_cells in Hx as (raw & Hraw & -> & Hv).
    destruct (experience_candidate (Str.strip raw)) eqn:Ec; [exfalso | reflexivity].
    apply is_empty_true in Ee.
    destruct Hl1 as [_ Hlog _].
    destruct (scan_candidates cells (initial_state row I s) raw Hraw Ec)
      as [Hfl | Hw]; fold st1 in Hfl || fold st1 in Hw.
    - apply Hf1 in Hfl. apply in_map_iff in Hfl as ([c v] & Ec' & Hcv).
      simpl in Ec'. subst c.
      destruct (Hlog _ _ Hcv) as (E & [Hne _] & _).
      change (column_of Filled.Experience) with Experience_in_years in E.
      congruence.
    - destruct (Hlog _ _ Hw) as (E & _).
      assert (Hin : in_values (Str.strip raw) (record_of st1) = true)
        by (apply in_values_spec; eauto).
      congruence. }
  split; [exact Dead|].
  unfold infer. cbv zeta. fold cells. fold st1.
  unfold fallbacks. cbv zeta. rewrite Dead.
  set (p0 := (st1, remaining_cells_of cells (record_of st1))).
  set (p1 := fallback Qualification _ _ _ p0).
  assert (E1 : record_of (fst p1) Experience_in_years
               = record_of st1 Experience_in_years).
  { unfold p1, fallback, p0.
    destruct (_ && _); [|reflexivity].
    destruct (find _ _); reflexivity. }
  rewrite <- E1. unfold fallback. destruct p1 as [st2 rem2]. cbn [fst].
  destruct (_ && _); [|reflexivity].
  destruct (find _ _); reflexivity.
Qed.

End NumberFacts.
(* ================================================================== *)
(** * The workbook: its name, its rows, its sort keys *)

Lemma safe_filename_app (s t : string) :
  safe_filename (s ++ t) = safe_filename s ++ safe_filename t.
Proof.
  unfold safe_filename. induction s as [|c s IH]; [reflexivity|].
  cbn [append Str.map]. now rewrite IH.
Qed.

(** X21. The name of the workbook holds none of the nine reserved
    characters and is as long as the institution name; a name without
    reserved characters is kept as it is, so sanitizing twice changes
    nothing; and two institution names that differ only in which reserved
    character stands at some place get the same workbook name. *)
Theorem safe_filename_reserved_free (institution_name : string) :
  Str.existsb is_reserved (safe_filename institution_name) = false
  /\ String.length (safe_filename institution_name)
     = String.length institution_name
  /\ (Str.existsb is_reserved institution_name = false ->
        safe_filename institution_name = institution_name)
  /\ safe_filename (safe_filename institution_name)
     = safe_filename institution_name
  /\ (forall pre post c d,
        institution_name = pre ++ String c post ->
        is_reserved c = true -> is_reserved d = true ->
        excel_filename (pre ++ String d post) = excel_filename institution_name).
Proof.
  assert (H1 : forall s, Str.existsb is_reserved (safe_filename s) = false).
  { unfold safe_filename. induction s as [|c s IH]; [reflexivity|].
    cbn [Str.map Str.existsb]. rewrite IH.
    destruct (is_reserved c) eqn:E; [reflexivity | now rewrite E]. }
  assert (H3 : forall s, Str.existsb is_reserved s = false -> safe_filename s = s).
  { unfold safe_filename. induction s as [|c s IH]; [reflexivity|].
    cbn [Str.map Str.existsb]. intros H. apply orb_false_iff in H as [Hc Hs].
    now rewrite Hc, IH. }
  split; [apply H1|]. split; [apply str_length_map|]. split; [apply H3|].
  split; [apply H3, H1|].
  intros pre post c d -> Hc Hd. unfold excel_filename. f_equal.
  rewrite !safe_filename_app. f_equal.
  unfold safe_filename. cbn [Str.map]. now rewrite Hc, Hd.
Qed.

(** X22. [drop_duplicates(subset=["Name"], keep="first")] keeps a record
    exactly when no record before it carries the same "Name": of two
    records of one name the second never reaches the table, also when
    their serial numbers differ and the collection loop has kept both. *)
Theorem drop_duplicates_keeps_first (records : list record) (r : record) :
  (In r (drop_duplicates records) <->
   exists pre post,
     records = (pre ++ r :: post)%list
     /\ forall x, In x pre -> x Name <> r Name)
  /\ (forall r1 r2,
        r1 Name = r2 Name ->
        drop_duplicates [r1; r2] = [r1]
        /\ (r1 S_No <> r2 S_No -> collect [r1; r2] = [r1; r2])).
Proof.
  split.
  - unfold drop_duplicates. rewrite drop_duplicates_from_first. cbn [In]. tauto.
  - intros r1 r2 E. split.
    + unfold drop_duplicates. cbn [drop_duplicates_from Str.mem List.existsb].
      now rewrite E, String.eqb_refl.
    + intros Hs. unfold collect. cbn [fold_left].
      unfold add_record at 2. cbn [is_duplicate List.existsb app].
      unfold add_record, is_duplicate. cbn [List.existsb].
      apply String.eqb_neq in Hs. now rewrite Hs, andb_false_r.
Qed.

Section TableFacts.

Variable to_numeric : string -> option Q.
Variable sort_values : list (Q * record) -> list (Q * record).
Variable to_excel : string -> list (Z * record) -> outcome unit.
Variable path_join : string -> string -> string.

(** X23. When [sort_values] returns its rows rearranged, the function
    returns [None] exactly when there are no records or [to_excel] raises;
    otherwise it returns the path of the workbook named after the
    institution and the number of rows of the frame it has written, which
    is the number of records left after duplicate removal: at least 1 and
    at most the number of records. *)
Theorem saved_row_count (records : list record)
    (institution_name output_directory : string) :
  (forall rows, Permutation rows (sort_values rows)) ->
  (save_individual_college_excel to_numeric sort_values to_excel path_join
     records institution_name output_directory = None
   <-> records = []
       \/ to_excel (path_join output_directory (excel_filename institution_name))
            (final_frame to_numeric sort_values records) = Raised)
  /\ (forall path n,
        save_individual_college_excel to_numeric sort_values to_excel
          path_join records institution_name output_directory
        = Some (path, n) ->
        path = path_join output_directory (excel_filename institution_name)
        /\ n = Z.of_nat
                 (List.length (final_frame to_numeric sort_values records))
        /\ n = Z.of_nat (List.length (drop_duplicates records))
        /\ 1 <= n <= Z.of_nat (List.length records)).
Proof.
  intros Hperm. split; [apply save_none, Hperm|].
  intros path n H.
  apply (save_some to_numeric sort_values to_excel path_join Hperm) in H
    as (Hne & Hpath & Hn & _).
  split; [exact Hpath|]. split; [exact Hn|].
  rewrite (final_frame_length to_numeric sort_values Hperm) in Hn.
  split; [exact Hn|]. rewrite Hn. split.
  - destruct records as [|r0 rest]; [congruence|].
    unfold drop_duplicates.
    cbn [drop_duplicates_from Str.mem List.existsb List.length]. lia.
  - apply inj_le, drop_duplicates_from_length.
Qed.

End TableFacts.

Lemma saved_row_count_witness :
  (forall rows, Permutation rows (stable_sort rows))
  /\ save_individual_college_excel to_numeric_digits stable_sort
       always_written slash_join [asha; asha] "City College" "out"
     = Some ("out/City College_Faculty_Data.xlsx", 1)
  /\ 1 = Z.of_nat (List.length (drop_duplicates [asha; asha]))
  /\ 1 <= 1 <= Z.of_nat (List.length [asha; asha]).
Proof.
  assert (H : save_individual_college_excel to_numeric_digits stable_sort
                always_written slash_join [asha; asha] "City College" "out"
              = Some ("out/City College_Faculty_Data.xlsx", 1))
    by (vm_compute; reflexivity).
  destruct (saved_row_count to_numeric_digits stable_sort always_written
              slash_join [asha; asha] "City College" "out" stable_sort_perm)
    as [_ Hsome].
  destruct (Hsome _ _ H) as (_ & _ & Hn & Hb).
  exact (conj stable_sort_perm (conj H (conj Hn Hb))).
Defined.

Lemma to_numeric_digits_of_int (n : Z) :
  0 <= n -> to_numeric_digits (Str.of_int n) = Some (inject_Z n).
Proof.
  intros Hn. destruct (of_int_digits n Hn) as (Hne & Hd & Hv).
  unfold to_numeric_digits. rewrite Hd, Hv.
  apply is_empty_false in Hne. now rewrite Hne.
Qed.
(* ================================================================== *)
(** * The statements at work on example rows *)

Lemma inferred_values_come_from_cells_witness :
  create_enhanced_record_with_years (fun _ => false) (fun t => t)
    dated_row "City College" 4 = Some dated_record
  /\ inferred Gender
  /\ (dated_record Gender = ""
      \/ exists i,
           (2 <= i < List.length dated_row)%nat
           /\ justified (fun _ => false) (fun t => t)
                (Str.strip (nth i dated_row "")) Gender (dated_record Gender)).
Proof.
  assert (H1 : create_enhanced_record_with_years (fun _ => false) (fun t => t)
                 dated_row "City College" 4 = Some dated_record)
    by (vm_compute; reflexivity).
  assert (H2 : inferred Gender) by now exists Filled.Gender.
  refine (conj H1 (conj H2 _)).
  exact (inferred_values_come_from_cells (fun _ => false) (fun t => t)
           dated_row "City College" 4 dated_record Gender H1 H2).
Defined.

Lemma identity_columns_kept_witness :
  create_enhanced_record_with_years (fun _ => false) (fun t => t)
    dated_row "City College" 4 = Some dated_record
  /\ dated_record S_No = "4" /\ dated_record Institution_name = "City College".
Proof.
  assert (H1 : create_enhanced_record_with_years (fun _ => false) (fun t => t)
                 dated_row "City College" 4 = Some dated_record)
    by (vm_compute; reflexivity).
  refine (conj H1 _).
  exact (identity_columns_kept (fun _ => false) (fun t => t)
           dated_row "City College" 4 dated_record H1).
Defined.


Lemma small_number_becomes_experience_witness :
  filled_fields (initial_state dated_row "City College" 4) Filled.Experience
  = false
  /\ safe_extract_number (Str.strip "05-03-2021") = Some 5
  /\ 1 <= 5 <= 600
  /\ ~ 18 <= 5 <= 80
  /\ (filled_fields (initial_state dated_row "City College" 4)
        Filled.Designation = true
      \/ Str.contains_any designation_keywords
           (Str.lower (Str.strip "05-03-2021")) = false)
  /\ scan_cell (fun _ => false) (fun t => t)
       (initial_state dated_row "City College" 4) "05-03-2021"
     = fill Filled.Experience "5 months"
         (initial_state dated_row "City College" 4).
Proof.
  assert (H1 : filled_fields (initial_state dated_row "City College" 4)
                 Filled.Experience = false) by reflexivity.
  assert (H2 : safe_extract_number (Str.strip "05-03-2021") = Some 5)
    by reflexivity.
  assert (H3 : 1 <= 5 <= 600) by lia.
  assert (H4 : ~ 18 <= 5 <= 80) by lia.
  assert (H5 : filled_fields (initial_state dated_row "City College" 4)
                 Filled.Designation = true
               \/ Str.contains_any designation_keywords
                    (Str.lower (Str.strip "05-03-2021")) = false)
    by (right; reflexivity).
  refine (conj H1 (conj H2 (conj H3 (conj H4 (conj H5 _))))).
  exact (small_number_becomes_experience (fun _ => false) (fun t => t)
           (initial_state dated_row "City College" 4) "05-03-2021" 5
           H1 H2 H3 H4 H5).
Defined.
(* ================================================================== *)
(** * Numbers too large for a float *)

Lemma round_half_even_floor (a b : Z) : a / b <= Float.round_half_even a b.
Proof.
  unfold Float.round_half_even. cbv zeta.
  destruct (2 * (a mod b) <? b); [lia|].
  destruct (b <? 2 * (a mod b)); [lia|].
  destruct (Z.even (a / b)); lia.
Qed.

(** [n / 12] overflows the binary64 range from [12 * 2 ^ 1024] on. *)
Lemma truediv_overflow (n : Z) : 12 * 2 ^ 1024 <= n -> Float.truediv n 12 = None.
Proof.
  intros Hn. unfold Float.truediv. cbv zeta.
  set (q := n / 12).
  assert (HP : 0 < 2 ^ 1024) by (apply Z.pow_pos_nonneg; lia).
  assert (Hq : 2 ^ 1024 <= q).
  { unfold q. apply Z.div_le_lower_bound; lia. }
  assert (HL : 1024 <= Z.log2 q).
  { rewrite <- (Z.log2_pow2 1024) by lia. apply Z.log2_le_mono. exact Hq. }
  set (L := Z.log2 q) in *.
  assert (Hspec : 2 ^ L <= q) by (apply Z.log2_spec; lia).
  set (e := L - 52).
  assert (He : 0 <= e) by (unfold e; lia).
  assert (E0 : (0 <=? e) = true) by now apply Z.leb_le.
  rewrite E0. cbn [andb].
  assert (Hpe : 0 < 2 ^ e) by (apply Z.pow_pos_nonneg; lia).
  assert (Hsplit : 2 ^ L = 2 ^ 52 * 2 ^ e).
  { rewrite <- Z.pow_add_r by lia. f_equal. unfold e. lia. }
  assert (Hm : 2 ^ 52 <= Float.round_half_even n (12 * 2 ^ e)).
  { etransitivity; [|apply round_half_even_floor].
    rewrite <- Z.div_div by lia. fold q.
    apply Z.div_le_lower_bound; [lia|]. rewrite Z.mul_comm. lia. }
  assert (Hbig : 2 ^ 1024 <= Float.round_half_even n (12 * 2 ^ e) * 2 ^ e).
  { assert (H1 : 2 ^ 1024 <= 2 ^ L) by (apply Z.pow_le_mono_r; lia).
    assert (H2 : 2 ^ 52 * 2 ^ e
                 <= Float.round_half_even n (12 * 2 ^ e) * 2 ^ e)
      by (apply Z.mul_le_mono_nonneg_r; lia).
    lia. }
  apply Z.leb_le in Hbig. now rewrite Hbig.
Qed.

(** X6. A number too large for a float is left alone: from [12 * 2 ^ 1024]
    months on, the division [months / 12] raises [OverflowError], the
    [except] branch takes over, and the text comes back unchanged. *)
Theorem convert_months_to_years_overflow (months_text : string) (n : Z) :
  safe_extract_number months_text = Some n -> 12 * 2 ^ 1024 <= n ->
  convert_months_to_years months_text = months_text.
Proof.
  intros Hn Hbig.
  assert (HP : 0 < 2 ^ 1024) by (apply Z.pow_pos_nonneg; lia).
  unfold convert_months_to_years.
  destruct (Str.is_empty months_text) eqn:Ee.
  - apply is_empty_true in Ee. subst months_text. discriminate.
  - rewrite Hn. rewrite (truthy_nonzero n) by lia. cbn [negb].
    assert (E12 : (n <? 12) = false) by (apply Z.ltb_ge; lia).
    rewrite E12, (truediv_overflow n Hbig). reflexivity.
Qed.

Lemma convert_months_to_years_overflow_witness :
  safe_extract_number (Str.of_int (12 * 2 ^ 1024)) = Some (12 * 2 ^ 1024)
  /\ 12 * 2 ^ 1024 <= 12 * 2 ^ 1024
  /\ convert_months_to_years (Str.of_int (12 * 2 ^ 1024))
     = Str.of_int (12 * 2 ^ 1024).
Proof.
  assert (H1 : safe_extract_number (Str.of_int (12 * 2 ^ 1024))
               = Some (12 * 2 ^ 1024)) by (vm_compute; reflexivity).
  assert (H2 : 12 * 2 ^ 1024 <= 12 * 2 ^ 1024) by apply Z.le_refl.
  refine (conj H1 (conj H2 _)).
  exact (convert_months_to_years_overflow (Str.of_int (12 * 2 ^ 1024))
           (12 * 2 ^ 1024) H1 H2).
Defined.
(* ================================================================== *)
(** * The loops of a document as one collection *)

Lemma add_record_keys (records : list record) (new : record) (k : string * string) :
  In k (map record_key (add_record records new))
  <-> In k (map record_key records) \/ k = record_key new.
Proof.
  destruct (add_record_cases records new) as [[Hd ->] | [_ ->]].
  - apply is_duplicate_spec in Hd. split; [auto|]. intros [H | ->]; auto.
  - rewrite map_app, in_app_iff. cbn [map In]. split.
    + intros [H | [H | []]]; auto.
    + intros [H | H]; auto.
Qed.

Lemma add_record_incl (records : list record) (new r : record) :
  In r records -> In r (add_record records new).
Proof.
  intros H. destruct (add_record_cases records new) as [[_ ->] | [_ ->]];
    [exact H | apply in_or_app; now left].
Qed.

Lemma fold_add_incl (l records : list record) (r : record) :
  In r records -> In r (fold_left add_record l records).
Proof.
  revert records. induction l as [|x l IH]; intros records H; [exact H|].
  cbn [fold_left]. apply IH. now apply add_record_incl.
Qed.

Lemma fold_add_first (l records : list record) (r : record) :
  In r (fold_left add_record l records)
  <-> In r records
      \/ ((exists pre post,
             l = (pre ++ r :: post)%list
             /\ forall x, In x pre -> record_key x <> record_key r)
          /\ ~ In (record_key r) (map record_key records)).
Proof.
  split.
  - revert records. induction l as [|x l IH]; intros records; [now left|].
    cbn [fold_left]. intros H. apply IH in H as [H | [(pre & post & -> & Hpre) Hk]].
    + destruct (add_record_cases records x) as [[_ E] | [Hd E]]; rewrite E in H;
        [now left|].
      apply in_app_iff in H as [H | [<- | []]]; [now left | right].
      split; [exists [], l; split; [reflexivity | intros y []]|].
      intros Hin. apply is_duplicate_spec in Hin. congruence.
    + right. rewrite add_record_keys in Hk. split; [|tauto].
      exists (x :: pre), post. split; [reflexivity|].
      intros y [<- | Hy]; [|now apply Hpre]. intros E. apply Hk. now right.
  - intros [H | [(pre & post & -> & Hpre) Hk]]; [now apply fold_add_incl|].
    revert records Hk. induction pre as [|x pre IH]; intros records Hk;
      cbn [app fold_left].
    + apply fold_add_incl.
      destruct (add_record_cases records r) as [[Hd _] | [_ ->]].
      * apply is_duplicate_spec in Hd. contradiction.
      * apply in_or_app. right. now left.
    + apply IH.
      * intros y Hy. apply Hpre. now right.
      * rewrite add_record_keys. intros [H | H]; [contradiction|].
        apply (Hpre x); [now left | now symmetry].
Qed.

(** X13. The collection keeps a record exactly when no record constructed
    before it has the same trimmed lower-case name and the same "S No":
    the first record of each such pair of values stays and later ones are
    dropped; a sequence in which no pair of values comes twice is kept
    whole, in its order. *)
Theorem collect_keeps_first (constructed_records : list record) (r : record) :
  (In r (collect constructed_records) <->
   exists pre post,
     constructed_records = (pre ++ r :: post)%list
     /\ forall x, In x pre -> record_key x <> record_key r)
  /\ (NoDup (map record_key constructed_records) ->
        collect constructed_records = constructed_records).
Proof.
  split.
  - unfold collect. rewrite fold_add_first. cbn [In map]. tauto.
  - unfold collect.
    assert (G : forall acc,
              NoDup (map record_key (acc ++ constructed_records)) ->
              fold_left add_record constructed_records acc
              = (acc ++ constructed_records)%list);
      [|exact (G [])].
    induction constructed_records as [|x l IH]; intros acc Hn;
      [now rewrite app_nil_r|].
    cbn [fold_left].
    destruct (add_record_cases acc x) as [[Hd _] | [_ ->]].
    + exfalso. apply is_duplicate_spec in Hd.
      rewrite map_app in Hn. cbn [map] in Hn.
      apply NoDup_remove_2 in Hn. apply Hn. apply in_or_app. now left.
    + rewrite IH.
      * now rewrite <- app_assoc.
      * rewrite <- app_assoc. exact Hn.
Qed.

Section LoopFacts.

Variable float_in_range : string -> bool.
Variable float_str : string -> string.
Variable I : string.

Lemma process_row_as_add (records : list record) (raw_row : list (option string)) :
  process_row float_in_range float_str I records raw_row
  = fold_left add_record
      (match row_record float_in_range float_str I raw_row with
       | Some r => [r]
       | None => []
       end)
      records.
Proof.
  unfold row_record. cbv zeta.
  destruct (is_potential_faculty_row (map safe_normalize_cell raw_row)) eqn:E.
  - destruct (process_row_classified float_in_range float_str I records raw_row E)
      as (n & -> & _ & -> & ->). reflexivity.
  - now rewrite process_row_unclassified.
Qed.

Lemma rows_as_add (rows : list (list (option string))) (records : list record) :
  fold_left (process_row float_in_range float_str I) rows records
  = fold_left add_record
      (flat_map
         (fun raw_row =>
            match row_record float_in_range float_str I raw_row with
            | Some r => [r]
            | None => []
            end)
         rows)
      records.
Proof.
  revert records. induction rows as [|raw rows IH]; intros records; [reflexivity|].
  cbn [fold_left flat_map]. rewrite fold_left_app, <- process_row_as_add.
  apply IH.
Qed.

Lemma process_tables_as_add (tables : list raw_table) (records : list record) :
  process_tables float_in_range float_str I records tables
  = fold_left add_record
      (flat_map
         (fun raw_row =>
            match row_record float_in_range float_str I raw_row with
            | Some r => [r]
            | None => []
            end)
         (flat_map
            (fun t : raw_table =>
               if Z.of_nat (List.length t) <? 2 then [] else t)
            tables))
      records.
Proof.
  unfold process_tables. revert records.
  induction tables as [|t tables IH]; intros records; [reflexivity|].
  cbn [fold_left flat_map]. rewrite flat_map_app, fold_left_app, IH. f_equal.
  destruct (Z.of_nat (List.length t) <? 2); [reflexivity | apply rows_as_add].
Qed.

Lemma pages_as_add (pages : list page) (records : list record) :
  fold_left (process_page float_in_range float_str I) pages records
  = fold_left add_record (constructed float_in_range float_str I pages) records.
Proof.
  unfold constructed, visited_rows. revert records.
  induction pages as [|p pages IH]; intros records; [reflexivity|].
  cbn [fold_left flat_map]. rewrite flat_map_app, fold_left_app, IH. f_equal.
  unfold process_page. destruct (fst p) as [tables|]; [|reflexivity].
  cbv zeta. rewrite <- process_tables_as_add.
  now destruct (tables ++ _)%list.
Qed.

(** X12. The records of a document are the collection of the records its
    rows stand for: page by page, table by table and row by row, each
    classified row contributes the record the engine builds from it, and
    the duplicate check runs over them in that order. A document that
    cannot be opened gives no records. *)
Theorem extraction_is_collection (pages : list page) :
  fst (extract_from_single_pdf float_in_range float_str I (Returned pages))
  = collect (constructed float_in_range float_str I pages)
  /\ fst (extract_from_single_pdf float_in_range float_str I Raised) = [].
Proof.
  split; [|reflexivity].
  unfold extract_from_single_pdf, collect. cbn [fst]. apply pages_as_add.
Qed.

End LoopFacts.
(* ================================================================== *)
(** * Keywords inside words *)

Lemma first_decimal_none (s : string) :
  Str.existsb Char.is_digit s = false -> first_decimal s = None.
Proof.
  induction s as [|c r IH]; [reflexivity|].
  cbn [Str.existsb]. intros H. apply orb_false_iff in H as [Hc Hr].
  cbn [first_decimal]. rewrite Hc. now apply IH.
Qed.

Lemma no_digit_facts (s : string) :
  Str.existsb Char.is_digit s = false ->
  safe_extract_number s = None /\ Re.search Pattern.digits s = false.
Proof.
  intros H.
  assert (Hn : ~ has_digit s).
  { intros Hd. apply existsb_digit_spec in Hd. congruence. }
  split; [now apply no_digit_no_number|].
  destruct (Re.search Pattern.digits s) eqn:E; [|reflexivity].
  now apply search_digits in E.
Qed.

Lemma char_upper_M_F (c : ascii) :
  (Char.upper c = "M"%char -> Char.lower c = "m"%char)
  /\ (Char.upper c = "F"%char -> Char.lower c = "f"%char).
Proof.
  destruct c as [[] [] [] [] [] [] [] []]; vm_compute;
    split; intros H; solve [reflexivity | discriminate H].
Qed.

Lemma upper_M_F (s : string) :
  Str.mem (Str.upper s) ["M"; "F"] = true ->
  Str.lower s = "m" \/ Str.lower s = "f".
Proof.
  intros H. apply mem_spec in H. cbn [In] in H.
  destruct s as [|c [|d s]]; cbn in H;
    try (destruct H as [H | [H | []]]; discriminate H).
  destruct H as [H | [H | []]]; injection H as H; [left | right]; cbn;
    f_equal; now apply char_upper_M_F.
Qed.

(** A trimmed cell that is none of the six gender words does not pass the
    test of the Gender block. *)
Lemma not_gender (raw : string) (st : state) :
  ~ In (Str.lower (Str.strip raw)) ["m"; "f"; "male"; "female"; "man"; "woman"] ->
  rule_gender (Str.strip raw) (Str.lower (Str.strip raw)) st = None.
Proof.
  intros H. unfold rule_gender.
  destruct (negb (filled_fields st Filled.Gender)); [|reflexivity].
  destruct (Str.mem (Str.lower (Str.strip raw))
              ["m"; "f"; "male"; "female"; "man"; "woman"]
            || Str.mem (Str.upper (Str.strip raw)) ["M"; "F"]
            || Re.match_to_end Pattern.m_or_f (Str.lower (Str.strip raw))) eqn:E;
    [exfalso | reflexivity].
  apply orb_true_iff in E as [E | E]; [apply orb_true_iff in E as [E | E]|].
  - apply mem_spec in E. contradiction.
  - apply upper_M_F in E. apply H. cbn [In]. destruct E as [-> | ->]; auto.
  - apply match_m_or_f in E.
    destruct E as [E | [E | [E | E]]];
      try (apply H; rewrite E; cbn [In]; now auto);
      revert E; apply no_trail_line_feed, no_trail_strip.
Qed.

Section KeywordFacts.

Variable float_in_range : string -> bool.
Variable float_str : string -> string.

(** X25. The working-status block looks for its patterns inside words: a
    cell without digits that holds "no", "yes", "active" or another of the
    eleven patterns anywhere, in any letter case, and that is not a
    spelling of "none" (which the scan skips), is stored as "Currently
    working with institution?" whenever that column is still unset and
    "Designation" is already set or the cell holds no designation keyword.
    A qualification such as "M.Sc Economics" is recorded as the working
    status. *)
Theorem working_pattern_inside_a_word (st : state) (raw t : string) :
  filled_fields st Filled.Working = false ->
  In t working_patterns -> occurs_in t (Str.lower (Str.strip raw)) ->
  Str.existsb Char.is_digit (Str.strip raw) = false ->
  Str.lower (Str.strip raw) <> "none" ->
  filled_fields st Filled.Designation = true
  \/ Str.contains_any designation_keywords (Str.lower (Str.strip raw)) = false ->
  scan_cell float_in_range float_str st raw
  = fill Filled.Working (Str.strip raw) st.
Proof.
  intros Hw Ht Ho Hd Hnone Hdes.
  set (cv := Str.strip raw) in *.
  assert (E5 : Str.contains_any working_patterns (Str.lower cv) = true).
  { unfold Str.contains_any. apply existsb_exists. exists t.
    split; [exact Ht | now apply contains_spec]. }
  assert (Hn : ~ In (Str.lower cv)
                    ["nan"; "none"; "m"; "f"; "male"; "female"; "man"; "woman"]).
  { intros Hin. cbn [In] in Hin.
    destruct Hin as [E | [E | [E | [E | [E | [E | [E | [E | []]]]]]]]];
      try (rewrite <- E in E5; vm_compute in E5; discriminate E5).
    now apply Hnone. }
  assert (Hne : cv <> "").
  { intros E. rewrite E in E5. discriminate E5. }
  unfold scan_cell. cbv zeta. fold cv.
  assert (Hskip : Str.is_empty cv || Str.mem (Str.lower cv) ["nan"; "none"; ""]
                  = false).
  { apply orb_false_iff. split; [now apply is_empty_false|].
    destruct (Str.mem (Str.lower cv) ["nan"; "none"; ""]) eqn:E; [|reflexivity].
    exfalso. apply mem_spec in E. cbn [In] in E, Hn.
    destruct E as [E | [E | [E | []]]]; [tauto | tauto |].
    destruct cv; [congruence | discriminate E]. }
  rewrite Hskip. unfold rules. cbn [first_match].
  destruct (no_digit_facts cv Hd) as [Hnum Hsearch].
  assert (E1 : rule_age cv st = None).
  { unfold rule_age. cbv zeta. rewrite Hnum.
    now destruct (negb (filled_fields st Filled.Age)). }
  assert (E2 : rule_gender cv (Str.lower cv) st = None).
  { apply not_gender. fold cv. cbn [In] in Hn |- *. tauto. }
  assert (E3 : rule_designation cv (Str.lower cv) st = None).
  { unfold rule_designation. destruct Hdes as [-> | ->]; [reflexivity|].
    now destruct (negb (filled_fields st Filled.Designation)). }
  assert (E4 : rule_experience float_in_range float_str cv (Str.lower cv) st
               = None).
  { unfold rule_experience. cbv zeta. rewrite Hsearch, andb_false_r.
    unfold experience_decimal. rewrite (first_decimal_none cv Hd).
    now destruct (negb (filled_fields st Filled.Experience)). }
  rewrite E1, E2, E3, E4. unfold rule_working. rewrite Hw. cbn [negb].
  now rewrite E5.
Qed.

End KeywordFacts.

Lemma working_pattern_inside_a_word_witness :
  filled_fields (initial_state dated_row "City College" 4) Filled.Working = false
  /\ In "no" working_patterns
  /\ occurs_in "no" (Str.lower (Str.strip "M.Sc Economics"))
  /\ Str.existsb Char.is_digit (Str.strip "M.Sc Economics") = false
  /\ Str.lower (Str.strip "M.Sc Economics") <> "none"
  /\ (filled_fields (initial_state dated_row "City College" 4)
        Filled.Designation = true
      \/ Str.contains_any designation_keywords
           (Str.lower (Str.strip "M.Sc Economics")) = false)
  /\ scan_cell (fun _ => false) (fun t => t)
       (initial_state dated_row "City College" 4) "M.Sc Economics"
     = fill Filled.Working "M.Sc Economics"
         (initial_state dated_row "City College" 4).
Proof.
  assert (H1 : filled_fields (initial_state dated_row "City College" 4)
                 Filled.Working = false) by reflexivity.
  assert (H2 : In "no" working_patterns) by (cbn; tauto).
  assert (H3 : occurs_in "no" (Str.lower (Str.strip "M.Sc Economics"))).
  { exists "m.sc eco", "mics". reflexivity. }
  assert (H4 : Str.existsb Char.is_digit (Str.strip "M.Sc Economics") = false)
    by reflexivity.
  assert (H5 : Str.lower (Str.strip "M.Sc Economics") <> "none")
    by discriminate.
  assert (H6 : filled_fields (initial_state dated_row "City College" 4)
                 Filled.Designation = true
               \/ Str.contains_any designation_keywords
                    (Str.lower (Str.strip "M.Sc Economics")) = false)
    by (right; reflexivity).
  refine (conj H1 (conj H2 (conj H3 (conj H4 (conj H5 (conj H6 _)))))).
  exact (working_pattern_inside_a_word (fun _ => false) (fun t => t)
           (initial_state dated_row "City College" 4) "M.Sc Economics" "no"
           H1 H2 H3 H4 H5 H6).
Defined.

(* ================================================================== *)
(** * From a document to its workbook *)

Lemma strongly_sorted_impl (A : Type) (R R' : A -> A -> Prop) (l : list A) :
  (forall a b, In a l -> In b l -> R a b -> R' a b) ->
  StronglySorted R l -> StronglySorted R' l.
Proof.
  intros H Hs. induction Hs as [|a l Hs IH Ha]; constructor.
  - apply IH. intros x y Hx Hy. apply H; now right.
  - rewrite Forall_forall in *. intros b Hb.
    apply H; [now left | now right | now apply Ha].
Qed.

Lemma strongly_sorted_map (A B : Type) (f : A -> B) (R : B -> B -> Prop)
    (l : list A) :
  StronglySorted (fun a b => R (f a) (f b)) l -> StronglySorted R (map f l).
Proof.
  induction 1 as [|a l Hs IH Ha]; cbn [map]; constructor; [exact IH|].
  rewrite Forall_forall in *. intros b Hb.
  apply in_map_iff in Hb as (x & <- & Hx). now apply Ha.
Qed.

(** The names of the deduplicated records are the names of the records. *)
Lemma drop_duplicates_names (records : list record) (name : string) :
  In name (map (fun r => r Name) (drop_duplicates records))
  <-> In name (map (fun r => r Name) records).
Proof.
  rewrite !in_map_iff. split.
  - intros (r & E & Hr). exists r. split; [exact E|].
    now apply drop_duplicates_from_in in Hr.
  - intros (r & E & Hr).
    destruct (drop_duplicates_from_keeps [] records r Hr ltac:(tauto))
      as (r' & Hr' & E').
    exists r'. split; [congruence | exact Hr'].
Qed.

Section Workbook.

Variable float_in_range : string -> bool.
Variable float_str : string -> string.
Variable to_numeric : string -> option Q.
Variable sort_values : list (Q * record) -> list (Q * record).
Variable to_excel : string -> list (Z * record) -> outcome unit.
Variable path_join : string -> string -> string.

(** X24. From a document to its workbook (lines 552-556 with the two
    functions they call): if [pd.to_numeric] reads the numerals of 1 to
    9999 as these numbers, and [sort_values] returns its rows in ascending
    order of the key, then the frame made of the records of a document
    has exactly the names of these records, each once, under the name of
    the document, in ascending order of the serial numbers, each between
    1 and 9999 and each the sort key of its row (the sentinel 999999 is
    never used), with Final Serial 1..N.  The frame is written under the
    name of the document, and nothing is returned exactly when the
    document has no records or [to_excel] raises. *)
Theorem workbook_of_a_document (institution_name output_directory : string)
    (pdf : outcome (list page)) (records : list record) :
  (forall n, 1 <= n <= 9999 -> to_numeric (Str.of_int n) = Some (inject_Z n)) ->
  sorts_by_key sort_values ->
  records
  = fst (extract_from_single_pdf float_in_range float_str institution_name pdf) ->
  (save_individual_college_excel to_numeric sort_values to_excel path_join
     records institution_name output_directory = None
   <-> records = []
       \/ to_excel (path_join output_directory (excel_filename institution_name))
            (final_frame to_numeric sort_values records) = Raised)
  /\ (forall path n,
        save_individual_college_excel to_numeric sort_values to_excel
          path_join records institution_name output_directory
        = Some (path, n) ->
        path = path_join output_directory (excel_filename institution_name)
        /\ n = Z.of_nat
                 (List.length (final_frame to_numeric sort_values records)))
  /\ Forall (collected_shape institution_name)
       (map snd (final_frame to_numeric sort_values records))
  /\ Forall (fun r => 1 <= serial_of r <= 9999
                      /\ S_No_Numeric to_numeric r = inject_Z (serial_of r))
       (map snd (final_frame to_numeric sort_values records))
  /\ StronglySorted (fun a b => serial_of a <= serial_of b)
       (map snd (final_frame to_numeric sort_values records))
  /\ NoDup (map (fun r => r Name)
              (map snd (final_frame to_numeric sort_values records)))
  /\ (forall name,
        In name (map (fun r => r Name)
                   (map snd (final_frame to_numeric sort_values records)))
        <-> In name (map (fun r => r Name) records))
  /\ map fst (final_frame to_numeric sort_values records)
     = map Z.of_nat
         (seq 1 (List.length (final_frame to_numeric sort_values records))).
Proof.
  intros Hnum Hsort Hrec.
  assert (Hperm : forall rows, Permutation rows (sort_values rows))
    by (intros rows; apply Hsort).
  assert (Hs : Forall (collected_shape institution_name) records).
  { rewrite Hrec.
    apply (extract_preserves float_in_range float_str
             (Forall (collected_shape institution_name))).
    - intros rs raw_row. apply process_row_shape.
    - constructor. }
  clear Hrec.
  assert (Hrows := final_frame_rows to_numeric sort_values Hperm records).
  assert (Hin : forall r,
            In r (map snd (final_frame to_numeric sort_values records)) ->
            In r records).
  { intros r Hr. apply (Permutation_in _ (Permutation_sym Hrows)) in Hr.
    now apply drop_duplicates_from_in in Hr as [Hr _]. }
  assert (Hkey : forall r, In r records ->
                   1 <= serial_of r <= 9999
                   /\ S_No_Numeric to_numeric r = inject_Z (serial_of r)).
  { intros r Hr. rewrite Forall_forall in Hs.
    destruct (Hs r Hr) as (_ & _ & n & Hn & E).
    assert (Hser : serial_of r = n).
    { unfold serial_of. rewrite E.
      assert (H := number_of_int_app n ""
                     ltac:(split; [lia | apply below_limit; lia]) I).
      rewrite append_nil_r in H. now rewrite H. }
    rewrite Hser. split; [exact Hn|].
    unfold S_No_Numeric. rewrite E, Hnum by lia. reflexivity. }
  split; [apply save_none, Hperm|].
  split.
  { intros path n H.
    apply (save_some to_numeric sort_values to_excel path_join Hperm) in H
      as (_ & Hpath & Hn & _).
    now split. }
  split; [|split; [|split; [|split; [|split]]]].
  - apply Forall_forall. intros r Hr. rewrite Forall_forall in Hs. auto.
  - apply Forall_forall. intros r Hr. auto.
  - unfold final_frame. cbv zeta. rewrite insert_final_serial_snd.
    apply strongly_sorted_map.
    set (keyed := map (fun r => (S_No_Numeric to_numeric r, r))
                    (drop_duplicates records)).
    destruct (Hsort keyed) as [Hp Hsorted].
    apply (strongly_sorted_impl _ (fun a b => (fst a <= fst b)%Q));
      [|exact Hsorted].
    assert (Hk : forall x, In x (sort_values keyed) ->
                   fst x = inject_Z (serial_of (snd x))).
    { intros x Hx. apply (Permutation_in _ (Permutation_sym Hp)) in Hx.
      unfold keyed in Hx. apply in_map_iff in Hx as (r & <- & Hr).
      cbn [fst snd]. apply Hkey.
      now apply drop_duplicates_from_in in Hr as [Hr _]. }
    intros a b Ha Hb Hab. rewrite (Hk a Ha), (Hk b Hb) in Hab.
    now rewrite Zle_Qle.
  - apply (Permutation_NoDup (Permutation_map _ Hrows)).
    apply drop_duplicates_from_nodup.
  - intros name. rewrite <- (drop_duplicates_names records name).
    split; intros H.
    + exact (Permutation_in _
               (Permutation_sym (Permutation_map (fun r => r Name) Hrows)) H).
    + exact (Permutation_in _ (Permutation_map (fun r => r Name) Hrows) H).
  - rewrite (final_frame_serial to_numeric sort_values Hperm).
    now rewrite (final_frame_length to_numeric sort_values Hperm).
Qed.

End Workbook.

Lemma workbook_of_a_document_witness :
  (forall n, 1 <= n <= 9999 ->
     to_numeric_digits (Str.of_int n) = Some (inject_Z n))
  /\ sorts_by_key stable_sort
  /\ [jane_built]
     = fst (extract_from_single_pdf (fun _ => false) (fun t => t)
              "City College" jane_pdf)
  /\ save_individual_college_excel to_numeric_digits stable_sort
       always_written slash_join [jane_built] "City College" "out"
     = Some ("out/City College_Faculty_Data.xlsx", 1)
  /\ map fst (final_frame to_numeric_digits stable_sort [jane_built])
     = map Z.of_nat
         (seq 1 (List.length
                   (final_frame to_numeric_digits stable_sort [jane_built]))).
Proof.
  assert (H1 : forall n, 1 <= n <= 9999 ->
                 to_numeric_digits (Str.of_int n) = Some (inject_Z n))
    by (intros n Hn; apply to_numeric_digits_of_int; lia).
  assert (H3 : [jane_built]
               = fst (extract_from_single_pdf (fun _ => false) (fun t => t)
                        "City College" jane_pdf))
    by (vm_compute; reflexivity).
  assert (H4 : save_individual_college_excel to_numeric_digits stable_sort
                 always_written slash_join [jane_built] "City College" "out"
               = Some ("out/City College_Faculty_Data.xlsx", 1))
    by (vm_compute; reflexivity).
  destruct (workbook_of_a_document (fun _ => false) (fun t => t)
              to_numeric_digits stable_sort always_written slash_join
              "City College" "out" jane_pdf [jane_built]
              H1 stable_sort_sorts H3)
    as (_ & _ & _ & _ & _ & _ & _ & Hserial).
  exact (conj H1 (conj stable_sort_sorts (conj H3 (conj H4 Hserial)))).
Defined.
(* ================================================================== *)
(** * Columns decided by the first cell that passes a test *)

Lemma fallback_other (c c' : column) (test : string -> bool)
    (render : string -> string) (consume : bool) (p : state * list string) :
  c' <> c ->
  record_of (fst (fallback c' test render consume p)) c = record_of (fst p) c.
Proof.
  intros Hc. destruct p as [st rem]. unfold fallback. cbn [fst].
  destruct (_ && _); [|reflexivity].
  destruct (find test rem); [|reflexivity].
  cbn [fst store record_of]. now apply assign_other.
Qed.

(** The fallback passes write three columns and no other. *)
Lemma fallbacks_other (cells : list string) (st : state) (c : column) :
  ~ In c [Experience_in_years; Qualification; Association_type] ->
  record_of (fallbacks cells st) c = record_of st c.
Proof.
  intros Hc. cbn [In] in Hc. unfold fallbacks. cbv zeta.
  rewrite !fallback_other; [reflexivity | | |]; intros E; apply Hc; auto.
Qed.

Lemma fill_other (k k' : Filled.key) (v : string) (st : state) :
  k' <> k ->
  record_of (fill k' v st) (column_of k) = record_of st (column_of k)
  /\ filled_fields (fill k' v st) k = filled_fields st k.
Proof.
  intros Hk. unfold fill. cbn [record_of filled_fields]. split.
  - apply assign_other. intros E. now apply column_of_inj in E.
  - unfold Filled.set. destruct (Filled.key_eqb k' k) eqn:E; [|reflexivity].
    now apply key_eqb_eq in E.
Qed.

Section FirstCell.

Variable float_in_range : string -> bool.
Variable float_str : string -> string.

Variable k : Filled.key.
Variable test : string -> bool.
Variable value : string -> string.

Hypothesis takes : forall st raw,
  filled_fields st k = false -> test (Str.strip raw) = true ->
  scan_cell float_in_range float_str st raw = fill k (value (Str.strip raw)) st.

Hypothesis passes : forall st raw,
  test (Str.strip raw) = false ->
  scan_cell float_in_range float_str st raw = st
  \/ exists k' v,
       scan_cell float_in_range float_str st raw = fill k' v st /\ k' <> k.

Hypothesis no_fallback :
  ~ In (column_of k) [Experience_in_years; Qualification; Association_type].

Lemma scan_once_filled (cells : list string) (st : state) :
  filled_fields st k = true ->
  record_of (scan float_in_range float_str cells st) (column_of k)
  = record_of st (column_of k).
Proof.
  unfold scan. revert st. induction cells as [|raw cells IH]; intros st Hk;
    [reflexivity|].
  cbn [fold_left].
  destruct (scan_cell_fires float_in_range float_str st raw)
    as [-> | (k' & v & -> & Hk' & _)]; [now apply IH|].
  assert (Hne : k' <> k) by congruence.
  destruct (fill_other k k' v st Hne) as [Er Ef].
  rewrite IH by congruence. exact Er.
Qed.

Lemma scan_first (cells : list string) (st : state) :
  filled_fields st k = false ->
  record_of (scan float_in_range float_str cells st) (column_of k)
  = match find test (map Str.strip cells) with
    | Some cv => value cv
    | None => record_of st (column_of k)
    end.
Proof.
  revert st. induction cells as [|raw cells IH]; intros st Hk; [reflexivity|].
  cbn [map find]. destruct (test (Str.strip raw)) eqn:Et.
  - change (scan float_in_range float_str (raw :: cells) st)
      with (scan float_in_range float_str cells
              (scan_cell float_in_range float_str st raw)).
    rewrite (takes st raw Hk Et).
    rewrite scan_once_filled.
    + cbn [fill record_of]. apply assign_same.
    + cbn [fill filled_fields]. unfold Filled.set.
      assert (E : Filled.key_eqb k k = true) by now apply key_eqb_eq.
      now rewrite E.
  - change (scan float_in_range float_str (raw :: cells) st)
      with (scan float_in_range float_str cells
              (scan_cell float_in_range float_str st raw)).
    destruct (passes st raw Et) as [-> | (k' & v & -> & Hne)]; [now apply IH|].
    destruct (fill_other k k' v st Hne) as [Er Ef].
    rewrite IH by congruence. now rewrite Er.
Qed.

(** The column of [k] in the final record: what the first cell that
    passes [test] gives, or nothing. *)
Lemma infer_first (row : list string) (I : string) (s : Z) :
  record_of (infer float_in_range float_str row I s) (column_of k)
  = match first_cell test row with
    | Some cv => value cv
    | None => ""
    end.
Proof.
  unfold infer, first_cell. cbv zeta.
  rewrite fallbacks_other by exact no_fallback.
  rewrite scan_first by reflexivity.
  destruct (find test _); [reflexivity|].
  apply initial_inferred. now exists k.
Qed.

End FirstCell.

Lemma age_like_spec (cv : string) :
  age_like cv = true <->
  exists a, safe_extract_number cv = Some a /\ 18 <= a <= 80
            /\ (String.length cv <= 3)%nat.
Proof.
  unfold age_like. destruct (safe_extract_number cv) as [a|].
  - rewrite andb_true_iff, in_age_band_spec, Z.leb_le. unfold Str.len. split.
    + intros [H1 H2]. exists a. repeat split; try lia.
    + intros (a' & E & H1 & H2). injection E as <-. split; lia.
  - split; [discriminate | intros (a & E & _); discriminate].
Qed.

Lemma gender_like_no_digit (cv : string) :
  gender_like cv = true -> Str.existsb Char.is_digit cv = false.
Proof.
  intros H. destruct (Str.existsb Char.is_digit cv) eqn:E; [|reflexivity].
  assert (G := digit_not_gender cv (mk_state (fun _ => "") Filled.none []) E).
  unfold rule_gender in G. cbn [filled_fields Filled.none negb] in G.
  unfold gender_like in H. rewrite H in G. discriminate.
Qed.

Lemma gender_like_not_skipped (raw : string) :
  gender_like (Str.strip raw) = true ->
  Str.is_empty (Str.strip raw)
  || Str.mem (Str.lower (Str.strip raw)) ["nan"; "none"; ""] = false.
Proof.
  intros H.
  destruct (Str.is_empty (Str.strip raw)
            || Str.mem (Str.lower (Str.strip raw)) ["nan"; "none"; ""]) eqn:E;
    [exfalso | reflexivity].
  assert (Hl : In (Str.lower (Str.strip raw)) ["nan"; "none"; ""]).
  { apply orb_true_iff in E as [E | E]; [|now apply mem_spec].
    apply is_empty_true in E. rewrite E. cbn. tauto. }
  unfold gender_like in H.
  apply orb_true_iff in H as [H | H]; [apply orb_true_iff in H as [H | H]|].
  - apply mem_spec in H. cbn [In] in H, Hl.
    destruct Hl as [Hl | [Hl | [Hl | []]]]; rewrite <- Hl in H;
      intuition discriminate.
  - apply upper_M_F in H. cbn [In] in Hl.
    destruct Hl as [Hl | [Hl | [Hl | []]]]; rewrite <- Hl in H;
      intuition discriminate.
  - apply match_m_or_f in H. cbn [In] in Hl.
    destruct Hl as [Hl | [Hl | [Hl | []]]]; rewrite <- Hl in H;
      intuition discriminate.
Qed.

Section FirstCellFacts.

Variable float_in_range : string -> bool.
Variable float_str : string -> string.

Lemma age_takes (st : state) (raw : string) :
  filled_fields st Filled.Age = false -> age_like (Str.strip raw) = true ->
  scan_cell float_in_range float_str st raw
  = fill Filled.Age (age_text (Str.strip raw)) st.
Proof.
  intros Hf Ht. apply age_like_spec in Ht as (a & Ha & Hb & Hl).
  unfold age_text. rewrite Ha.
  now apply age_step.
Qed.

Lemma age_passes (st : state) (raw : string) :
  age_like (Str.strip raw) = false ->
  scan_cell float_in_range float_str st raw = st
  \/ exists k' v,
       scan_cell float_in_range float_str st raw = fill k' v st
       /\ k' <> Filled.Age.
Proof.
  intros Ht.
  destruct (scan_cell_justified float_in_range float_str st raw)
    as [E | (k' & v & E & Hj & _ & _)]; [now left | right].
  exists k', v. split; [exact E|]. intros ->.
  cbn [column_of justified] in Hj. destruct Hj as (n & Hn & Hb & Hl & _).
  assert (H : age_like (Str.strip raw) = true) by (apply age_like_spec; eauto).
  congruence.
Qed.

Lemma gender_takes (st : state) (raw : string) :
  filled_fields st Filled.Gender = false -> gender_like (Str.strip raw) = true ->
  scan_cell float_in_range float_str st raw
  = fill Filled.Gender (gender_text (Str.strip raw)) st.
Proof.
  intros Hf Ht. unfold scan_cell. cbv zeta.
  rewrite (gender_like_not_skipped raw Ht).
  unfold rules. cbn [first_match].
  destruct (no_digit_facts _ (gender_like_no_digit _ Ht)) as [Hn _].
  assert (E1 : rule_age (Str.strip raw) st = None).
  { unfold rule_age. cbv zeta. rewrite Hn.
    now destruct (negb (filled_fields st Filled.Age)). }
  rewrite E1. unfold rule_gender. rewrite Hf. cbn [negb].
  unfold gender_like in Ht. rewrite Ht. reflexivity.
Qed.

Lemma gender_passes (st : state) (raw : string) :
  gender_like (Str.strip raw) = false ->
  scan_cell float_in_range float_str st raw = st
  \/ exists k' v,
       scan_cell float_in_range float_str st raw = fill k' v st
       /\ k' <> Filled.Gender.
Proof.
  intros Ht.
  destruct (scan_cell_justified float_in_range float_str st raw)
    as [E | (k' & v & E & Hj & _ & _)]; [now left | right].
  exists k', v. split; [exact E|]. intros ->.
  cbn [column_of justified] in Hj. destruct Hj as [Hj _].
  unfold gender_like in Ht. congruence.
Qed.

(** X16. "Age" is decided by the first age-like cell: the returned record
    holds the number of the first cell, from index 2 on, that has at most
    three characters and a number between 18 and 80, whatever column that
    cell stands in, and is empty when there is no such cell.  A count of
    months such as "24" that comes before the age is recorded as the
    age.  The column therefore holds nothing or the numeral of a number
    between 18 and 80. *)
Theorem age_is_first_age_like_cell (row : list string) (I : string) (s : Z)
    (r : record) :
  create_enhanced_record_with_years float_in_range float_str row I s = Some r ->
  r Age = match first_cell age_like row with
          | Some cv => age_text cv
          | None => ""
          end
  /\ (r Age = "" \/ exists n, 18 <= n <= 80 /\ r Age = Str.of_int n).
Proof.
  intros H. apply create_some in H. subst r.
  assert (E : record_of (infer float_in_range float_str row I s) Age
              = match first_cell age_like row with
                | Some cv => age_text cv
                | None => ""
                end).
  { apply (infer_first float_in_range float_str Filled.Age age_like age_text
             age_takes age_passes).
    cbn. intuition discriminate. }
  split; [exact E|]. rewrite E. unfold first_cell.
  destruct (find age_like _) as [cv|] eqn:Ef; [right | now left].
  apply find_some in Ef as [_ Ht]. apply age_like_spec in Ht as (a & Ha & Hb & _).
  exists a. split; [exact Hb|]. unfold age_text. now rewrite Ha.
Qed.

(** X17. "Gender" is decided by the first cell, from index 2 on, that
    reads m, f, male, female, man or woman in any letter case: the
    returned record holds that cell, in capitals when it is the single
    letter, and is empty when there is no such cell.  The column
    therefore holds nothing, "M", "F", or a spelling of male, female, man
    or woman. *)
Theorem gender_is_first_gender_cell (row : list string) (I : string) (s : Z)
    (r : record) :
  create_enhanced_record_with_years float_in_range float_str row I s = Some r ->
  r Gender = match first_cell gender_like row with
             | Some cv => gender_text cv
             | None => ""
             end
  /\ (r Gender = "" \/ r Gender = "M" \/ r Gender = "F"
      \/ In (Str.lower (r Gender)) ["male"; "female"; "man"; "woman"]).
Proof.
  intros H. apply create_some in H. subst r.
  assert (E : record_of (infer float_in_range float_str row I s) Gender
              = match first_cell gender_like row with
                | Some cv => gender_text cv
                | None => ""
                end).
  { apply (infer_first float_in_range float_str Filled.Gender gender_like
             gender_text gender_takes gender_passes).
    cbn. intuition discriminate. }
  split; [exact E|]. rewrite E. unfold first_cell.
  destruct (find gender_like _) as [cv|] eqn:Ef; [right | now left].
  apply find_some in Ef as [Hin Ht].
  apply in_map_iff in Hin as (raw & <- & _).
  unfold gender_text.
  destruct (Str.mem (Str.upper (Str.strip raw)) ["M"; "F"]) eqn:Eu.
  - apply mem_spec in Eu. destruct Eu as [<- | [<- | []]]; auto.
  - unfold gender_like in Ht. rewrite Eu, orb_false_r in Ht.
    assert (Hmf : Str.lower (Str.strip raw) <> "m"
                  /\ Str.lower (Str.strip raw) <> "f").
    { split; intros Hl; apply lower_m_f in Hl; rewrite Hl in Eu; discriminate. }
    destruct Hmf as [Hm Hf].
    apply orb_true_iff in Ht as [Ht | Ht].
    + apply mem_spec in Ht. cbn [In] in Ht. cbn [In].
      destruct Ht as [Ht | [Ht | Ht]]; [congruence | congruence | tauto].
    + apply match_m_or_f in Ht.
      destruct Ht as [Ht | [Ht | [Ht | Ht]]]; try congruence;
        exfalso; revert Ht; apply no_trail_line_feed, no_trail_strip.
Qed.

End FirstCellFacts.

Lemma age_is_first_age_like_cell_witness :
  create_enhanced_record_with_years (fun _ => false) (fun t => t)
    dated_row "City College" 4 = Some dated_record
  /\ first_cell age_like dated_row = Some "45"
  /\ dated_record Age
     = match first_cell age_like dated_row with
       | Some cv => age_text cv
       | None => ""
       end
  /\ (dated_record Age = ""
      \/ exists n, 18 <= n <= 80 /\ dated_record Age = Str.of_int n).
Proof.
  assert (H1 : create_enhanced_record_with_years (fun _ => false) (fun t => t)
                 dated_row "City College" 4 = Some dated_record)
    by (vm_compute; reflexivity).
  refine (conj H1 (conj eq_refl _)).
  exact (age_is_first_age_like_cell (fun _ => false) (fun t => t)
           dated_row "City College" 4 dated_record H1).
Defined.

Lemma gender_is_first_gender_cell_witness :
  create_enhanced_record_with_years (fun _ => false) (fun t => t)
    dated_row "City College" 4 = Some dated_record
  /\ first_cell gender_like dated_row = Some "m"
  /\ dated_record Gender
     = match first_cell gender_like dated_row with
       | Some cv => gender_text cv
       | None => ""
       end
  /\ (dated_record Gender = "" \/ dated_record Gender = "M"
      \/ dated_record Gender = "F"
      \/ In (Str.lower (dated_record Gender)) ["male"; "female"; "man"; "woman"]).
Proof.
  assert (H1 : create_enhanced_record_with_years (fun _ => false) (fun t => t)
                 dated_row "City College" 4 = Some dated_record)
    by (vm_compute; reflexivity).
  refine (conj H1 (conj eq_refl _)).
  exact (gender_is_first_gender_cell (fun _ => false) (fun t => t)
           dated_row "City College" 4 dated_record H1).
Defined.
(* ================================================================== *)
(** * "Designation" and "Association type" *)

Lemma keyword_not_skipped (cv : string) :
  designation_like cv = true ->
  Str.is_empty cv || Str.mem (Str.lower cv) ["nan"; "none"; ""] = false.
Proof.
  intros H.
  destruct (Str.is_empty cv || Str.mem (Str.lower cv) ["nan"; "none"; ""]) eqn:E;
    [exfalso | reflexivity].
  assert (Hl : In (Str.lower cv) ["nan"; "none"; ""]).
  { apply orb_true_iff in E as [E | E]; [|now apply mem_spec].
    apply is_empty_true in E. rewrite E. cbn. tauto. }
  unfold designation_like in H. cbn [In] in Hl.
  destruct Hl as [Hl | [Hl | [Hl | []]]]; rewrite <- Hl in H; discriminate.
Qed.

Lemma occurs_in_length (t s : string) :
  occurs_in t s -> (String.length t <= String.length s)%nat.
Proof.
  intros (pre & post & ->). rewrite !length_append. lia.
Qed.

Lemma occurs_in_same_length (t s : string) :
  occurs_in t s -> String.length s = String.length t -> s = t.
Proof.
  intros (pre & post & ->) H. rewrite !length_append in H.
  destruct pre; [|simpl in H; lia]. destruct post; [|simpl in H; lia].
  cbn. apply append_nil_r.
Qed.

Lemma age_like_no_keyword (cv : string) :
  age_like cv = true -> designation_like cv = false.
Proof.
  intros Ha. apply age_like_spec in Ha as (a & Hn & _ & Hl).
  assert (Hd : Str.existsb Char.is_digit (Str.lower cv) = true).
  { rewrite existsb_digit_lower. eapply number_has_digit; eauto. }
  assert (Hlen : (String.length (Str.lower cv) <= 3)%nat).
  { unfold Str.lower. now rewrite str_length_map. }
  unfold designation_like.
  destruct (Str.contains_any designation_keywords (Str.lower cv)) eqn:E;
    [exfalso | reflexivity].
  unfold Str.contains_any in E. apply existsb_exists in E as (t & Ht & Hc).
  apply contains_spec in Hc. assert (Hlt := occurs_in_length _ _ Hc).
  cbn [designation_keywords In] in Ht.
  repeat (destruct Ht as [Ht | Ht];
          [subst t; simpl in Hlt;
           first [lia | idtac] |]); try contradiction.
  assert (E : Str.lower cv = "hod").
  { apply occurs_in_same_length; [exact Hc|]. simpl in Hlt |- *. lia. }
  rewrite E in Hd. discriminate.
Qed.

Lemma gender_like_words (raw : string) :
  gender_like (Str.strip raw) = true ->
  In (Str.lower (Str.strip raw)) ["m"; "f"; "male"; "female"; "man"; "woman"].
Proof.
  unfold gender_like. intros H.
  apply orb_true_iff in H as [H | H]; [apply orb_true_iff in H as [H | H]|].
  - now apply mem_spec.
  - apply upper_M_F in H. destruct H as [-> | ->]; cbn [In]; auto.
  - apply match_m_or_f in H.
    destruct H as [H | [H | [H | H]]];
      try (rewrite H; cbn [In]; now auto);
      exfalso; revert H; apply no_trail_line_feed, no_trail_strip.
Qed.

Lemma gender_like_no_keyword (raw : string) :
  gender_like (Str.strip raw) = true -> designation_like (Str.strip raw) = false.
Proof.
  intros H. apply gender_like_words in H. unfold designation_like.
  cbn [In] in H.
  repeat (destruct H as [H | H]; [rewrite <- H; reflexivity|]).
  contradiction.
Qed.

Lemma rule_age_none (cv : string) (st : state) :
  age_like cv = false -> rule_age cv st = None.
Proof.
  unfold age_like, rule_age. cbv zeta. intros H.
  destruct (negb (filled_fields st Filled.Age)); [|reflexivity].
  destruct (safe_extract_number cv) as [a|]; [|reflexivity].
  now rewrite <- andb_assoc, H, andb_false_r.
Qed.

Lemma rule_gender_none (cv : string) (st : state) :
  gender_like cv = false -> rule_gender cv (Str.lower cv) st = None.
Proof.
  unfold gender_like, rule_gender. intros H.
  destruct (negb (filled_fields st Filled.Gender)); [|reflexivity].
  now rewrite H.
Qed.

Lemma fill_inj (k k' : Filled.key) (v v' : string) (st : state) :
  fill k v st = fill k' v' st -> k = k' /\ v = v'.
Proof.
  intros H. apply (f_equal writes) in H. cbn [fill writes] in H.
  injection H as Hc Hv. split; [now apply column_of_inj | exact Hv].
Qed.

(** In a state that agrees with its log, the columns the engine does not
    infer hold what the dict literal gave them. *)
Lemma log_identity (r0 : record) (st : state) (c : column) :
  log_inv r0 st -> ~ inferred c -> record_of st c = r0 c.
Proof.
  intros [_ Hlog Hrest] Hc. apply Hrest. intros Hin.
  apply in_map_iff in Hin as ([c' v] & E & Hin). simpl in E. subst c'.
  apply Hlog in Hin as (_ & _ & Hi). contradiction.
Qed.

Lemma not_in_values (r0 : record) (st : state) (v : string) :
  log_inv r0 st -> in_values v (record_of st) = false ->
  v <> r0 S_No /\ v <> r0 Name /\ v <> r0 Institution_name.
Proof.
  intros Hl Hv.
  assert (H : forall c, ~ inferred c -> v <> r0 c).
  { intros c Hc E. rewrite <- (log_identity r0 st c Hl Hc) in E.
    assert (Hin : in_values v (record_of st) = true)
      by (apply in_values_spec; eauto).
    congruence. }
  repeat split; apply H; apply not_inferred; auto.
Qed.

Section DesignationAssociation.

Variable float_in_range : string -> bool.
Variable float_str : string -> string.

Lemma designation_takes (st : state) (raw : string) :
  filled_fields st Filled.Designation = false ->
  designation_like (Str.strip raw) = true ->
  scan_cell float_in_range float_str st raw
  = fill Filled.Designation (Str.strip raw) st.
Proof.
  intros Hf Ht. unfold scan_cell. cbv zeta.
  rewrite (keyword_not_skipped _ Ht). unfold rules. cbn [first_match].
  assert (Ea : age_like (Str.strip raw) = false).
  { destruct (age_like (Str.strip raw)) eqn:E; [|reflexivity].
    apply age_like_no_keyword in E. congruence. }
  assert (Eg : gender_like (Str.strip raw) = false).
  { destruct (gender_like (Str.strip raw)) eqn:E; [|reflexivity].
    apply gender_like_no_keyword in E. congruence. }
  rewrite (rule_age_none _ st Ea), (rule_gender_none _ st Eg).
  unfold rule_designation. rewrite Hf. cbn [negb].
  unfold designation_like in Ht. now rewrite Ht.
Qed.

Lemma designation_passes (st : state) (raw : string) :
  designation_like (Str.strip raw) = false ->
  scan_cell float_in_range float_str st raw = st
  \/ exists k' v,
       scan_cell float_in_range float_str st raw = fill k' v st
       /\ k' <> Filled.Designation.
Proof.
  intros Ht.
  destruct (scan_cell_justified float_in_range float_str st raw)
    as [E | (k' & v & E & Hj & _ & _)]; [now left | right].
  exists k', v. split; [exact E|]. intros ->.
  cbn [column_of justified] in Hj. destruct Hj as [Hj _].
  unfold designation_like in Ht. congruence.
Qed.

(** X26. "Designation" is decided by the first cell, from index 2 on,
    that holds one of the fifteen designation keywords anywhere, in any
    letter case: the returned record holds that cell as it is, and is
    empty when the row has no such cell.  No earlier block can take such a
    cell, and a later cell with a keyword is left to the later blocks. *)
Theorem designation_is_first_keyword_cell (row : list string) (I : string)
    (s : Z) (r : record) :
  create_enhanced_record_with_years float_in_range float_str row I s = Some r ->
  r Designation = match first_cell designation_like row with
                  | Some cv => cv
                  | None => ""
                  end.
Proof.
  intros H. apply create_some in H. subst r.
  apply (infer_first float_in_range float_str Filled.Designation
           designation_like (fun cv => cv) designation_takes designation_passes).
  cbn. intuition discriminate.
Qed.

Lemma scan_cell_association (r0 : record) (st : state) (raw : string) :
  log_inv r0 st -> flags_inv st -> association_new r0 st ->
  log_inv r0 (scan_cell float_in_range float_str st raw)
  /\ flags_inv (scan_cell float_in_range float_str st raw)
  /\ association_new r0 (scan_cell float_in_range float_str st raw).
Proof.
  intros Hl Hf Ha.
  destruct (scan_cell_fires float_in_range float_str st raw)
    as [E | (k & v & E & Hk & Hv)]; [rewrite E; auto|].
  destruct (fill_inv r0 st k v Hl Hf Hk Hv) as [Hl' Hf'].
  rewrite E. split; [exact Hl'|]. split; [exact Hf'|].
  destruct (scan_cell_justified float_in_range float_str st raw)
    as [E' | (k' & v' & E' & _ & _ & Hs)].
  - exfalso. rewrite E' in E. apply (f_equal writes) in E.
    cbn [fill writes] in E. apply (f_equal (@List.length _)) in E.
    simpl in E. lia.
  - rewrite E' in E. apply fill_inj in E as [-> ->].
    intros w [Hw | Hw]; [|now apply Ha].
    injection Hw as Hc <-.
    assert (Hk' : k = Filled.Association) by (now apply column_of_inj).
    apply (not_in_values r0 st v Hl). now apply Hs.
Qed.

Lemma scan_association (r0 : record) (cells : list string) (st : state) :
  log_inv r0 st -> flags_inv st -> association_new r0 st ->
  log_inv r0 (scan float_in_range float_str cells st)
  /\ association_new r0 (scan float_in_range float_str cells st).
Proof.
  unfold scan. revert st. induction cells as [|raw cells IH]; intros st Hl Hf Ha;
    [now split|].
  cbn [fold_left].
  destruct (scan_cell_association r0 st raw Hl Hf Ha) as (Hl' & Hf' & Ha').
  now apply IH.
Qed.

Lemma infer_association (row : list string) (I : string) (s : Z) :
  association_new (initial_record row I s)
    (infer float_in_range float_str row I s).
Proof.
  unfold infer. cbv zeta.
  set (cells := skipn 2 row).
  set (st1 := scan float_in_range float_str cells (initial_state row I s)).
  destruct (initial_inv row I s) as [Hl0 Hf0].
  destruct (scan_association (initial_record row I s) cells
              (initial_state row I s) Hl0 Hf0) as [Hl1 Ha1];
    [intros v []|].
  fold st1 in Hl1, Ha1.
  intros v Hv. unfold fallbacks in Hv. cbv zeta in Hv.
  set (p0 := (st1, remaining_cells_of cells (record_of st1))) in Hv.
  set (p1 := fallback Experience_in_years _ _ _ p0) in Hv.
  set (p2 := fallback Qualification _ _ _ p1) in Hv.
  assert (R2 : forall x, In x (snd p2) -> in_values x (record_of st1) = false).
  { intros x Hx.
    assert (Hx1 : In x (snd p1)) by (revert Hx; apply writes_fallback).
    assert (Hx0 : In x (snd p0)) by (revert Hx1; apply writes_fallback).
    now apply remaining_from_cells in Hx0 as (raw & _ & _ & Hin). }
  apply fallback_step in Hv as [Hv | (_ & x & Hx & _ & ->)].
  2: { eapply not_in_values; eauto. }
  apply fallback_step in Hv as [Hv | (Hc & _)]; [|discriminate Hc].
  apply fallback_step in Hv as [Hv | (Hc & _)]; [|discriminate Hc].
  now apply Ha1.
Qed.

(** X27. "Association type" never repeats the serial number, the name or
    the institution name: the scan stores a cell there only when it is
    not yet among the values of the record, and the fallback only takes
    cells that are not.  A cell that reads like the name of the
    institution is therefore never the association type. *)
Theorem association_is_a_new_value (row : list string) (I : string) (s : Z)
    (r : record) :
  create_enhanced_record_with_years float_in_range float_str row I s = Some r ->
  r Association_type <> "" ->
  r Association_type <> r S_No
  /\ r Association_type <> r Name
  /\ r Association_type <> r Institution_name.
Proof.
  intros H Hne. apply create_some in H. subst r.
  destruct (infer_provenance float_in_range float_str row I s Association_type)
    as [Hw _]; [now exists Filled.Association | exact Hne |].
  apply infer_association in Hw.
  rewrite (identity_kept float_in_range float_str row I s S_No),
    (identity_kept float_in_range float_str row I s Name),
    (identity_kept float_in_range float_str row I s Institution_name)
    by (apply not_inferred; auto).
  exact Hw.
Qed.

End DesignationAssociation.

Lemma designation_is_first_keyword_cell_witness :
  create_enhanced_record_with_years (fun _ => false) (fun t => t)
    designation_row "City College" 9 = Some designation_record
  /\ first_cell designation_like designation_row = Some "Associate Professor"
  /\ designation_record Designation
     = match first_cell designation_like designation_row with
       | Some cv => cv
       | None => ""
       end.
Proof.
  assert (H1 : create_enhanced_record_with_years (fun _ => false) (fun t => t)
                 designation_row "City College" 9 = Some designation_record)
    by (vm_compute; reflexivity).
  refine (conj H1 (conj eq_refl _)).
  exact (designation_is_first_keyword_cell (fun _ => false) (fun t => t)
           designation_row "City College" 9 designation_record H1).
Defined.

Lemma association_is_a_new_value_witness :
  create_enhanced_record_with_years (fun _ => false) (fun t => t)
    (map safe_normalize_cell (map Some jane_row)) "City College" 3
  = Some jane_built
  /\ jane_built Association_type <> ""
  /\ jane_built Association_type <> jane_built S_No
  /\ jane_built Association_type <> jane_built Name
  /\ jane_built Association_type <> jane_built Institution_name.
Proof.
  assert (H1 : create_enhanced_record_with_years (fun _ => false) (fun t => t)
                 (map safe_normalize_cell (map Some jane_row)) "City College" 3
               = Some jane_built)
    by (vm_compute; reflexivity).
  assert (H2 : jane_built Association_type <> "")
    by (vm_compute; discriminate).
  refine (conj H1 (conj H2 _)).
  exact (association_is_a_new_value (fun _ => false) (fun t => t)
           (map safe_normalize_cell (map Some jane_row)) "City College" 3
           jane_built H1 H2).
Defined.
